(** * Receipt processor: scoring rules and the receipt store

    A shallow embedding of [receipt-api/main.go]: the [Receipt] and
    [Item] structs, [calculatePoints] with its seven rules, and the
    [ReceiptStore] methods [AddReceipt] and [GetPoints].

    Go values are modelled as follows.
    - [string]: a sequence of bytes, here Rocq's [string] (one [ascii]
      per byte); [len] counts bytes.
    - [int]: a 64-bit two's complement integer, here a [Z] that every
      arithmetic operation brings back into range with [int_wrap].  The
      results of [len] are taken as they are: Go has no string or slice
      longer than the largest [int], so that neither [len(s)] nor
      [len(s)-3] overflows.
    - [float64]: IEEE 754 binary64, here [spec_float] with precision 53
      and maximal exponent 1024.
    - a run-time panic: the [Panic] constructor of [result].
    - [map[string]int]: a finite map [gmap string Z].

    The functions of the Go standard library that [calculatePoints]
    calls ([strings.TrimSpace], [strings.Split], [strconv.ParseFloat],
    [strconv.Atoi], [math.Ceil]) are modelled after their documented
    behaviour and the structure of their implementation, in modules
    named after their packages. *)

From Stdlib Require Import ZArith List Ascii String Bool Lia.
From Stdlib Require Import QArith Qround.
From Stdlib Require Import Floats.SpecFloat.
From stdpp Require Import gmap strings.
Import ListNotations.

Local Open Scope Z_scope.

(** ** Results of code that may panic *)

Inductive result (A : Type) : Type :=
| Ok (a : A)
| Panic (msg : string).

Arguments Ok {A} a.
Arguments Panic {A} msg.

#[global] Instance result_ret : MRet result := fun A a => Ok a.

#[global] Instance result_bind : MBind result := fun A B k r =>
  match r with
  | Ok a => k a
  | Panic msg => Panic msg
  end.

(** ** The type [int] *)

Definition MinInt : Z := - 2 ^ 63.
Definition MaxInt : Z := 2 ^ 63 - 1.

(** The value an arithmetic result has once it is stored in an [int]. *)
Definition int_wrap (z : Z) : Z := (z + 2 ^ 63) mod 2 ^ 64 - 2 ^ 63.

Definition int_add (x y : Z) : Z := int_wrap (x + y).
Definition int_mul (x y : Z) : Z := int_wrap (x * y).
(** [/] and [%] truncate toward zero. *)
Definition int_div (x y : Z) : Z := int_wrap (Z.quot x y).
Definition int_rem (x y : Z) : Z := Z.rem x y.

(** ** Strings as byte sequences *)

Definition byte_val (c : ascii) : Z := Z.of_N (N_of_ascii c).

Definition len (s : string) : Z := Z.of_nat (String.length s).

Fixpoint str_drop (n : nat) (s : string) : string :=
  match n, s with
  | O, _ => s
  | S n', String _ t => str_drop n' t
  | S _, EmptyString => EmptyString
  end.

Fixpoint str_take (n : nat) (s : string) : string :=
  match n, s with
  | O, _ => EmptyString
  | S n', String c t => String c (str_take n' t)
  | S _, EmptyString => EmptyString
  end.

(** [s[i]] for an index known to be in range; the zero byte otherwise. *)
Definition byte_at (s : string) (i : nat) : Z :=
  match String.get i s with
  | Some c => byte_val c
  | None => 0
  end.

(** The slice expression [s[low:]]: panics unless [0 <= low <= len(s)]. *)
Definition slice_from (s : string) (low : Z) : result string :=
  if (low <? 0) || (len s <? low)
  then Panic "slice bounds out of range"
  else Ok (str_drop (Z.to_nat low) s).

(** The index expression [a[i]] on a slice of strings. *)
Definition index_at (a : list string) (i : nat) : result string :=
  match nth_error a i with
  | Some x => Ok x
  | None => Panic "index out of range"
  end.

(** ** Package [unicode/utf8] *)

Module utf8.

Definition RuneError : Z := 0xFFFD.
Definition RuneSelf : Z := 0x80.
Definition UTFMax : nat := 4.

Definition locb : Z := 0x80.
Definition hicb : Z := 0xBF.

(** An entry of the table [first]: an ASCII byte, an invalid leading
    byte, or the leading byte of a sequence of [size] bytes whose second
    byte lies in [lo, hi]. *)
Inductive firstInfo : Type :=
| ascii_byte
| invalid
| lead (size : Z) (lo hi : Z).

Definition first (b : Z) : firstInfo :=
  if b <? 0x80 then ascii_byte
  else if b <? 0xC2 then invalid
  else if b <? 0xE0 then lead 2 locb hicb
  else if b =? 0xE0 then lead 3 0xA0 hicb
  else if b <? 0xED then lead 3 locb hicb
  else if b =? 0xED then lead 3 locb 0x9F
  else if b <? 0xF0 then lead 3 locb hicb
  else if b =? 0xF0 then lead 4 0x90 hicb
  else if b <? 0xF4 then lead 4 locb hicb
  else if b =? 0xF4 then lead 4 locb 0x8F
  else invalid.

Definition mask2 : Z := 0x1F.
Definition mask3 : Z := 0x0F.
Definition mask4 : Z := 0x07.
Definition maskx : Z := 0x3F.

(** [DecodeRuneInString(s)]: the first rune of [s] and its width in
    bytes; [(RuneError, 0)] on the empty string and [(RuneError, 1)] on
    an invalid encoding. *)
Definition DecodeRuneInString (s : string) : Z * Z :=
  match s with
  | EmptyString => (RuneError, 0)
  | String c0 t =>
    let s0 := byte_val c0 in
    match first s0 with
    | ascii_byte => (s0, 1)
    | invalid => (RuneError, 1)
    | lead sz lo hi =>
      if len s <? sz then (RuneError, 1) else
      let s1 := byte_at s 1 in
      if (s1 <? lo) || (hi <? s1) then (RuneError, 1) else
      if sz <=? 2 then
        (Z.lor (Z.shiftl (Z.land s0 mask2) 6) (Z.land s1 maskx), 2)
      else
      let s2 := byte_at s 2 in
      if (s2 <? locb) || (hicb <? s2) then (RuneError, 1) else
      if sz <=? 3 then
        (Z.lor (Z.lor (Z.shiftl (Z.land s0 mask3) 12)
                      (Z.shiftl (Z.land s1 maskx) 6))
               (Z.land s2 maskx), 3)
      else
      let s3 := byte_at s 3 in
      if (s3 <? locb) || (hicb <? s3) then (RuneError, 1) else
        (Z.lor (Z.lor (Z.lor (Z.shiftl (Z.land s0 mask4) 18)
                             (Z.shiftl (Z.land s1 maskx) 12))
                      (Z.shiftl (Z.land s2 maskx) 6))
               (Z.land s3 maskx), 4)
    end
  end.

(** [RuneStart(b)]: [b] is not a continuation byte. *)
Definition RuneStart (b : Z) : bool := negb (Z.land b 0xC0 =? 0x80).

(** The backward scan of [DecodeLastRuneInString], over the indices
    [lim + steps - 1] down to [lim]: the first index whose byte can start
    a rune, and [lim - 1] when the scan runs past [lim]. *)
Fixpoint scan_back (s : string) (lim : nat) (steps : nat) : Z :=
  match steps with
  | O => Z.of_nat lim - 1
  | S steps' =>
    if RuneStart (byte_at s (lim + steps')%nat) then Z.of_nat (lim + steps')
    else scan_back s lim steps'
  end.

(** [DecodeLastRuneInString(s)]: the last rune of [s] and its width. *)
Definition DecodeLastRuneInString (s : string) : Z * Z :=
  let end_ := String.length s in
  match end_ with
  | O => (RuneError, 0)
  | S start =>
    let r := byte_at s start in
    if r <? RuneSelf then (r, 1) else
    let lim := Z.to_nat (Z.max 0 (Z.of_nat end_ - Z.of_nat UTFMax)) in
    let start' := Z.max 0 (scan_back s lim (start - lim)%nat) in
    let '(r', size) := DecodeRuneInString (str_drop (Z.to_nat start') s) in
    if start' + size =? Z.of_nat end_ then (r', size)
    else (RuneError, 1)
  end.

(** The statement [for i, r := range s], run on an accumulator: [body]
    receives the byte index and the rune.  Every iteration consumes at
    least one byte, so [String.length s] iterations are enough. *)
Fixpoint range_from {A : Type} (fuel : nat) (s : string) (i : Z)
         (body : Z -> Z -> A -> A) (acc : A) : A :=
  match fuel with
  | O => acc
  | S fuel' =>
    match s with
    | EmptyString => acc
    | String _ _ =>
      let '(r, size) := DecodeRuneInString s in
      range_from fuel' (str_drop (Z.to_nat size) s) (i + size) body (body i r acc)
    end
  end.

Definition range {A : Type} (s : string) (body : Z -> Z -> A -> A) (acc : A) : A :=
  range_from (String.length s) s 0 body acc.

(** [RuneCountInString(s)]: invalid bytes count as one rune each. *)
Definition RuneCountInString (s : string) : Z :=
  range s (fun _ _ n => n + 1) 0.

End utf8.

(** The characters of a string: the UTF-8 sequences that [for range]
    steps through, one string for each rune. *)
Fixpoint characters_from (fuel : nat) (s : string) : list string :=
  match fuel with
  | O => []
  | S fuel' =>
    match s with
    | EmptyString => []
    | String _ _ =>
      let '(_, size) := utf8.DecodeRuneInString s in
      str_take (Z.to_nat size) s :: characters_from fuel' (str_drop (Z.to_nat size) s)
    end
  end.

Definition characters (s : string) : list string :=
  characters_from (String.length s) s.

(** ** Package [unicode] *)

Module unicode.

Definition MaxLatin1 : Z := 0xFF.

(** The ranges of the table [White_Space] above Latin-1. *)
Definition White_Space (r : Z) : bool :=
  (r =? 0x1680)
  || ((0x2000 <=? r) && (r <=? 0x200A))
  || ((0x2028 <=? r) && (r <=? 0x2029))
  || (r =? 0x202F) || (r =? 0x205F) || (r =? 0x3000).

(** [IsSpace(r)]: tab, newline, vertical tab, form feed, carriage return,
    space, U+0085 and U+00A0 in Latin-1, the table above it. *)
Definition IsSpace (r : Z) : bool :=
  if (0 <=? r) && (r <=? MaxLatin1) then
    (r =? 0x09) || (r =? 0x0A) || (r =? 0x0B) || (r =? 0x0C)
    || (r =? 0x0D) || (r =? 0x20) || (r =? 0x85) || (r =? 0xA0)
  else White_Space r.

End unicode.

(** ** Package [strings] *)

Module strings.

(** The table [asciiSpace]. *)
Definition asciiSpace (c : Z) : bool :=
  (c =? 0x09) || (c =? 0x0A) || (c =? 0x0B) || (c =? 0x0C)
  || (c =? 0x0D) || (c =? 0x20).

(** [indexFunc(s, f, truth)]: the byte index of the first rune [r] of
    [s] with [f(r) == truth], or [-1]. *)
Fixpoint indexFunc_from (fuel : nat) (s : string) (i : Z)
         (f : Z -> bool) (truth : bool) : Z :=
  match fuel with
  | O => -1
  | S fuel' =>
    match s with
    | EmptyString => -1
    | String _ _ =>
      let '(r, size) := utf8.DecodeRuneInString s in
      if Bool.eqb (f r) truth then i
      else indexFunc_from fuel' (str_drop (Z.to_nat size) s) (i + size) f truth
    end
  end.

Definition indexFunc (s : string) (f : Z -> bool) (truth : bool) : Z :=
  indexFunc_from (String.length s) s 0 f truth.

(** [lastIndexFunc(s, f, truth)]: the same from the end of [s], with the
    loop [for i := len(s); i > 0; ]. *)
Fixpoint lastIndexFunc_from (fuel : nat) (s : string) (i : Z)
         (f : Z -> bool) (truth : bool) : Z :=
  match fuel with
  | O => -1
  | S fuel' =>
    if 0 <? i then
      let '(r, size) := utf8.DecodeLastRuneInString (str_take (Z.to_nat i) s) in
      let i' := i - size in
      if Bool.eqb (f r) truth then i'
      else lastIndexFunc_from fuel' s i' f truth
    else -1
  end.

Definition lastIndexFunc (s : string) (f : Z -> bool) (truth : bool) : Z :=
  lastIndexFunc_from (String.length s) s (len s) f truth.

Definition TrimLeftFunc (s : string) (f : Z -> bool) : string :=
  let i := indexFunc s f false in
  if i =? -1 then EmptyString else str_drop (Z.to_nat i) s.

Definition TrimRightFunc (s : string) (f : Z -> bool) : string :=
  let i := lastIndexFunc s f false in
  let i :=
    if (0 <=? i) && (utf8.RuneSelf <=? byte_at s (Z.to_nat i)) then
      let '(_, wid) := utf8.DecodeRuneInString (str_drop (Z.to_nat i) s) in
      i + wid
    else i + 1 in
  str_take (Z.to_nat i) s.

Definition TrimFunc (s : string) (f : Z -> bool) : string :=
  TrimRightFunc (TrimLeftFunc s f) f.

(** First loop of [TrimSpace]: [s[start:]] where [start] is the first
    index holding an ASCII byte that is not a space, or any non-ASCII
    byte; the flag tells the second case. *)
Fixpoint trim_start (s : string) : string * bool :=
  match s with
  | EmptyString => (EmptyString, false)
  | String c t =>
    if utf8.RuneSelf <=? byte_val c then (s, true)
    else if asciiSpace (byte_val c) then trim_start t
    else (s, false)
  end.

(** Second loop of [TrimSpace], on [u = s[start:]]: [stop] steps down
    while [u[stop-1]] is an ASCII space. *)
Fixpoint trim_stop (u : string) (stop : nat) : nat * bool :=
  match stop with
  | O => (O, false)
  | S stop' =>
    let c := byte_at u stop' in
    if utf8.RuneSelf <=? c then (stop, true)
    else if asciiSpace c then trim_stop u stop'
    else (stop, false)
  end.

(** [TrimSpace(s)]: [s] without leading and trailing white space, as
    Unicode defines it; the ASCII fast path falls back to [TrimFunc] at
    the first non-ASCII byte. *)
Definition TrimSpace (s : string) : string :=
  let '(u, nonascii) := trim_start s in
  if nonascii then TrimFunc u unicode.IsSpace else
  let '(stop, nonascii') := trim_stop u (String.length u) in
  if nonascii' then TrimRightFunc (str_take stop u) unicode.IsSpace
  else str_take stop u.

Definition HasPrefix (s prefix : string) : bool := String.prefix prefix s.

(** [Index(s, substr)]: the index of the first instance of [substr] in
    [s], or [-1]. *)
Fixpoint Index_from (s substr : string) (i : Z) : Z :=
  if HasPrefix s substr then i else
  match s with
  | EmptyString => -1
  | String _ t => Index_from t substr (i + 1)
  end.

Definition Index (s substr : string) : Z := Index_from s substr 0.

Fixpoint CountByte (s : string) (c : ascii) : Z :=
  match s with
  | EmptyString => 0
  | String c' t => (if Ascii.eqb c' c then 1 else 0) + CountByte t c
  end.

Fixpoint Count_loop (fuel : nat) (s substr : string) (n : Z) : Z :=
  match fuel with
  | O => n
  | S fuel' =>
    let i := Index s substr in
    if i =? -1 then n
    else Count_loop fuel' (str_drop (Z.to_nat (i + len substr)) s) substr (n + 1)
  end.

(** [Count(s, substr)]: the number of non-overlapping instances. *)
Definition Count (s substr : string) : Z :=
  match substr with
  | EmptyString => utf8.RuneCountInString s + 1
  | String c EmptyString => CountByte s c
  | _ => Count_loop (String.length s) s substr 0
  end.

Fixpoint explode_loop (k : nat) (s : string) : list string :=
  match k with
  | O => [s]
  | S k' =>
    let '(_, size) := utf8.DecodeRuneInString s in
    str_take (Z.to_nat size) s :: explode_loop k' (str_drop (Z.to_nat size) s)
  end.

(** [explode(s, n)]: [s] cut into its UTF-8 sequences, at most [n]. *)
Definition explode (s : string) (n : Z) : list string :=
  let l := utf8.RuneCountInString s in
  let n := if (n <? 0) || (l <? n) then l else n in
  if 0 <? n then explode_loop (Z.to_nat (n - 1)) s else [].

(** The loop [for i < n] of [genSplit] and its result [a[:i+1]]. *)
Fixpoint genSplit_loop (n : nat) (s sep : string) (sepSave : Z) : list string :=
  match n with
  | O => [s]
  | S n' =>
    let m := Index s sep in
    if m <? 0 then [s]
    else str_take (Z.to_nat (m + sepSave)) s
           :: genSplit_loop n' (str_drop (Z.to_nat (m + len sep)) s) sep sepSave
  end.

Definition genSplit (s sep : string) (sepSave n : Z) : list string :=
  if n =? 0 then []
  else if String.eqb sep EmptyString then explode s n
  else
    let n := if n <? 0 then Count s sep + 1 else n in
    let n := if len s + 1 <? n then len s + 1 else n in
    genSplit_loop (Z.to_nat (n - 1)) s sep sepSave.

(** [Split(s, sep)]: the substrings of [s] between the instances of
    [sep]. *)
Definition Split (s sep : string) : list string := genSplit s sep 0 (-1).

End strings.

(** ** The type [float64] *)

Definition float64 : Type := spec_float.

Definition prec64 : Z := 53.
Definition emax64 : Z := 1024.

(** The quotient [n / d] of two positive integers rounded to the nearest
    float of the given format, ties to even; an infinity on overflow. *)
Definition round_ratio (prec emax : Z) (neg : bool) (n d : positive) : spec_float :=
  let '(q, e, l) := SFdiv_core_binary prec emax (Zpos n) 0 (Zpos d) 0 in
  binary_round_aux prec emax neg q e l.

(** The value of an untyped numeric constant converted to [float64]. *)
Definition float64_const (n d : positive) : float64 :=
  round_ratio prec64 emax64 false n d.

Definition float64_mul (x y : float64) : float64 := SFmul prec64 emax64 x y.

(** The integer part of a finite float, truncated toward zero. *)
Definition float64_trunc (f : float64) : option Z :=
  match f with
  | S754_zero _ => Some 0
  | S754_finite s m e =>
    let a := Z.shiftl (Zpos m) e in
    Some (if s then - a else a)
  | S754_infinity _ | S754_nan => None
  end.

(** The rational number that a finite float stands for. *)
Definition float64_Q (f : float64) : option Q :=
  match f with
  | S754_zero _ => Some 0%Q
  | S754_finite s m e =>
    let a := if s then Zneg m else Zpos m in
    Some match e with
         | Zneg k => Qmake a (2 ^ k)%positive
         | _ => Qmake (a * 2 ^ e) 1
         end
  | S754_infinity _ | S754_nan => None
  end.

(** The conversion [int(f)] truncates toward zero.  When the truncated
    value does not fit an [int], or [f] is an infinity or a NaN, the Go
    specification leaves the result to the implementation: the target
    architecture decides. *)
Class Target : Type := { int_indefinite : float64 -> Z }.

(** ** Package [math] *)

Module math.

(** [Ceil(x)]: the least integer value greater than or equal to [x];
    [Ceil] of a zero, an infinity or a NaN is the argument itself, and
    [Ceil(x)] is the negative zero for [-1 < x < 0]. *)
Definition Ceil (x : float64) : float64 :=
  match x with
  | S754_finite s m e =>
    if 0 <=? e then x
    else
      let c := if s then - Z.shiftl (Zpos m) e
               else - Z.shiftl (Zneg m) e in
      binary_normalize prec64 emax64 c 0 s
  | _ => x
  end.

End math.

(** ** Package [strconv] *)

Module strconv.

(** The [Err] field of a [*NumError]; [nil] is [None]. *)
Inductive error : Type := ErrSyntax | ErrRange.

Definition ch (c : ascii) : Z := byte_val c.

Definition lower (c : Z) : Z := Z.lor c 0x20.

Definition is_digit (c : Z) : bool := (ch "0" <=? c) && (c <=? ch "9").

(** *** [ParseFloat] *)

Fixpoint commonPrefixLenIgnoreCase (s prefix : string) : Z :=
  match s, prefix with
  | String c t, String p t' =>
    let c := byte_val c in
    let c := if (ch "A" <=? c) && (c <=? ch "Z") then c + (ch "a" - ch "A") else c in
    if c =? byte_val p then 1 + commonPrefixLenIgnoreCase t t' else 0
  | _, _ => 0
  end.

(** [special(s)]: a leading infinity or NaN, with the number of bytes
    it takes. *)
Definition special (s : string) : option (float64 * Z) :=
  match s with
  | EmptyString => None
  | String c0 t =>
    let c := byte_val c0 in
    let inf (sign : bool) (nsign : Z) (s' : string) :=
      let n := commonPrefixLenIgnoreCase s' "infinity" in
      let n := if (3 <? n) && (n <? 8) then 3 else n in
      if (n =? 3) || (n =? 8) then Some (S754_infinity sign, nsign + n) else None in
    if c =? ch "+" then inf false 1 t
    else if c =? ch "-" then inf true 1 t
    else if (c =? ch "i") || (c =? ch "I") then inf false 0 s
    else if (c =? ch "n") || (c =? ch "N") then
      if commonPrefixLenIgnoreCase s "nan" =? 3 then Some (S754_nan, 3) else None
    else None
  end.

(** The state of the mantissa loop of [readFloat].  [mantissa] holds
    every digit read, [nd] counts them from the first non-zero one, and
    [dp] is the position of the point. *)
Record digits : Type := {
  mantissa : Z;
  nd : Z;
  dp : Z;
  sawdot : bool;
  sawdigits : bool;
  underscores : bool
}.

Fixpoint read_mantissa (base : Z) (s : string) (st : digits) : digits * string :=
  match s with
  | EmptyString => (st, s)
  | String c0 t =>
    let c := byte_val c0 in
    if c =? ch "_" then
      read_mantissa base t
        {| mantissa := mantissa st; nd := nd st; dp := dp st; sawdot := sawdot st;
           sawdigits := sawdigits st; underscores := true |}
    else if c =? ch "." then
      if sawdot st then (st, s)
      else read_mantissa base t
        {| mantissa := mantissa st; nd := nd st; dp := nd st; sawdot := true;
           sawdigits := sawdigits st; underscores := underscores st |}
    else if is_digit c then
      if (c =? ch "0") && (nd st =? 0) then
        read_mantissa base t
          {| mantissa := mantissa st; nd := nd st; dp := dp st - 1; sawdot := sawdot st;
             sawdigits := true; underscores := underscores st |}
      else
        read_mantissa base t
          {| mantissa := mantissa st * base + (c - ch "0"); nd := nd st + 1;
             dp := dp st; sawdot := sawdot st;
             sawdigits := true; underscores := underscores st |}
    else if (base =? 16) && (ch "a" <=? lower c) && (lower c <=? ch "f") then
      read_mantissa base t
        {| mantissa := mantissa st * 16 + (lower c - ch "a" + 10); nd := nd st + 1;
           dp := dp st; sawdot := sawdot st;
           sawdigits := true; underscores := underscores st |}
    else (st, s)
  end.

(** The digits of the exponent; the value stops growing at 10000. *)
Fixpoint read_exponent (s : string) (e : Z) (us : bool) : Z * bool * string :=
  match s with
  | EmptyString => (e, us, s)
  | String c0 t =>
    let c := byte_val c0 in
    if c =? ch "_" then read_exponent t e true
    else if is_digit c then
      read_exponent t (if e <? 10000 then e * 10 + (c - ch "0") else e) us
    else (e, us, s)
  end.

(** [underscoreOK(s)]: underscores appear only between digits, or
    between a base prefix and a digit. *)
Fixpoint underscoreOK_loop (hex : bool) (s : string) (saw : Z) : bool :=
  match s with
  | EmptyString => negb (saw =? ch "_")
  | String c0 t =>
    let c := byte_val c0 in
    if is_digit c || (hex && (ch "a" <=? lower c) && (lower c <=? ch "f")) then
      underscoreOK_loop hex t (ch "0")
    else if c =? ch "_" then
      if negb (saw =? ch "0") then false
      else underscoreOK_loop hex t (ch "_")
    else if saw =? ch "_" then false
    else underscoreOK_loop hex t (ch "!")
  end.

Definition underscoreOK (s : string) : bool :=
  let s :=
    match s with
    | String c t => if (byte_val c =? ch "-") || (byte_val c =? ch "+") then t else s
    | EmptyString => s
    end in
  match s with
  | String c0 (String c1 t) =>
    let l := lower (byte_val c1) in
    if (byte_val c0 =? ch "0") && ((l =? ch "b") || (l =? ch "o") || (l =? ch "x"))
    then underscoreOK_loop (l =? ch "x") t (ch "0")
    else underscoreOK_loop false s (ch "^")
  | _ => underscoreOK_loop false s (ch "^")
  end.

(** What [readFloat] finds in a well-formed number: its sign, the
    integer [mant] that its digits spell, the base of the exponent (10, or
    2 for a hexadecimal mantissa) and the exponent of [mant], and the
    rest of the string. *)
Record number : Type := {
  neg : bool;
  mant : Z;
  ebase : Z;
  exp : Z;
  rest : string
}.

Definition readFloat (s : string) : option number :=
  match s with
  | EmptyString => None
  | String c0 t0 =>
    (* optional sign *)
    let '(neg, s1) :=
      if byte_val c0 =? ch "+" then (false, t0)
      else if byte_val c0 =? ch "-" then (true, t0)
      else (false, s) in
    (* base prefix: at least one byte must follow it *)
    let '(base, s2) :=
      match s1 with
      | String d0 (String d1 (String d2 t2)) =>
        if (byte_val d0 =? ch "0") && (lower (byte_val d1) =? ch "x")
        then (16, String d2 t2) else (10, s1)
      | _ => (10, s1)
      end in
    let expChar := if base =? 16 then ch "p" else ch "e" in
    let '(st, s3) :=
      read_mantissa base s2
        {| mantissa := 0; nd := 0; dp := 0; sawdot := false;
           sawdigits := false; underscores := false |} in
    if negb (sawdigits st) then None else
    let dp0 := if sawdot st then dp st else nd st in
    let '(dp1, nd1) := if base =? 16 then (dp0 * 4, nd st * 4) else (dp0, nd st) in
    let finish (dp2 : Z) (us : bool) (s' : string) :=
      let consumed := str_take (String.length s - String.length s') s in
      if us && negb (underscoreOK consumed) then None
      else Some {| neg := neg; mant := mantissa st;
                   ebase := if base =? 16 then 2 else 10;
                   exp := if mantissa st =? 0 then 0 else dp2 - nd1;
                   rest := s' |} in
    match s3 with
    | String e0 t3 =>
      if lower (byte_val e0) =? expChar then
        match t3 with
        | EmptyString => None
        | String g0 t4 =>
          let '(esign, s4) :=
            if byte_val g0 =? ch "+" then (1, t4)
            else if byte_val g0 =? ch "-" then (-1, t4)
            else (1, t3) in
          match s4 with
          | EmptyString => None
          | String h0 _ =>
            if negb (is_digit (byte_val h0)) then None else
            let '(e, us, s5) := read_exponent s4 0 (underscores st) in
            finish (dp1 + e * esign) us s5
          end
        end
      else if base =? 16 then None
      else finish dp1 (underscores st) s3
    | EmptyString =>
      if base =? 16 then None else finish dp1 (underscores st) s3
    end
  end.

(** The float nearest to [mant * ebase ^ exp], by the rule of IEEE 754
    (ties to even), and whether it overflowed to an infinity. *)
Definition float_of_number (prec emax : Z) (x : number) : spec_float :=
  match mant x with
  | Zpos m =>
    if ebase x =? 2 then binary_normalize prec emax (if neg x then Zneg m else Zpos m) (exp x) (neg x)
    else if 0 <=? exp x then
      round_ratio prec emax (neg x) (m * Z.to_pos (10 ^ exp x)) 1
    else
      round_ratio prec emax (neg x) m (Z.to_pos (10 ^ (- exp x)))
  | _ => S754_zero (neg x)
  end.

Definition is_infinity (f : spec_float) : bool :=
  match f with S754_infinity _ => true | _ => false end.

(** [atof64(s)] and [atof32(s)]: the float, the number of bytes of [s]
    it was read from, and the error. *)
Definition atof (prec emax : Z) (s : string) : spec_float * Z * option error :=
  match special s with
  | Some (val, n) => (val, n, None)
  | None =>
    match readFloat s with
    | None => (S754_zero false, 0, Some ErrSyntax)
    | Some x =>
      let n := len s - len (rest x) in
      let f := float_of_number prec emax x in
      (f, n, if is_infinity f then Some ErrRange else None)
    end
  end.

(** A [float32] result converted to [float64]. *)
Definition float64_of_float32 (f : spec_float) : float64 :=
  match f with
  | S754_finite s m e => binary_normalize prec64 emax64 (if s then Zneg m else Zpos m) e s
  | _ => f
  end.

Definition parseFloatPrefix (s : string) (bitSize : Z) : float64 * Z * option error :=
  if bitSize =? 32 then
    let '(f, n, err) := atof 24 128 s in (float64_of_float32 f, n, err)
  else atof prec64 emax64 s.

Definition error_eqb (e1 e2 : error) : bool :=
  match e1, e2 with
  | ErrSyntax, ErrSyntax | ErrRange, ErrRange => true
  | _, _ => false
  end.

(** [ParseFloat(s, bitSize)]: the whole of [s] must be a number. *)
Definition ParseFloat (s : string) (bitSize : Z) : float64 * option error :=
  let '(f, n, err) := parseFloatPrefix s bitSize in
  if negb (n =? len s)
     && match err with None => true | Some e => negb (error_eqb e ErrSyntax) end
  then (S754_zero false, Some ErrSyntax)
  else (f, err).

(** *** [Atoi] *)

(** The loop of the fast path of [Atoi]: [ch -= '0'] is a byte
    subtraction, so a byte below ['0'] wraps above 9. *)
Fixpoint atoi_fast (s : string) (n : Z) : option Z :=
  match s with
  | EmptyString => Some n
  | String c t =>
    let d := (byte_val c - ch "0") mod 256 in
    if 9 <? d then None else atoi_fast t (n * 10 + d)
  end.

Definition maxUint64 : Z := 2 ^ 64 - 1.

(** The loop of [ParseUint(s, 10, 64)]: it stops at the first byte that
    is not a digit, or at the first digit that takes the value past
    [maxUint64]. *)
Fixpoint parseUint_loop (s : string) (n : Z) : Z * option error :=
  match s with
  | EmptyString => (n, None)
  | String c0 t =>
    let c := byte_val c0 in
    if is_digit c then
      if maxUint64 / 10 + 1 <=? n then (maxUint64, Some ErrRange) else
      let n1 := n * 10 + (c - ch "0") in
      if maxUint64 <? n1 then (maxUint64, Some ErrRange)
      else parseUint_loop t n1
    else (0, Some ErrSyntax)
  end.

Definition ParseUint10 (s : string) : Z * option error :=
  match s with
  | EmptyString => (0, Some ErrSyntax)
  | _ => parseUint_loop s 0
  end.

(** [ParseInt(s, 10, 0)], the slow path of [Atoi]. *)
Definition ParseInt10 (s : string) : Z * option error :=
  match s with
  | EmptyString => (0, Some ErrSyntax)
  | String c0 t =>
    let '(neg, s') :=
      if byte_val c0 =? ch "+" then (false, t)
      else if byte_val c0 =? ch "-" then (true, t)
      else (false, s) in
    let '(un, err) := ParseUint10 s' in
    match err with
    | Some ErrSyntax => (0, err)
    | _ =>
      let cutoff := 2 ^ 63 in
      if negb neg && (cutoff <=? un) then (cutoff - 1, Some ErrRange)
      else if neg && (cutoff <? un) then (- cutoff, Some ErrRange)
      else (if neg then - un else un, None)
    end
  end.

(** [Atoi(s)]: an optional sign and decimal digits. *)
Definition Atoi (s : string) : Z * option error :=
  let sLen := len s in
  if (0 <? sLen) && (sLen <? 19) then
    match s with
    | EmptyString => (0, Some ErrSyntax)
    | String c0 t =>
      let signed := (byte_val c0 =? ch "-") || (byte_val c0 =? ch "+") in
      let s' := if signed then t else s in
      if signed && (len s' <? 1) then (0, Some ErrSyntax) else
      match atoi_fast s' 0 with
      | None => (0, Some ErrSyntax)
      | Some n => (if byte_val c0 =? ch "-" then - n else n, None)
      end
    end
  else ParseInt10 s.

End strconv.

(** ** The receipt processor *)

(** The structs [Item] (main.go:22-25) and [Receipt] (main.go:14-20). *)
Record Item : Type := {
  ShortDescription : string;
  Price : string
}.

Record Receipt : Type := {
  Retailer : string;
  PurchaseDate : string;
  PurchaseTime : string;
  Items : list Item;
  Total : string
}.

(** The store (main.go:27-36).  Each method runs with the mutex [mu] held
    from its first statement to its return or panic, the deferred [Unlock]
    releasing it in both cases, so calls never overlap: the model takes
    them one at a time and keeps the map only. *)
Record ReceiptStore : Type := {
  receipts : gmap string Z
}.

Definition NewReceiptStore : ReceiptStore := {| receipts := ∅ |}.

Definition is_nil (err : option strconv.error) : bool :=
  match err with None => true | Some _ => false end.

Section Points.

Context {target : Target}.

(** The conversion [int(f)]. *)
Definition int_of_float64 (f : float64) : Z :=
  match float64_trunc f with
  | Some z =>
    if (MinInt <=? z) && (z <=? MaxInt) then z
    else int_wrap (int_indefinite f)
  | None => int_wrap (int_indefinite f)
  end.

Definition is_alnum (char : Z) : bool :=
  ((byte_val "a" <=? char) && (char <=? byte_val "z"))
  || ((byte_val "A" <=? char) && (char <=? byte_val "Z"))
  || ((byte_val "0" <=? char) && (char <=? byte_val "9")).

(** Rule 1 (main.go:65-70): one point for every alphanumeric character in
    the retailer name. *)
Definition rule1 (receipt : Receipt) (points : Z) : Z :=
  utf8.range (Retailer receipt)
    (fun _ char points => if is_alnum char then int_add points 1 else points)
    points.

(** Rule 2 (main.go:72-75): 50 points if the total is a round dollar
    amount with no cents.  The slice has no length check before it. *)
Definition rule2 (receipt : Receipt) (points : Z) : result Z :=
  suffix ← slice_from (Total receipt) (len (Total receipt) - 3);
  Ok (if String.eqb suffix ".00" then int_add points 50 else points).

(** Rule 3 (main.go:77-80): 25 points if the total is a multiple of
    0.25. *)
Definition rule3 (receipt : Receipt) (points : Z) : Z :=
  let '(totalFloat, err) := strconv.ParseFloat (Total receipt) 64 in
  if is_nil err
     && (int_rem (int_of_float64 (float64_mul totalFloat (float64_const 100 1))) 25 =? 0)
  then int_add points 25
  else points.

(** Rule 4 (main.go:82-83): 5 points for every two items on the
    receipt. *)
Definition rule4 (receipt : Receipt) (points : Z) : Z :=
  int_add points (int_mul (int_div (Z.of_nat (length (Items receipt))) 2) 5).

(** Rule 5 (main.go:85-93), the body of the loop: if the trimmed length
    of the item description is a multiple of 3, multiply the price by 0.2
    and round up. *)
Definition rule5_item (item : Item) (points : Z) : Z :=
  let trimmedLength := len (strings.TrimSpace (ShortDescription item)) in
  if int_rem trimmedLength 3 =? 0 then
    let '(price, err) := strconv.ParseFloat (Price item) 64 in
    if is_nil err
    then int_add points (int_of_float64 (math.Ceil (float64_mul price (float64_const 1 5))))
    else points
  else points.

Definition rule5 (receipt : Receipt) (points : Z) : Z :=
  fold_left (fun points item => rule5_item item points) (Items receipt) points.

(** Rule 6 (main.go:95-100): 6 points if the purchase date is odd.  The
    index [dateParts[2]] is read under the test [len(dateParts) == 3]. *)
Definition rule6 (receipt : Receipt) (points : Z) : result Z :=
  let dateParts := strings.Split (PurchaseDate receipt) "-" in
  if Z.of_nat (length dateParts) =? 3 then
    part ← index_at dateParts 2;
    let '(day, err) := strconv.Atoi part in
    Ok (if is_nil err && (int_rem day 2 =? 1) then int_add points 6 else points)
  else Ok points.

(** Rule 7 (main.go:102-107): 10 points if the purchase time is between
    2:00 PM and 4:00 PM. *)
Definition rule7 (receipt : Receipt) (points : Z) : result Z :=
  let timeParts := strings.Split (PurchaseTime receipt) ":" in
  if Z.of_nat (length timeParts) =? 2 then
    part ← index_at timeParts 0;
    let '(hour, err) := strconv.Atoi part in
    Ok (if is_nil err && (14 <=? hour) && (hour <? 16) then int_add points 10 else points)
  else Ok points.

(** [calculatePoints] (main.go:62-110): the seven rules in sequence on
    the accumulator [points]. *)
Definition calculatePoints (receipt : Receipt) : result Z :=
  let points := 0 in
  let points := rule1 receipt points in
  points ← rule2 receipt points;
  let points := rule3 receipt points in
  let points := rule4 receipt points in
  let points := rule5 receipt points in
  points ← rule6 receipt points;
  points ← rule7 receipt points;
  Ok points.

(** [AddReceipt] (main.go:38-52).  [uuid.New().String()] reads the random
    source of the system; [id] is the identifier it returns at this call.
    The result is the returned identifier and the store after the call; a
    panic of [calculatePoints] leaves the method before the map is
    written. *)
Definition AddReceipt (s : ReceiptStore) (id : string) (receipt : Receipt)
  : result (string * ReceiptStore) :=
  points ← calculatePoints receipt;
  Ok (id, {| receipts := <[id := points]> (receipts s) |}).

(** [GetPoints] (main.go:54-60): the two results of the map read, and the
    store after the call. *)
Definition GetPoints (s : ReceiptStore) (id : string) : (Z * bool) * ReceiptStore :=
  match receipts s !! id with
  | Some points => ((points, true), s)
  | None => ((0, false), s)
  end.

End Points.

(** The conversion on amd64: [CVTTSD2SQ] yields the "integer indefinite"
    value, the least [int], for every operand out of range. *)
Definition amd64 : Target := {| int_indefinite := fun _ => MinInt |}.

(** The conversion on arm64: [FCVTZS] saturates, and maps a NaN to zero. *)
Definition arm64 : Target :=
  {| int_indefinite := fun f =>
       match f with
       | S754_nan => 0
       | S754_infinity true | S754_finite true _ _ => MinInt
       | _ => MaxInt
       end |}.

(** ** Sequences of calls and the receipts of the examples *)

Section Calls.

Context {target : Target}.

(** Two calls of [AddReceipt] in sequence, the second on the store the
    first one leaves: the two identifiers and the final store. *)
Definition AddReceipt_twice (s : ReceiptStore) (id1 id2 : string) (receipt : Receipt)
  : result (string * string * ReceiptStore) :=
  '(r1, s1) ← AddReceipt s id1 receipt;
  '(r2, s2) ← AddReceipt s1 id2 receipt;
  Ok (r1, r2, s2).

(** [n] calls of [GetPoints] in sequence with the same identifier: the
    results in order and the final store. *)
Fixpoint GetPoints_repeat (n : nat) (s : ReceiptStore) (id : string)
  : list (Z * bool) * ReceiptStore :=
  match n with
  | O => ([], s)
  | S n' =>
    let '(r, s1) := GetPoints s id in
    let '(rs, s2) := GetPoints_repeat n' s1 id in
    (r :: rs, s2)
  end.

(** The exact sum of what Rule 5 adds for each item of a list. *)
Definition rule5_sum (items : list Item) : Z :=
  fold_right (fun item acc => rule5_item item 0 + acc) 0 items.

End Calls.

Definition in_range (z : Z) : Prop := MinInt <= z <= MaxInt.

Definition receipt_of (retailer date time total : string) (items : list Item) : Receipt :=
  {| Retailer := retailer; PurchaseDate := date; PurchaseTime := time;
     Items := items; Total := total |}.

(** The receipt of the documented example. *)
Definition target_receipt : Receipt :=
  {| Retailer := "Target";
     PurchaseDate := "2022-01-01";
     PurchaseTime := "13:01";
     Items :=
       [ {| ShortDescription := "Mountain Dew 12PK"; Price := "6.49" |};
         {| ShortDescription := "Emils Cheese Pizza"; Price := "12.25" |};
         {| ShortDescription := "Knorr Creamy Chicken"; Price := "1.26" |};
         {| ShortDescription := "Doritos Nacho Cheese"; Price := "3.35" |};
         {| ShortDescription := "Klarbrunn 12-PK 12 FL OZ"; Price := "12.00" |} ];
     Total := "35.35" |}.

(** A receipt whose total has no cents part and a single digit. *)
Definition short_total_receipt : Receipt :=
  {| Retailer := "Target";
     PurchaseDate := "2022-01-01";
     PurchaseTime := "13:01";
     Items := [ {| ShortDescription := "Gum"; Price := "5" |} ];
     Total := "5" |}.

(** A receipt with a refund line: the price of its item is negative. *)
Definition refund_receipt : Receipt :=
  {| Retailer := "Target";
     PurchaseDate := "2022-01-02";
     PurchaseTime := "13:01";
     Items := [ {| ShortDescription := "Refund"; Price := "-250.00" |} ];
     Total := "-249.99" |}.

(** An item whose description is the euro sign alone, U+20AC, three bytes
    in UTF-8. *)
Definition euro_item : Item :=
  {| ShortDescription := String "226" (String "130" (String "172" EmptyString));
     Price := "5.00" |}.

(** The second item of the documented example. *)
Definition pizza_item : Item :=
  {| ShortDescription := "Emils Cheese Pizza"; Price := "12.25" |}.

(** A receipt whose total is a multiple of 0.25. *)
Definition quarter_receipt : Receipt :=
  {| Retailer := "Target";
     PurchaseDate := "2022-01-01";
     PurchaseTime := "13:01";
     Items := [];
     Total := "35.25" |}.

(** An item whose description is blank. *)
Definition blank_item : Item :=
  {| ShortDescription := "   "; Price := "5.00" |}.

(** A store that holds a score of zero. *)
Definition zero_store : ReceiptStore :=
  {| receipts := {[ "7fb1377b-b223-49d9-a31a-5a02701dd310"%string := 0 ]} |}.

(** ** Notions used to state the properties *)

(** The number of bytes of a string that are ASCII letters or digits. *)
Fixpoint count_alnum (s : string) : Z :=
  match s with
  | EmptyString => 0
  | String c t => (if is_alnum (byte_val c) then 1 else 0) + count_alnum t
  end.

(** Whether every byte of a string is an ASCII digit. *)
Fixpoint all_digits (s : string) : bool :=
  match s with
  | EmptyString => true
  | String c t => strconv.is_digit (byte_val c) && all_digits t
  end.

(** ** What each rule adds *)

(** The points that a rule returns, and none when it panics. *)
Definition amount (r : result Z) : Z :=
  match r with
  | Ok points => points
  | Panic _ => 0
  end.

(** The integer part of a rational number, toward zero. *)
Definition Qtruncate (v : Q) : Z := Z.quot (Qnum v) (Zpos (Qden v)).

Section Amounts.

Context {target : Target}.

(** What each of the seven rules adds to the score of a receipt: for
    Rules 2, 3, 6 and 7 what the rule makes of an accumulator that holds
    zero, for Rule 1 the number of alphanumeric bytes, for Rule 4 five
    times the number of pairs of items, for Rule 5 the sum over the
    items. *)
Definition rule1_amount (receipt : Receipt) : Z := count_alnum (Retailer receipt).
Definition rule2_amount (receipt : Receipt) : Z := amount (rule2 receipt 0).
Definition rule3_amount (receipt : Receipt) : Z := rule3 receipt 0.
Definition rule4_amount (receipt : Receipt) : Z :=
  5 * (Z.of_nat (length (Items receipt)) / 2).
Definition rule5_amount (receipt : Receipt) : Z := rule5_sum (Items receipt).
Definition rule6_amount (receipt : Receipt) : Z := amount (rule6 receipt 0).
Definition rule7_amount (receipt : Receipt) : Z := amount (rule7 receipt 0).

(** The sum of what the seven rules add, before it is stored in an
    [int]. *)
Definition rules_sum (receipt : Receipt) : Z :=
  rule1_amount receipt + rule2_amount receipt + rule3_amount receipt
  + rule4_amount receipt + rule5_amount receipt
  + rule6_amount receipt + rule7_amount receipt.

End Amounts.

(** Whether the integer part of [f] is an [int]: the conversion [int(f)]
    is then the same on every target. *)
Definition fits_int (f : float64) : bool :=
  match float64_trunc f with
  | Some z => (MinInt <=? z) && (z <=? MaxInt)
  | None => false
  end.

(** An item whose price is beyond every [int]. *)
Definition huge_item : Item :=
  {| ShortDescription := "Gum"; Price := "1e30" |}.

(** ** The HTTP handlers (main.go:112-137) *)

(** The values of the objects that the handlers write with [c.JSON]. *)
Inductive json : Type :=
| JString (s : string)
| JNumber (n : Z).

(** [gin.H], a JSON object, as the list of its members. *)
Definition gin_H : Type := list (string * json).

(** What a request is answered with: the status code and the object of
    the body, if one was written. *)
Record response : Type := {
  code : Z;
  obj : option gin_H
}.

Definition StatusOK : Z := 200.
Definition StatusBadRequest : Z := 400.
Definition StatusNotFound : Z := 404.
Definition StatusInternalServerError : Z := 500.

Definition JSON (code : Z) (obj : gin_H) : response :=
  {| code := code; obj := Some obj |}.

(** The requests of the two routes.  [bound] is the outcome of
    [c.ShouldBindJSON(&receipt)]: the receipt decoded from the body, or
    [None] when it returns an error; [id] in [POST_process] is the
    identifier that [uuid.New().String()] generates if [AddReceipt] is
    called, and in [GET_points] the path parameter [:id]. *)
Inductive request : Type :=
| POST_process (bound : option Receipt) (id : string)
| GET_points (id : string).

Section Handlers.

Context {target : Target}.

(** The handler of [POST /receipts/process] (main.go:116-125). *)
Definition process_handler (receiptStore : ReceiptStore) (bound : option Receipt)
           (id : string) : result (response * ReceiptStore) :=
  match bound with
  | None =>
    Ok (JSON StatusBadRequest [("error"%string, JString "Invalid JSON")], receiptStore)
  | Some receipt =>
    '(id, receiptStore) ← AddReceipt receiptStore id receipt;
    Ok (JSON StatusOK [("id"%string, JString id)], receiptStore)
  end.

(** The handler of [GET /receipts/:id/points] (main.go:127-134). *)
Definition points_handler (receiptStore : ReceiptStore) (id : string)
  : response * ReceiptStore :=
  let '((points, exists_), receiptStore) := GetPoints receiptStore id in
  if exists_
  then (JSON StatusOK [("points"%string, JNumber points)], receiptStore)
  else (JSON StatusNotFound [("error"%string, JString "Receipt not found")], receiptStore).

(** The [Recovery] middleware that [gin.Default()] installs (main.go:114):
    a panic of the handler is answered with status 500 and no body.
    [AddReceipt] panics before it writes the map, so the store is the one
    the request found. *)
Definition Recovery (receiptStore : ReceiptStore) (r : result (response * ReceiptStore))
  : response * ReceiptStore :=
  match r with
  | Ok answer => answer
  | Panic _ => ({| code := StatusInternalServerError; obj := None |}, receiptStore)
  end.

(** One request through the router. *)
Definition serve (receiptStore : ReceiptStore) (req : request) : response * ReceiptStore :=
  match req with
  | POST_process bound id => Recovery receiptStore (process_handler receiptStore bound id)
  | GET_points id => Recovery receiptStore (Ok (points_handler receiptStore id))
  end.

(** The requests of a run of the server, in the order in which they take
    the mutex of the store: the responses in that order and the final
    store. *)
Fixpoint run (receiptStore : ReceiptStore) (reqs : list request)
  : list response * ReceiptStore :=
  match reqs with
  | [] => ([], receiptStore)
  | req :: reqs' =>
    let '(resp, receiptStore) := serve receiptStore req in
    let '(resps, receiptStore) := run receiptStore reqs' in
    (resp :: resps, receiptStore)
  end.

End Handlers.

(** [main] (main.go:112-137) on a list of requests: the store starts
    empty. *)
Definition main {target : Target} (reqs : list request) : list response * ReceiptStore :=
  run NewReceiptStore reqs.

Definition is_POST (req : request) : bool :=
  match req with POST_process _ _ => true | GET_points _ => false end.

(** The identifier that a request makes [uuid.New()] generate, if any. *)
Definition generated (req : request) : option string :=
  match req with
  | POST_process (Some _) id => Some id
  | _ => None
  end.

(** ** More receipts and requests for the examples *)

(** A retailer name with a letter of two bytes: "Café 24", the e with an
    acute accent being U+00E9. *)
Definition cafe_receipt : Receipt :=
  receipt_of (String "C" (String "a" (String "f" (String "195" (String "169" " 24")))))
             "2022-01-01" "13:01" "35.35" [].

(** The documented receipt with its items in the reverse order. *)
Definition reversed_receipt : Receipt :=
  receipt_of "Target" "2022-01-01" "13:01" "35.35" (rev (Items target_receipt)).

(** A receipt of 14:33. *)
Definition afternoon_receipt : Receipt :=
  receipt_of "Target" "2022-01-01" "14:33" "35.35" [].

(** A receipt whose score is 45 below the largest [int]. *)
Definition large_receipt : Receipt :=
  receipt_of "" "" "" "1.10"
    [ {| ShortDescription := "Gum"; Price := "46116860184273866820" |};
      {| ShortDescription := "Tea"; Price := "4865.00" |} ].

(** A receipt with a price beyond every [int], on an item that Rule 5
    passes over: its description has four bytes. *)
Definition passed_over_receipt : Receipt :=
  receipt_of "Target" "2022-01-01" "13:01" "35.35"
    [ {| ShortDescription := "Gum!"; Price := "1e30" |} ].

(** A receipt of 1250 dollars and no cents. *)
Definition round_dollar_receipt : Receipt :=
  receipt_of "Target" "2022-01-01" "13:01" "1250.00" [].

(** The store [zero_store] after the documented receipt was stored under
    the identifier that it held already. *)
Definition rescored_store : ReceiptStore :=
  {| receipts := <[ "7fb1377b-b223-49d9-a31a-5a02701dd310"%string := 28 ]>
                   (receipts zero_store) |}.

(** Requests that follow a first one. *)
Definition later_requests : list request :=
  [ GET_points "id-2"; POST_process (Some quarter_receipt) "id-2";
    POST_process None "id-3"; GET_points "id-2" ].

(** The requests of a session. *)
Definition session : list request :=
  [ POST_process (Some target_receipt) "id-1"; GET_points "id-1";
    POST_process None "id-2"; POST_process (Some short_total_receipt) "id-3";
    GET_points "id-3" ].

(** * Properties *)

(** ** Arithmetic on [int] *)

Lemma int_wrap_in_range (z : Z) : in_range (int_wrap z).
Proof.
  unfold in_range, int_wrap, MinInt, MaxInt.
  pose proof (Z.mod_pos_bound (z + 2 ^ 63) (2 ^ 64)). lia.
Qed.

Lemma int_wrap_id (z : Z) : in_range z -> int_wrap z = z.
Proof.
  unfold in_range, int_wrap, MinInt, MaxInt. intros Hz.
  rewrite Z.mod_small; lia.
Qed.

Lemma int_wrap_add_l (a b : Z) : int_wrap (int_wrap a + b) = int_wrap (a + b).
Proof.
  unfold int_wrap.
  replace ((a + 2 ^ 63) mod 2 ^ 64 - 2 ^ 63 + b + 2 ^ 63)
    with ((a + 2 ^ 63) mod 2 ^ 64 + b) by lia.
  rewrite Zplus_mod_idemp_l. f_equal. f_equal. lia.
Qed.

Lemma int_wrap_add_r (a b : Z) : int_wrap (a + int_wrap b) = int_wrap (a + b).
Proof. rewrite (Z.add_comm a), int_wrap_add_l. f_equal. lia. Qed.

(** [points += c] on an accumulator that holds the wrapped sum [a]. *)
Lemma int_add_acc (p a c : Z) : p = int_wrap a -> int_add p c = int_wrap (a + c).
Proof. intros ->. apply int_wrap_add_l. Qed.

Lemma int_wrap_idem (a : Z) : int_wrap (int_wrap a) = int_wrap a.
Proof. apply int_wrap_id, int_wrap_in_range. Qed.

(** ** Strings: prefixes, suffixes and concatenation *)

Lemma str_drop_length (n : nat) (s : string) :
  String.length (str_drop n s) = (String.length s - n)%nat.
Proof.
  revert s. induction n as [|n IH]; intros [|c t]; simpl; try lia. apply IH.
Qed.

Lemma str_take_length (n : nat) (s : string) :
  String.length (str_take n s) = Nat.min n (String.length s).
Proof.
  revert s. induction n as [|n IH]; intros [|c t]; simpl; try lia.
  rewrite IH. lia.
Qed.

Lemma str_take_drop (n : nat) (s : string) : str_take n s +:+ str_drop n s = s.
Proof.
  revert s. induction n as [|n IH]; intros [|c t]; try reflexivity.
  change (String c (str_take n t +:+ str_drop n t) = String c t).
  f_equal. apply IH.
Qed.

Lemma str_drop_app (n : nat) (pre a : string) :
  (n <= String.length pre)%nat ->
  str_drop n (pre +:+ a) = str_drop n pre +:+ a.
Proof.
  revert pre. induction n as [|n IH]; intros pre Hn; [reflexivity|].
  destruct pre as [|c t]; [simpl in Hn; lia|].
  change (String c t +:+ a) with (String c (t +:+ a)).
  cbn [str_drop]. apply IH. simpl in Hn. lia.
Qed.

Lemma str_take_app (n : nat) (pre a : string) :
  (n <= String.length pre)%nat ->
  str_take n (pre +:+ a) = str_take n pre.
Proof.
  revert pre. induction n as [|n IH]; intros pre Hn; [reflexivity|].
  destruct pre as [|c t]; [simpl in Hn; lia|].
  change (String c t +:+ a) with (String c (t +:+ a)).
  cbn [str_take]. f_equal. apply IH. simpl in Hn. lia.
Qed.

Lemma byte_at_app (pre : string) (c : ascii) (a : string) :
  byte_at (pre +:+ String c a) (String.length pre) = byte_val c.
Proof.
  unfold byte_at. induction pre as [|c0 t IH]; [reflexivity|].
  change (String c0 t +:+ String c a) with (String c0 (t +:+ String c a)).
  cbn [String.length String.get]. exact IH.
Qed.

Lemma str_drop_all_app (pre a : string) : str_drop (String.length pre) (pre +:+ a) = a.
Proof. induction pre as [|c t IH]; [reflexivity|]. exact IH. Qed.

Lemma append_length (s1 s2 : string) :
  String.length (s1 +:+ s2) = (String.length s1 + String.length s2)%nat.
Proof.
  induction s1 as [|c t IH]; [reflexivity|].
  change (String c t +:+ s2) with (String c (t +:+ s2)). simpl. now rewrite IH.
Qed.

Lemma append_assoc (s1 s2 s3 : string) : (s1 +:+ s2) +:+ s3 = s1 +:+ (s2 +:+ s3).
Proof.
  induction s1 as [|c t IH]; [reflexivity|].
  change (String c ((t +:+ s2) +:+ s3) = String c (t +:+ (s2 +:+ s3))).
  now rewrite IH.
Qed.

Lemma fold_append_app (cs ds : list string) :
  fold_right String.append EmptyString (cs ++ ds)
  = fold_right String.append EmptyString cs +:+ fold_right String.append EmptyString ds.
Proof.
  induction cs as [|c cs IH]; [reflexivity|].
  cbn [fold_right app]. rewrite IH. symmetry. apply append_assoc.
Qed.

(** ** UTF-8 decoding *)

Lemma first_lead_lo (b sz lo hi : Z) :
  utf8.first b = utf8.lead sz lo hi -> utf8.RuneSelf <= lo /\ 2 <= sz <= 4.
Proof.
  unfold utf8.first.
  repeat match goal with
         | |- context [if ?c then _ else _] => destruct c
         end; intros [= <- <- <-] || discriminate; unfold utf8.RuneSelf, utf8.locb; lia.
Qed.

Lemma DecodeRuneInString_size (s : string) :
  s <> EmptyString ->
  1 <= snd (utf8.DecodeRuneInString s) <= 4.
Proof.
  destruct s as [|c0 t]; [congruence|]. intros _.
  unfold utf8.DecodeRuneInString.
  destruct (utf8.first (byte_val c0)) as [| |sz lo hi] eqn:Hfirst; simpl; try lia.
  repeat match goal with
         | |- context [if ?b then _ else _] => destruct b
         end; simpl; lia.
Qed.

(** Past its first byte, a rune holds no ASCII byte. *)
Lemma DecodeRuneInString_continuation (s : string) (r size i : Z) :
  utf8.DecodeRuneInString s = (r, size) ->
  1 <= i < size ->
  utf8.RuneSelf <= byte_at s (Z.to_nat i).
Proof.
  destruct s as [|c0 t]; [intros [= <- <-]; lia|].
  unfold utf8.DecodeRuneInString.
  destruct (utf8.first (byte_val c0)) as [| |sz lo hi] eqn:Hfirst;
    try (intros [= <- <-]; lia).
  apply first_lead_lo in Hfirst as [Hlo Hsz].
  destruct (len (String c0 t) <? sz); [intros [= <- <-]; lia|].
  destruct (orb _ _) eqn:H1; [intros [= <- <-]; lia|].
  apply orb_false_elim in H1 as [H1 _]. apply Z.ltb_ge in H1.
  destruct (sz <=? 2).
  { intros [= <- <-] Hi. replace i with 1 by lia.
    change (Z.to_nat 1) with 1%nat. lia. }
  destruct (orb _ _) eqn:H2; [intros [= <- <-]; lia|].
  apply orb_false_elim in H2 as [H2 _]. apply Z.ltb_ge in H2.
  destruct (sz <=? 3).
  { intros [= <- <-] Hi. unfold utf8.locb, utf8.RuneSelf in *.
    assert (Hcase : i = 1 \/ i = 2) by lia.
    destruct Hcase as [-> | ->];
      [change (Z.to_nat 1) with 1%nat | change (Z.to_nat 2) with 2%nat]; lia. }
  destruct (orb _ _) eqn:H3; [intros [= <- <-]; lia|].
  apply orb_false_elim in H3 as [H3 _]. apply Z.ltb_ge in H3.
  intros [= <- <-] Hi. unfold utf8.locb, utf8.RuneSelf in *.
  assert (Hcase : i = 1 \/ i = 2 \/ i = 3) by lia.
  destruct Hcase as [-> | [-> | ->]];
    [change (Z.to_nat 1) with 1%nat | change (Z.to_nat 2) with 2%nat
     | change (Z.to_nat 3) with 3%nat]; lia.
Qed.

(** A rune that starts before an ASCII byte ends before it. *)
Lemma DecodeRuneInString_before_ascii (pre : string) (c : ascii) (a : string) :
  pre <> EmptyString ->
  byte_val c < utf8.RuneSelf ->
  snd (utf8.DecodeRuneInString (pre +:+ String c a)) <= len pre.
Proof.
  intros Hpre Hc.
  destruct (utf8.DecodeRuneInString (pre +:+ String c a)) as [r size] eqn:Hdec.
  cbn [snd]. unfold len.
  destruct (Z_le_gt_dec size (Z.of_nat (String.length pre))) as [|Hgt]; [assumption|].
  exfalso.
  assert (Hi : 1 <= Z.of_nat (String.length pre) < size).
  { destruct pre; [congruence|]. cbn [String.length] in *. lia. }
  pose proof (DecodeRuneInString_continuation _ _ _ _ Hdec Hi) as Hcont.
  rewrite Nat2Z.id, byte_at_app in Hcont. lia.
Qed.

Lemma scan_back_bound (s : string) (lim steps : nat) :
  Z.of_nat lim - 1 <= utf8.scan_back s lim steps <= Z.of_nat lim + Z.of_nat steps - 1.
Proof.
  induction steps as [|steps IH]; simpl utf8.scan_back; [lia|].
  destruct (utf8.RuneStart _); lia.
Qed.

Lemma DecodeLastRuneInString_size (s : string) :
  s <> EmptyString ->
  1 <= snd (utf8.DecodeLastRuneInString s) <= len s.
Proof.
  intros Hs. unfold utf8.DecodeLastRuneInString, len.
  destruct (String.length s) as [|start] eqn:Hlen.
  { destruct s; [congruence | discriminate]. }
  destruct (_ <? utf8.RuneSelf); [simpl; lia|].
  set (lim := Z.to_nat (Z.max 0 (Z.of_nat (S start) - Z.of_nat utf8.UTFMax))).
  pose proof (scan_back_bound s lim (start - lim)) as Hb.
  set (start' := Z.max 0 (utf8.scan_back s lim (start - lim))) in *.
  assert (Hs' : 0 <= start' < Z.of_nat (S start)).
  { subst start' lim. unfold utf8.UTFMax in *. lia. }
  destruct (utf8.DecodeRuneInString _) as [r size].
  destruct (Z.eqb_spec (start' + size) (Z.of_nat (S start))); simpl; lia.
Qed.

(** ** The loops run within their fuel *)

Lemma range_from_fuel {A : Type} (body : Z -> Z -> A -> A) (fuel : nat) :
  forall (s : string) (i : Z) (acc : A),
    (String.length s <= fuel)%nat ->
    utf8.range_from fuel s i body acc = utf8.range_from (String.length s) s i body acc.
Proof.
  induction fuel as [fuel IH] using lt_wf_ind.
  intros s i acc Hlen.
  destruct s as [|c t]; [destruct fuel; reflexivity|].
  destruct fuel as [|fuel']; [simpl in Hlen; lia|].
  cbn [String.length utf8.range_from].
  pose proof (DecodeRuneInString_size (String c t) ltac:(congruence)) as Hsize.
  destruct (utf8.DecodeRuneInString (String c t)) as [r size]. simpl in Hsize.
  pose proof (str_drop_length (Z.to_nat size) (String c t)) as Hdrop.
  simpl String.length in Hdrop, Hlen.
  rewrite (IH fuel') by lia.
  rewrite (IH (String.length t)) by lia.
  reflexivity.
Qed.

Lemma indexFunc_from_fuel (f : Z -> bool) (truth : bool) (fuel : nat) :
  forall (s : string) (i : Z),
    (String.length s <= fuel)%nat ->
    strings.indexFunc_from fuel s i f truth
    = strings.indexFunc_from (String.length s) s i f truth.
Proof.
  induction fuel as [fuel IH] using lt_wf_ind.
  intros s i Hlen.
  destruct s as [|c t]; [destruct fuel; reflexivity|].
  destruct fuel as [|fuel']; [simpl in Hlen; lia|].
  cbn [String.length strings.indexFunc_from].
  pose proof (DecodeRuneInString_size (String c t) ltac:(congruence)) as Hsize.
  destruct (utf8.DecodeRuneInString (String c t)) as [r size]. simpl in Hsize.
  destruct (Bool.eqb (f r) truth); [reflexivity|].
  pose proof (str_drop_length (Z.to_nat size) (String c t)) as Hdrop.
  simpl String.length in Hdrop, Hlen.
  rewrite (IH fuel') by lia.
  rewrite (IH (String.length t)) by lia.
  reflexivity.
Qed.

Lemma lastIndexFunc_from_fuel (f : Z -> bool) (truth : bool) (s : string) (fuel : nat) :
  forall (i : Z),
    0 <= i <= len s ->
    (Z.to_nat i <= fuel)%nat ->
    strings.lastIndexFunc_from fuel s i f truth
    = strings.lastIndexFunc_from (Z.to_nat i) s i f truth.
Proof.
  induction fuel as [fuel IH] using lt_wf_ind.
  intros i Hi Hfuel.
  destruct (Z.ltb_spec 0 i) as [Hpos|Hzero].
  - destruct fuel as [|fuel']; [lia|].
    destruct (Z.to_nat i) as [|n] eqn:Hn; [lia|].
    cbn [strings.lastIndexFunc_from]. rewrite ?Hn.
    destruct (Z.ltb_spec 0 i); [|lia].
    assert (Htake : str_take (S n) s <> EmptyString).
    { intros Hempty. pose proof (str_take_length (S n) s) as Hl.
      rewrite Hempty in Hl. unfold len in Hi. cbn [String.length] in Hl. lia. }
    pose proof (DecodeLastRuneInString_size _ Htake) as Hsize.
    unfold len in Hsize. rewrite str_take_length in Hsize.
    destruct (utf8.DecodeLastRuneInString (str_take (S n) s)) as [r size].
    cbn [snd] in Hsize. unfold len in Hi.
    destruct (Bool.eqb (f r) truth); [reflexivity|].
    rewrite (IH fuel') by (unfold len; lia).
    rewrite (IH n) by (unfold len; lia).
    reflexivity.
  - replace i with 0 by lia. destruct fuel; reflexivity.
Qed.

Lemma Index_from_bound (substr : string) (s : string) :
  forall i0, strings.Index_from s substr i0 = -1 \/ i0 <= strings.Index_from s substr i0.
Proof.
  induction s as [|c t IH]; intros i0; cbn [strings.Index_from].
  - destruct (strings.HasPrefix _ _); lia.
  - destruct (strings.HasPrefix _ _); [lia|].
    destruct (IH (i0 + 1)); lia.
Qed.

Lemma Count_loop_fuel (substr : string) (fuel : nat) :
  substr <> EmptyString ->
  forall (s : string) (n : Z),
    (String.length s <= fuel)%nat ->
    strings.Count_loop fuel s substr n
    = strings.Count_loop (String.length s) s substr n.
Proof.
  intros Hsub.
  assert (Hlen : 1 <= len substr).
  { destruct substr; [congruence|]. unfold len. simpl. lia. }
  induction fuel as [fuel IH] using lt_wf_ind.
  intros s n Hfuel.
  destruct s as [|c t].
  - assert (Hnone : strings.Index "" substr = -1) by (destruct substr; [congruence|reflexivity]).
    destruct fuel; cbn [strings.Count_loop String.length]; [reflexivity|].
    now rewrite Hnone.
  - destruct fuel as [|fuel']; [simpl in Hfuel; lia|].
    cbn [strings.Count_loop String.length].
    destruct (Z.eqb_spec (strings.Index (String c t) substr) (-1)) as [|Hfound];
      [reflexivity|].
    destruct (Index_from_bound substr (String c t) 0) as [|Hge]; [contradiction|].
    fold (strings.Index (String c t) substr) in Hge.
    pose proof (str_drop_length
                  (Z.to_nat (strings.Index (String c t) substr + len substr))
                  (String c t)) as Hdrop.
    simpl String.length in Hdrop, Hfuel.
    rewrite (IH fuel') by lia.
    rewrite (IH (String.length t)) by lia.
    reflexivity.
Qed.

Lemma characters_from_fuel (fuel : nat) :
  forall (s : string),
    (String.length s <= fuel)%nat ->
    characters_from fuel s = characters_from (String.length s) s.
Proof.
  induction fuel as [fuel IH] using lt_wf_ind.
  intros s Hlen.
  destruct s as [|c t]; [destruct fuel; reflexivity|].
  destruct fuel as [|fuel']; [simpl in Hlen; lia|].
  cbn [String.length characters_from].
  pose proof (DecodeRuneInString_size (String c t) ltac:(congruence)) as Hsize.
  destruct (utf8.DecodeRuneInString (String c t)) as [r size]. simpl in Hsize.
  pose proof (str_drop_length (Z.to_nat size) (String c t)) as Hdrop.
  simpl String.length in Hdrop, Hlen.
  rewrite (IH fuel') by lia.
  rewrite (IH (String.length t)) by lia.
  reflexivity.
Qed.

(** ** The characters of a string *)

(** The characters of a string, put together, are the string. *)
Lemma characters_concat (fuel : nat) :
  forall s, (String.length s <= fuel)%nat ->
            fold_right String.append EmptyString (characters_from fuel s) = s.
Proof.
  induction fuel as [|fuel IH]; intros s Hlen.
  - destruct s; [reflexivity | simpl in Hlen; lia].
  - destruct s as [|c t]; [reflexivity|].
    cbn [characters_from].
    pose proof (DecodeRuneInString_size (String c t) ltac:(congruence)) as Hsize.
    destruct (utf8.DecodeRuneInString (String c t)) as [r size]. simpl in Hsize.
    cbn [fold_right]. rewrite IH.
    + apply str_take_drop.
    + rewrite str_drop_length. simpl String.length in *. lia.
Qed.

Lemma characters_before_ascii (n : nat) :
  forall pre, (String.length pre <= n)%nat ->
    exists cs, characters_from (n + 3) (pre +:+ ".00") = cs ++ ["."; "0"; "0"]%string.
Proof.
  induction n as [|n IH]; intros pre Hn.
  - destruct pre; [|simpl in Hn; lia]. exists []. reflexivity.
  - destruct pre as [|c0 t].
    + exists []. rewrite characters_from_fuel by (simpl; lia). reflexivity.
    + pose proof (DecodeRuneInString_before_ascii (String c0 t) "." "00"
                    ltac:(congruence) ltac:(vm_compute; reflexivity)) as Hsize.
      pose proof (DecodeRuneInString_size (String c0 t +:+ ".00")
                    ltac:(discriminate)) as Hpos.
      change (S n + 3)%nat with (S (n + 3)).
      change (String c0 t +:+ ".00") with (String c0 (t +:+ ".00")) in *.
      cbn [characters_from].
      destruct (utf8.DecodeRuneInString (String c0 (t +:+ ".00"))) as [r size].
      cbn [snd] in Hsize, Hpos. unfold len in Hsize.
      change (String c0 (t +:+ ".00")) with (String c0 t +:+ ".00").
      rewrite str_drop_app by lia.
      destruct (IH (str_drop (Z.to_nat size) (String c0 t))) as [cs Hcs].
      { rewrite str_drop_length. simpl String.length in *. lia. }
      rewrite Hcs. eexists (_ :: cs). reflexivity.
Qed.

(** The last three characters of a string are [.00] exactly when its last
    three bytes are. *)
Lemma last_characters_bytes (s : string) :
  3 <= len s ->
  (exists cs, characters s = cs ++ ["."; "0"; "0"]%string)
  <-> str_drop (String.length s - 3) s = ".00"%string.
Proof.
  intros Hlen. unfold len in Hlen. split.
  - intros [cs Hcs].
    pose proof (characters_concat (String.length s) s (le_n _)) as Hcat.
    fold (characters s) in Hcat. rewrite Hcs, fold_append_app in Hcat.
    change (fold_right String.append "" ["."; "0"; "0"]%string) with ".00"%string in Hcat.
    rewrite <- Hcat.
    rewrite append_length. simpl (String.length ".00").
    replace (String.length (fold_right String.append "" cs) + 3 - 3)%nat
      with (String.length (fold_right String.append "" cs)) by lia.
    apply str_drop_all_app.
  - intros Hdrop.
    pose proof (str_take_drop (String.length s - 3) s) as Hsplit.
    rewrite Hdrop in Hsplit.
    set (pre := str_take (String.length s - 3) s) in Hsplit. clearbody pre.
    subst s. unfold characters. rewrite append_length.
    apply characters_before_ascii. lia.
Qed.

(** ** The rules, one at a time *)

Section Rules.

Context {target : Target}.

Lemma int_of_float64_in_range (f : float64) : in_range (int_of_float64 f).
Proof.
  unfold int_of_float64.
  destruct (float64_trunc f) as [z|]; [|apply int_wrap_in_range].
  destruct (_ && _) eqn:Hz; [|apply int_wrap_in_range].
  apply andb_prop in Hz. unfold in_range. lia.
Qed.

(** Rule 1 adds the number of alphanumeric runes, at most one per byte. *)
Lemma rule1_loop_acc (fuel : nat) :
  forall (s : string) (i p a : Z),
    p = int_wrap a ->
    exists c, 0 <= c <= Z.of_nat fuel /\
      utf8.range_from fuel s i
        (fun _ char points => if is_alnum char then int_add points 1 else points) p
      = int_wrap (a + c).
Proof.
  induction fuel as [|fuel IH]; intros s i p a Hp.
  - exists 0. simpl. split; [lia|]. rewrite Z.add_0_r. exact Hp.
  - destruct s as [|c0 t].
    + exists 0. simpl. split; [lia|]. rewrite Z.add_0_r. exact Hp.
    + cbn [utf8.range_from].
      destruct (utf8.DecodeRuneInString (String c0 t)) as [r size].
      destruct (is_alnum r).
      * destruct (IH (str_drop (Z.to_nat size) (String c0 t)) (i + size)
                     (int_add p 1) (a + 1) (int_add_acc _ _ _ Hp))
          as (c & Hc & Heq).
        exists (c + 1). split; [lia|]. rewrite Heq. f_equal. lia.
      * destruct (IH (str_drop (Z.to_nat size) (String c0 t)) (i + size) p a Hp)
          as (c & Hc & Heq).
        exists c. split; [lia|]. exact Heq.
Qed.

Lemma rule1_acc (receipt : Receipt) (p a : Z) :
  p = int_wrap a ->
  exists c, 0 <= c <= len (Retailer receipt) /\ rule1 receipt p = int_wrap (a + c).
Proof. intros Hp. unfold rule1, utf8.range, len. now apply rule1_loop_acc. Qed.

(** The slice of Rule 2 is in bounds when the total has three bytes or
    more, and yields its last three bytes. *)
Lemma slice_total_ok (total : string) :
  3 <= len total ->
  slice_from total (len total - 3)
  = Ok (str_drop (String.length total - 3) total).
Proof.
  intros Hlen. unfold slice_from.
  destruct (len total - 3 <? 0) eqn:H1; [lia|].
  destruct (len total <? len total - 3) eqn:H2; [lia|].
  simpl. f_equal. f_equal. unfold len. lia.
Qed.

End Rules.

Section Scoring.

Context {target : Target}.

Lemma rule2_acc (receipt : Receipt) (p a : Z) :
  3 <= len (Total receipt) ->
  p = int_wrap a ->
  exists c, (c = 0 \/ c = 50) /\ rule2 receipt p = Ok (int_wrap (a + c)).
Proof.
  intros Hlen Hp. unfold rule2. rewrite (slice_total_ok _ Hlen).
  cbn [mbind result_bind].
  destruct (String.eqb _ _).
  - exists 50. split; [now right|]. f_equal. now apply int_add_acc.
  - exists 0. split; [now left|]. f_equal. now rewrite Z.add_0_r.
Qed.

Lemma rule3_acc (receipt : Receipt) (p a : Z) :
  p = int_wrap a ->
  exists c, (c = 0 \/ c = 25) /\ rule3 receipt p = int_wrap (a + c).
Proof.
  intros Hp. unfold rule3.
  destruct (strconv.ParseFloat (Total receipt) 64) as [totalFloat err].
  destruct (_ && _).
  - exists 25. split; [now right|]. now apply int_add_acc.
  - exists 0. split; [now left|]. now rewrite Z.add_0_r.
Qed.

Lemma rule4_acc (receipt : Receipt) (p a : Z) :
  p = int_wrap a ->
  rule4 receipt p
  = int_wrap (a + int_mul (int_div (Z.of_nat (length (Items receipt))) 2) 5).
Proof. intros Hp. unfold rule4. now apply int_add_acc. Qed.

(** Without overflow, Rule 4 adds [5 * (n / 2)] for [n] items. *)
Lemma rule4_exact (n : Z) :
  0 <= n -> 5 * n <= MaxInt ->
  int_mul (int_div n 2) 5 = 5 * (n / 2).
Proof.
  intros Hn Hmax. unfold int_mul, int_div.
  rewrite Z.quot_div_nonneg by lia.
  assert (0 <= n / 2 <= n) by (split; [apply Z.div_pos; lia | apply Z.div_le_upper_bound; lia]).
  rewrite (int_wrap_id (n / 2)) by (unfold in_range, MinInt, MaxInt in *; lia).
  rewrite int_wrap_id by (unfold in_range, MinInt, MaxInt in *; lia).
  lia.
Qed.

(** What the body of the loop of Rule 5 adds does not depend on the
    accumulator: it is what it adds to zero. *)
Lemma rule5_item_acc (item : Item) (p a : Z) :
  p = int_wrap a ->
  rule5_item item p = int_wrap (a + rule5_item item 0).
Proof.
  intros Hp. unfold rule5_item.
  destruct (int_rem _ 3 =? 0); [|now rewrite Z.add_0_r].
  destruct (strconv.ParseFloat (Price item) 64) as [price err].
  destruct (is_nil err); [|now rewrite Z.add_0_r].
  rewrite (int_add_acc p a _ Hp). unfold int_add at 1.
  rewrite Z.add_0_l, int_wrap_add_r. reflexivity.
Qed.

Lemma rule5_item_in_range (item : Item) : in_range (rule5_item item 0).
Proof.
  rewrite (rule5_item_acc item 0 0) by reflexivity. apply int_wrap_in_range.
Qed.

Lemma rule5_acc (receipt : Receipt) (p a : Z) :
  p = int_wrap a ->
  rule5 receipt p = int_wrap (a + rule5_sum (Items receipt)).
Proof.
  unfold rule5. generalize (Items receipt) as items.
  intros items. revert p a.
  induction items as [|item items IH]; intros p a Hp; simpl.
  - now rewrite Z.add_0_r.
  - rewrite (IH _ (a + rule5_item item 0)) by now apply rule5_item_acc.
    f_equal. lia.
Qed.

Lemma rule5_sum_nonneg (items : list Item) :
  Forall (fun item => 0 <= rule5_item item 0) items -> 0 <= rule5_sum items.
Proof. induction 1; simpl; lia. Qed.

Lemma rule6_acc (receipt : Receipt) (p a : Z) :
  p = int_wrap a ->
  exists c, (c = 0 \/ c = 6) /\ rule6 receipt p = Ok (int_wrap (a + c)).
Proof.
  intros Hp. unfold rule6.
  destruct (Z.eqb_spec (Z.of_nat (length (strings.Split (PurchaseDate receipt) "-"))) 3)
    as [Hlen|Hlen].
  - destruct (strings.Split (PurchaseDate receipt) "-") as [|x0 [|x1 [|x2 l]]];
      simpl in Hlen; try lia.
    cbn [index_at nth_error mbind result_bind].
    destruct (strconv.Atoi x2) as [day err].
    destruct (_ && _).
    + exists 6. split; [now right|]. f_equal. now apply int_add_acc.
    + exists 0. split; [now left|]. f_equal. now rewrite Z.add_0_r.
  - exists 0. split; [now left|]. f_equal. now rewrite Z.add_0_r.
Qed.

Lemma rule7_acc (receipt : Receipt) (p a : Z) :
  p = int_wrap a ->
  exists c, (c = 0 \/ c = 10) /\ rule7 receipt p = Ok (int_wrap (a + c)).
Proof.
  intros Hp. unfold rule7.
  destruct (Z.eqb_spec (Z.of_nat (length (strings.Split (PurchaseTime receipt) ":"))) 2)
    as [Hlen|Hlen].
  - destruct (strings.Split (PurchaseTime receipt) ":") as [|x0 l];
      simpl in Hlen; try lia.
    cbn [index_at nth_error mbind result_bind].
    destruct (strconv.Atoi x0) as [hour err].
    destruct (_ && _).
    + exists 10. split; [now right|]. f_equal. now apply int_add_acc.
    + exists 0. split; [now left|]. f_equal. now rewrite Z.add_0_r.
  - exists 0. split; [now left|]. f_equal. now rewrite Z.add_0_r.
Qed.

(** The result of [calculatePoints] is the wrapped sum of what the seven
    rules add. *)
Lemma calculatePoints_sum (receipt : Receipt) :
  3 <= len (Total receipt) ->
  exists c1 c2 c3 c6 c7,
    0 <= c1 <= len (Retailer receipt)
    /\ (c2 = 0 \/ c2 = 50) /\ (c3 = 0 \/ c3 = 25)
    /\ (c6 = 0 \/ c6 = 6) /\ (c7 = 0 \/ c7 = 10)
    /\ calculatePoints receipt
       = Ok (int_wrap (c1 + c2 + c3
                       + int_mul (int_div (Z.of_nat (length (Items receipt))) 2) 5
                       + rule5_sum (Items receipt) + c6 + c7)).
Proof.
  intros Hlen. unfold calculatePoints.
  destruct (rule1_acc receipt 0 0 eq_refl) as (c1 & Hc1 & E1).
  destruct (rule2_acc receipt _ _ Hlen E1) as (c2 & Hc2 & E2).
  rewrite E2. cbn [mbind result_bind].
  destruct (rule3_acc receipt _ (0 + c1 + c2) eq_refl) as (c3 & Hc3 & E3).
  pose proof (rule4_acc receipt _ _ E3) as E4.
  pose proof (rule5_acc receipt _ _ E4) as E5.
  destruct (rule6_acc receipt _ _ E5) as (c6 & Hc6 & E6).
  rewrite E6. cbn [mbind result_bind].
  set (a6 := 0 + c1 + c2 + c3 + _ + _ + c6).
  destruct (rule7_acc receipt _ a6 eq_refl) as (c7 & Hc7 & E7).
  rewrite E7. cbn [mbind result_bind].
  exists c1, c2, c3, c6, c7. repeat (split; [assumption|]).
  reflexivity.
Qed.

(** A total that does not parse makes Rule 3 add nothing. *)
Lemma rule3_parse_error (receipt : Receipt) (q : Z) :
  is_nil (snd (strconv.ParseFloat (Total receipt) 64)) = false ->
  rule3 receipt q = q.
Proof.
  unfold rule3. destruct (strconv.ParseFloat (Total receipt) 64) as [f err].
  simpl. now intros ->.
Qed.

(** A price that does not parse makes Rule 5 add nothing for its item. *)
Lemma rule5_item_parse_error (item : Item) (q : Z) :
  is_nil (snd (strconv.ParseFloat (Price item) 64)) = false ->
  rule5_item item q = q.
Proof.
  unfold rule5_item. destruct (strconv.ParseFloat (Price item) 64) as [f err].
  simpl. intros ->. now destruct (_ =? 0).
Qed.

(** A date that has not three parts, or whose third part is not an
    integer, makes Rule 6 add nothing. *)
Lemma rule6_malformed (receipt : Receipt) (q : Z) :
  (let parts := strings.Split (PurchaseDate receipt) "-" in
   length parts <> 3%nat
   \/ exists part, nth_error parts 2 = Some part
                   /\ is_nil (snd (strconv.Atoi part)) = false) ->
  rule6 receipt q = Ok q.
Proof.
  cbv zeta. unfold rule6. intros [Hlen|(part & Hpart & Herr)].
  - destruct (Z.eqb_spec (Z.of_nat (length (strings.Split (PurchaseDate receipt) "-"))) 3);
      [lia | reflexivity].
  - destruct (_ =? 3); [|reflexivity].
    unfold index_at. rewrite Hpart. cbn [mbind result_bind].
    destruct (strconv.Atoi part) as [day err]. simpl in Herr. now rewrite Herr.
Qed.

(** A time that has not two parts, or whose first part is not an
    integer, makes Rule 7 add nothing. *)
Lemma rule7_malformed (receipt : Receipt) (q : Z) :
  (let parts := strings.Split (PurchaseTime receipt) ":" in
   length parts <> 2%nat
   \/ exists part, nth_error parts 0 = Some part
                   /\ is_nil (snd (strconv.Atoi part)) = false) ->
  rule7 receipt q = Ok q.
Proof.
  cbv zeta. unfold rule7. intros [Hlen|(part & Hpart & Herr)].
  - destruct (Z.eqb_spec (Z.of_nat (length (strings.Split (PurchaseTime receipt) ":"))) 2);
      [lia | reflexivity].
  - destruct (_ =? 2); [|reflexivity].
    unfold index_at. rewrite Hpart. cbn [mbind result_bind].
    destruct (strconv.Atoi part) as [hour err]. simpl in Herr. now rewrite Herr.
Qed.

End Scoring.

(** ** More arithmetic *)

Lemma int_add_neq (p c : Z) : 0 < c < 2 ^ 64 -> int_add p c <> p.
Proof.
  intros Hc Heq. unfold int_add, int_wrap in Heq.
  pose proof (Z.div_mod (p + c + 2 ^ 63) (2 ^ 64) ltac:(lia)) as Hdiv.
  lia.
Qed.

Lemma rem3_divide (n : Z) : (int_rem n 3 =? 0) = true <-> (3 | n).
Proof.
  unfold int_rem. rewrite Z.eqb_eq. split.
  - intros Hrem. exists (Z.quot n 3).
    pose proof (Z.quot_rem' n 3). lia.
  - intros [k ->]. apply Z.rem_mul. lia.
Qed.

(** ** Floats that hold integers *)

Lemma digits2_pos_iter_xO (q k : positive) :
  digits2_pos (Pos.iter xO q k) = (digits2_pos q + k)%positive.
Proof.
  induction k as [|k IH] using Pos.peano_ind.
  - simpl. lia.
  - rewrite Pos.iter_succ. simpl. rewrite IH. lia.
Qed.

Lemma Zpos_iter_xO (q k : positive) :
  Zpos (Pos.iter xO q k) = Zpos q * 2 ^ Zpos k.
Proof.
  induction k as [|k IH] using Pos.peano_ind.
  - simpl. lia.
  - rewrite Pos.iter_succ, Pos2Z.inj_xO, IH, Pos2Z.inj_succ, Z.pow_succ_r by lia. lia.
Qed.

Lemma digits2_pos_lower (q : positive) : 2 ^ (Zpos (digits2_pos q) - 1) <= Zpos q.
Proof.
  induction q as [q IH|q IH|]; simpl digits2_pos.
  - rewrite Pos2Z.inj_succ. replace (Z.succ (Zpos (digits2_pos q)) - 1)
      with (Z.succ (Zpos (digits2_pos q) - 1)) by lia.
    rewrite Z.pow_succ_r by lia. lia.
  - rewrite Pos2Z.inj_succ. replace (Z.succ (Zpos (digits2_pos q)) - 1)
      with (Z.succ (Zpos (digits2_pos q) - 1)) by lia.
    rewrite Z.pow_succ_r by lia. lia.
  - simpl. lia.
Qed.

Lemma digits2_pos_upper (q : positive) : Zpos q < 2 ^ Zpos (digits2_pos q).
Proof.
  induction q as [q IH|q IH|]; simpl digits2_pos.
  - rewrite Pos2Z.inj_succ, Z.pow_succ_r by lia. lia.
  - rewrite Pos2Z.inj_succ, Z.pow_succ_r by lia. lia.
  - simpl. lia.
Qed.

(** A mantissa of 53 bits is rounded to itself. *)
Lemma binary_round_aux_exact (s : bool) (mz : positive) (ez : Z) :
  Zpos (digits2_pos mz) = 53 -> -1074 <= ez <= 971 ->
  binary_round_aux 53 1024 s (Zpos mz) ez loc_Exact = S754_finite s mz ez.
Proof.
  intros Hd He.
  unfold binary_round_aux, shr_fexp, fexp, emin.
  cbn [Zdigits2]. rewrite Hd.
  replace (Z.max (53 + ez - 53) (3 - 1024 - 53) - ez) with 0 by lia.
  cbn [shr shr_record_of_loc shr_m loc_of_shr_record round_nearest_even Zdigits2].
  rewrite Hd.
  replace (Z.max (53 + ez - 53) (3 - 1024 - 53) - ez) with 0 by lia.
  cbn [shr shr_record_of_loc shr_m].
  replace (ez <=? 1024 - 53) with true by (symmetry; apply Z.leb_le; lia).
  reflexivity.
Qed.

(** An integer below [2 ^ 53] is a [float64]. *)
Lemma binary_round_int (s : bool) (q : positive) :
  Zpos q < 2 ^ 53 ->
  float64_trunc (binary_round prec64 emax64 s q 0) = Some (if s then Zneg q else Zpos q).
Proof.
  intros Hq.
  assert (Hd : Zpos (digits2_pos q) <= 53).
  { pose proof (digits2_pos_lower q) as Hl.
    destruct (Z_le_gt_dec (Zpos (digits2_pos q)) 53) as [H|H]; [exact H|exfalso].
    assert (2 ^ 53 <= 2 ^ (Zpos (digits2_pos q) - 1)) by (apply Z.pow_le_mono_r; lia).
    lia. }
  unfold binary_round, shl_align, fexp, emin, prec64, emax64.
  replace (Z.max (Zpos (digits2_pos q) + 0 - 53) (3 - 1024 - 53) - 0)
    with (Zpos (digits2_pos q) - 53) by lia.
  replace (Z.max (Zpos (digits2_pos q) + 0 - 53) (3 - 1024 - 53))
    with (Zpos (digits2_pos q) - 53) by lia.
  destruct (Zpos (digits2_pos q) - 53) as [|k|k] eqn:Hk; try lia.
  - cbv iota beta. rewrite (binary_round_aux_exact s q 0) by lia.
    simpl. now destruct s.
  - cbv iota beta.
    rewrite (binary_round_aux_exact s (Pos.iter xO q k) (Zneg k)).
    + cbn [float64_trunc]. rewrite Zpos_iter_xO.
      rewrite <- (Pos2Z.opp_pos k), Z.shiftl_opp_r, Z.shiftr_div_pow2 by lia.
      rewrite Z.div_mul by lia. now destruct s.
    + rewrite digits2_pos_iter_xO. lia.
    + lia.
Qed.

Lemma binary_normalize_int (c : Z) (s : bool) :
  Z.abs c < 2 ^ 53 ->
  float64_trunc (binary_normalize prec64 emax64 c 0 s) = Some c.
Proof.
  destruct c as [|q|q]; intros Hc; [reflexivity| |];
    cbn [binary_normalize]; now rewrite binary_round_int by lia.
Qed.

(** [math.Ceil] is the ceiling of the rational value, exactly: the
    integer it finds is a [float64], and converts back to itself. *)
Lemma Ceil_exact (x : float64) (v : Q) :
  valid_binary prec64 emax64 x = true ->
  float64_Q x = Some v ->
  float64_trunc (math.Ceil x) = Some (Qceiling v).
Proof.
  destruct x as [s|s| |s m e]; try discriminate.
  - intros _ [= <-]. reflexivity.
  - intros Hvalid [= <-].
    assert (Hm : Zpos m < 2 ^ 53).
    { unfold valid_binary, bounded, canonical_mantissa, fexp, emin, prec64, emax64 in Hvalid.
      apply andb_prop in Hvalid as [Hc _]. apply Z.eqb_eq in Hc.
      pose proof (digits2_pos_upper m) as Hu.
      assert (2 ^ Zpos (digits2_pos m) <= 2 ^ 53) by (apply Z.pow_le_mono_r; lia).
      lia. }
    unfold math.Ceil, Qceiling, Qfloor, Qopp.
    destruct e as [|k|k].
    + cbn [Z.leb Z.compare float64_trunc Qnum Qden]. rewrite Z.div_1_r.
      f_equal. rewrite Z.shiftl_mul_pow2 by lia. destruct s; lia.
    + cbn [Z.leb Z.compare float64_trunc Qnum Qden]. rewrite Z.div_1_r.
      f_equal. rewrite Z.shiftl_mul_pow2 by lia. destruct s; lia.
    + cbn [Z.leb Z.compare Qnum Qden].
      rewrite Pos2Z.inj_pow.
      assert (Hpow : 0 < 2 ^ Zpos k) by (apply Z.pow_pos_nonneg; lia).
      assert (Hdiv : forall a, Z.shiftl a (Zneg k) = a / 2 ^ Zpos k).
      { intros a. now rewrite <- (Pos2Z.opp_pos k), Z.shiftl_opp_r, Z.shiftr_div_pow2 by lia. }
      rewrite !Hdiv.
      assert (Hpos : 0 <= Zpos m / 2 ^ Zpos k <= Zpos m).
      { split; [apply Z.div_pos; lia|]. apply Z.div_le_upper_bound; [lia|]. nia. }
      assert (Hneg : - Zpos m <= Zneg m / 2 ^ Zpos k <= 0).
      { split.
        - apply Z.div_le_lower_bound; [lia|]. nia.
        - apply Z.lt_succ_r. apply Z.div_lt_upper_bound; lia. }
      destruct s.
      * rewrite binary_normalize_int by lia. cbn [Z.opp]. reflexivity.
      * rewrite binary_normalize_int by lia. reflexivity.
Qed.

(** ** The model of the library on examples *)

Example ParseFloat_decimal :
  strconv.ParseFloat "12.25" 64 = (float64_const 49 4, None).
Proof. vm_compute. reflexivity. Qed.

Example ParseFloat_nearest :
  strconv.ParseFloat "0.2" 64 = (float64_const 1 5, None)
  /\ float64_Q (float64_const 1 5)
     = Some (Qmake 7205759403792794 (2 ^ 55)%positive).
Proof. split; vm_compute; reflexivity. Qed.

Example ParseFloat_exponent :
  strconv.ParseFloat "1225e-2" 64 = (float64_const 49 4, None)
  /\ strconv.ParseFloat "0x1.88p+3" 64 = (float64_const 49 4, None)
  /\ strconv.ParseFloat "1_2.2_5" 64 = (float64_const 49 4, None).
Proof. repeat split; vm_compute; reflexivity. Qed.

Example ParseFloat_syntax_error :
  strconv.ParseFloat "12,25" 64 = (S754_zero false, Some strconv.ErrSyntax)
  /\ strconv.ParseFloat "" 64 = (S754_zero false, Some strconv.ErrSyntax)
  /\ strconv.ParseFloat " 1" 64 = (S754_zero false, Some strconv.ErrSyntax)
  /\ strconv.ParseFloat "$5" 64 = (S754_zero false, Some strconv.ErrSyntax)
  /\ strconv.ParseFloat "1__2" 64 = (S754_zero false, Some strconv.ErrSyntax)
  /\ strconv.ParseFloat "0x1" 64 = (S754_zero false, Some strconv.ErrSyntax).
Proof. repeat split; vm_compute; reflexivity. Qed.

Example ParseFloat_range_error :
  strconv.ParseFloat "1e400" 64 = (S754_infinity false, Some strconv.ErrRange)
  /\ strconv.ParseFloat "-1e400" 64 = (S754_infinity true, Some strconv.ErrRange)
  /\ strconv.ParseFloat "1e-400" 64 = (S754_zero false, None).
Proof. repeat split; vm_compute; reflexivity. Qed.

Example ParseFloat_special :
  strconv.ParseFloat "NaN" 64 = (S754_nan, None)
  /\ strconv.ParseFloat "-Inf" 64 = (S754_infinity true, None)
  /\ strconv.ParseFloat "+infinity" 64 = (S754_infinity false, None)
  /\ strconv.ParseFloat "infinit" 64 = (S754_zero false, Some strconv.ErrSyntax).
Proof. repeat split; vm_compute; reflexivity. Qed.

Example Atoi_examples :
  strconv.Atoi "01" = (1, None)
  /\ strconv.Atoi "-3" = (-3, None)
  /\ strconv.Atoi "+14" = (14, None)
  /\ strconv.Atoi "" = (0, Some strconv.ErrSyntax)
  /\ strconv.Atoi "1 " = (0, Some strconv.ErrSyntax)
  /\ strconv.Atoi "0x10" = (0, Some strconv.ErrSyntax)
  /\ strconv.Atoi "9223372036854775807" = (MaxInt, None)
  /\ strconv.Atoi "9223372036854775808" = (MaxInt, Some strconv.ErrRange).
Proof. repeat split; vm_compute; reflexivity. Qed.

Example Ceil_examples :
  math.Ceil (float64_const 49 20) = float64_const 3 1
  /\ math.Ceil (float64_const 3 1) = float64_const 3 1
  /\ math.Ceil (SFopp (float64_const 1 2)) = S754_zero true
  /\ math.Ceil S754_nan = S754_nan.
Proof. repeat split; vm_compute; reflexivity. Qed.

Example TrimSpace_examples :
  strings.TrimSpace "  Klarbrunn 12-PK 12 FL OZ  " = "Klarbrunn 12-PK 12 FL OZ"%string
  /\ strings.TrimSpace "   " = EmptyString
  /\ strings.TrimSpace (String "009" (String "010" "a b")) = "a b"%string
  /\ strings.TrimSpace
       (String "194" (String "160" (ShortDescription euro_item +:+ String "226"
          (String "128" (String "131" " ")))))
     = ShortDescription euro_item.
Proof. repeat split; vm_compute; reflexivity. Qed.

Example Split_examples :
  strings.Split "2022-01-01" "-" = ["2022"; "01"; "01"]%string
  /\ strings.Split "13:01" ":" = ["13"; "01"]%string
  /\ strings.Split "1301" ":" = ["1301"]%string
  /\ strings.Split "" "-" = [EmptyString]
  /\ strings.Split "2022--01" "-" = ["2022"; ""; "01"]%string.
Proof. repeat split; vm_compute; reflexivity. Qed.

(** ** The rules on examples *)

Example rule1_examples :
  rule1 (receipt_of "Target" "" "" "" []) 0 = 6
  /\ rule1 (receipt_of "M&M Corner Market" "" "" "" []) 0 = 14
  /\ rule1 (receipt_of (ShortDescription euro_item) "" "" "" []) 0 = 0.
Proof. repeat split; vm_compute; reflexivity. Qed.

Example rule2_examples :
  rule2 (receipt_of "" "" "" "35.00" []) 0 = Ok 50
  /\ rule2 (receipt_of "" "" "" "35.35" []) 0 = Ok 0
  /\ rule2 (receipt_of "" "" "" ".00" []) 0 = Ok 50
  /\ rule2 (receipt_of "" "" "" "35" []) 0 = Panic "slice bounds out of range".
Proof. repeat split; vm_compute; reflexivity. Qed.

Example rule4_examples :
  let item := pizza_item in
  rule4 (receipt_of "" "" "" "" []) 0 = 0
  /\ rule4 (receipt_of "" "" "" "" [item]) 0 = 0
  /\ rule4 (receipt_of "" "" "" "" [item; item]) 0 = 5
  /\ rule4 (receipt_of "" "" "" "" [item; item; item]) 0 = 5
  /\ rule4 (receipt_of "" "" "" "" [item; item; item; item]) 0 = 10.
Proof. repeat split; vm_compute; reflexivity. Qed.

Example rule6_examples :
  rule6 (receipt_of "" "2022-01-01" "" "" []) 0 = Ok 6
  /\ rule6 (receipt_of "" "2022-01-02" "" "" []) 0 = Ok 0
  /\ rule6 (receipt_of "" "2022-01" "" "" []) 0 = Ok 0
  /\ rule6 (receipt_of "" "2022-01-1st" "" "" []) 0 = Ok 0
  /\ rule6 (receipt_of "" "2022-01--1" "" "" []) 0 = Ok 0.
Proof. repeat split; vm_compute; reflexivity. Qed.

Example rule7_examples :
  rule7 (receipt_of "" "" "14:33" "" []) 0 = Ok 10
  /\ rule7 (receipt_of "" "" "15:59" "" []) 0 = Ok 10
  /\ rule7 (receipt_of "" "" "16:00" "" []) 0 = Ok 0
  /\ rule7 (receipt_of "" "" "13:59" "" []) 0 = Ok 0
  /\ rule7 (receipt_of "" "" "1433" "" []) 0 = Ok 0
  /\ rule7 (receipt_of "" "" "2pm:00" "" []) 0 = Ok 0.
Proof. repeat split; vm_compute; reflexivity. Qed.

(** The product [totalFloat*100] is a [float64]: for the total "2.26" it
    is just below 226, and its integer part, 225, is a multiple of 25. *)
Example rule3_binary_cents :
  float64_trunc (float64_mul (fst (strconv.ParseFloat "2.26" 64)) (float64_const 100 1))
  = Some 225
  /\ @rule3 amd64 (receipt_of "" "" "" "2.26" []) 0 = 25.
Proof. split; vm_compute; reflexivity. Qed.

(** ** The scoring engine *)

Section Engine.

Context {target : Target}.

(** C3.  On the receipt of the documented example (retailer "Target",
    five items, total "35.35", date "2022-01-01", time "13:01"),
    [calculatePoints] returns exactly 28. *)
Theorem calculatePoints_target_receipt : calculatePoints target_receipt = Ok 28.
Proof. vm_compute. reflexivity. Qed.


End Engine.

(** ** The receipt store *)

(** C4.  For every store and every identifier, [GetPoints] returns
    [(0, false)] when the identifier is not a key of the map, and the
    stored score with [true] when it is; the second result tells the two
    cases apart, also when the stored score is zero. *)
Theorem GetPoints_found (s : ReceiptStore) (id : string) :
  (receipts s !! id = None -> fst (GetPoints s id) = (0, false))
  /\ (forall points, receipts s !! id = Some points ->
                     fst (GetPoints s id) = (points, true))
  /\ (snd (fst (GetPoints s id)) = true <-> id ∈ dom (receipts s))
  /\ (forall id', receipts s !! id = Some 0 -> receipts s !! id' = None ->
                  fst (GetPoints s id) <> fst (GetPoints s id')).
Proof.
  unfold GetPoints. rewrite elem_of_dom.
  split; [intros ->; reflexivity|].
  split; [intros points ->; reflexivity|].
  split.
  - destruct (receipts s !! id) as [points|]; simpl; split; intros Hx;
      try reflexivity; try discriminate; eauto.
    destruct Hx as [x Hx]. discriminate.
  - intros id' -> ->. simpl. discriminate.
Qed.

(** C6.  For every store and every identifier, [GetPoints] leaves the
    store as it was, and any number of calls in sequence for the same
    identifier return the same pair [(points, found)] every time. *)
Theorem GetPoints_read_only (s : ReceiptStore) (id : string) (n : nat) :
  snd (GetPoints s id) = s
  /\ snd (GetPoints_repeat n s id) = s
  /\ fst (GetPoints_repeat n s id) = repeat (fst (GetPoints s id)) n.
Proof.
  assert (Hone : forall s', snd (GetPoints s' id) = s').
  { intros s'. unfold GetPoints. now destruct (receipts s' !! id). }
  split; [apply Hone|].
  induction n as [|n [IHs IHr]]; [split; reflexivity|].
  cbn [GetPoints_repeat].
  pose proof (Hone s) as Hs.
  destruct (GetPoints s id) as [r s1]. simpl in Hs. subst s1.
  destruct (GetPoints_repeat n s id) as [rs s2]. simpl in *. subst s2.
  split; [reflexivity|]. now rewrite IHr.
Qed.

Section Store.

Context {target : Target}.

(** When [calculatePoints] returns, [AddReceipt] returns the generated
    identifier and writes the score under it. *)
Lemma AddReceipt_returns (s : ReceiptStore) (id : string) (receipt : Receipt)
      (points : Z) :
  calculatePoints receipt = Ok points ->
  AddReceipt s id receipt = Ok (id, {| receipts := <[id := points]> (receipts s) |}).
Proof. intros Hpoints. unfold AddReceipt. now rewrite Hpoints. Qed.

(** When [calculatePoints] panics, so does [AddReceipt], before it
    writes the map. *)
Lemma AddReceipt_panics (s : ReceiptStore) (id : string) (receipt : Receipt)
      (msg : string) :
  calculatePoints receipt = Panic msg ->
  AddReceipt s id receipt = Panic msg.
Proof. intros Hpoints. unfold AddReceipt. now rewrite Hpoints. Qed.

(** On a receipt that [calculatePoints] scores, two calls in sequence
    with fresh identifiers return distinct identifiers, and each of them
    then retrieves the score. *)
Lemma AddReceipt_twice_fresh (s : ReceiptStore) (id1 id2 : string)
      (receipt : Receipt) (points : Z) :
  calculatePoints receipt = Ok points ->
  receipts s !! id1 = None ->
  <[id1 := points]> (receipts s) !! id2 = None ->
  exists s2,
    AddReceipt_twice s id1 id2 receipt = Ok (id1, id2, s2)
    /\ id1 <> id2
    /\ fst (GetPoints s2 id1) = (points, true)
    /\ fst (GetPoints s2 id2) = (points, true).
Proof.
  intros Hpoints Hfresh1 Hfresh2.
  assert (Hne : id1 <> id2).
  { intros ->. rewrite lookup_insert_eq in Hfresh2. discriminate. }
  eexists. unfold AddReceipt_twice.
  rewrite (AddReceipt_returns s id1 receipt points Hpoints).
  cbn [mbind result_bind].
  rewrite (AddReceipt_returns _ id2 receipt points Hpoints).
  cbn [mbind result_bind receipts].
  split; [reflexivity|]. split; [exact Hne|].
  unfold GetPoints. cbn [receipts].
  rewrite lookup_insert_ne by congruence.
  now rewrite !lookup_insert_eq.
Qed.

(** On a receipt that [calculatePoints] scores, [AddReceipt] with a
    fresh identifier keeps every entry of the map and adds exactly one:
    the returned identifier with the score. *)
Lemma AddReceipt_frame (s : ReceiptStore) (id : string) (receipt : Receipt)
      (points : Z) :
  calculatePoints receipt = Ok points ->
  receipts s !! id = None ->
  exists s',
    AddReceipt s id receipt = Ok (id, s')
    /\ (forall k v, receipts s !! k = Some v -> receipts s' !! k = Some v)
    /\ receipts s' !! id = Some points
    /\ dom (receipts s') = {[id]} ∪ dom (receipts s)
    /\ size (receipts s') = S (size (receipts s)).
Proof.
  intros Hpoints Hfresh. eexists.
  split; [exact (AddReceipt_returns s id receipt points Hpoints)|]. cbn [receipts].
  split; [|split; [|split]].
  - intros k v Hk. rewrite lookup_insert_ne; [exact Hk|congruence].
  - apply lookup_insert_eq.
  - apply dom_insert_L.
  - now apply map_size_insert_None.
Qed.

(** C5, on a receipt whose total is the single digit "5".  The first of
    the two calls of [AddReceipt] panics in the slice of Rule 2, and so
    does the sequence: no identifier is returned, whatever the store and
    the identifiers generated. *)
Theorem AddReceipt_twice_short_total (s : ReceiptStore) (id1 id2 : string) :
  AddReceipt s id1 short_total_receipt = Panic "slice bounds out of range"
  /\ AddReceipt_twice s id1 id2 short_total_receipt = Panic "slice bounds out of range"
  /\ forall ids, AddReceipt_twice s id1 id2 short_total_receipt <> Ok ids.
Proof.
  assert (Hpanic : calculatePoints short_total_receipt
                   = Panic "slice bounds out of range") by reflexivity.
  pose proof (AddReceipt_panics s id1 _ _ Hpanic) as Hfirst.
  split; [exact Hfirst|].
  unfold AddReceipt_twice. rewrite Hfirst. cbn [mbind result_bind].
  split; [reflexivity | discriminate].
Qed.

(** C9, on a receipt whose total is the single digit "5".  [AddReceipt]
    panics in the slice of Rule 2 before it writes the map: it returns no
    identifier and adds no entry, whatever the store and the identifier
    generated. *)
Theorem AddReceipt_short_total (s : ReceiptStore) (id : string) :
  len (Total short_total_receipt) = 1
  /\ slice_from (Total short_total_receipt) (len (Total short_total_receipt) - 3)
     = Panic "slice bounds out of range"
  /\ calculatePoints short_total_receipt = Panic "slice bounds out of range"
  /\ forall result, AddReceipt s id short_total_receipt <> Ok result.
Proof.
  split; [reflexivity|]. split; [reflexivity|].
  assert (Hpanic : calculatePoints short_total_receipt
                   = Panic "slice bounds out of range") by reflexivity.
  split; [exact Hpanic|].
  intros result. rewrite (AddReceipt_panics s id _ _ Hpanic). discriminate.
Qed.

End Store.

(** ** The theorems at concrete inputs *)

(** C1 fails as stated.  A receipt whose total is "5" makes
    [calculatePoints] panic, and a receipt with a refund of 250.00 under a
    six-letter description scores -44: on neither does [calculatePoints]
    return an integer that is not negative. *)
Lemma calculatePoints_panics_or_negative :
  @calculatePoints amd64 short_total_receipt = Panic "slice bounds out of range"
  /\ @calculatePoints amd64 refund_receipt = Ok (-44)
  /\ ~ (exists points, @calculatePoints amd64 short_total_receipt = Ok points
                       /\ 0 <= points)
  /\ ~ (exists points, @calculatePoints amd64 refund_receipt = Ok points
                       /\ 0 <= points).
Proof.
  assert (Hshort : @calculatePoints amd64 short_total_receipt
                   = Panic "slice bounds out of range") by (vm_compute; reflexivity).
  assert (Hrefund : @calculatePoints amd64 refund_receipt = Ok (-44))
    by (vm_compute; reflexivity).
  split; [exact Hshort|]. split; [exact Hrefund|]. split.
  - intros (points & Hpoints & _). rewrite Hshort in Hpoints. discriminate.
  - intros (points & Hpoints & Hnonneg). rewrite Hrefund in Hpoints.
    injection Hpoints as <-. lia.
Qed.

(** [GetPoints_found] on a store that holds a score of zero: the stored
    zero is found, an identifier never issued is not. *)
Lemma GetPoints_found_witness :
  receipts zero_store !! "7fb1377b-b223-49d9-a31a-5a02701dd310"%string = Some 0
  /\ receipts zero_store !! "never-issued"%string = None
  /\ fst (GetPoints zero_store "7fb1377b-b223-49d9-a31a-5a02701dd310") = (0, true)
  /\ fst (GetPoints zero_store "never-issued") = (0, false).
Proof.
  assert (H1 : receipts zero_store !! "7fb1377b-b223-49d9-a31a-5a02701dd310"%string = Some 0)
    by (vm_compute; reflexivity).
  assert (H2 : receipts zero_store !! "never-issued"%string = None)
    by (vm_compute; reflexivity).
  split; [exact H1|]. split; [exact H2|]. split.
  - exact (proj1 (proj2 (GetPoints_found zero_store _)) 0 H1).
  - exact (proj1 (GetPoints_found zero_store _) H2).
Defined.

(** * Further properties *)

(** ** Rule 1 counts bytes *)

Ltac pow2 :=
  repeat match goal with
         | |- context [2 ^ Zpos ?k] =>
           let v := eval vm_compute in (2 ^ Zpos k) in change (2 ^ Zpos k) with v
         end.

Lemma land_le_l (a b : Z) : 0 <= a -> Z.land a b <= a.
Proof.
  intros Ha.
  assert (Hsplit : Z.ldiff a b + Z.land a b = a).
  { rewrite Z.add_nocarry_lxor, Z.lxor_lor, Z.lor_ldiff_and; try reflexivity;
      rewrite (Z.land_comm a b), Z.land_assoc, Z.land_ldiff; apply Z.land_0_l. }
  assert (0 <= Z.ldiff a b) by (apply Z.ldiff_nonneg; now left).
  lia.
Qed.

Lemma lor_ge_l (a b : Z) : 0 <= b -> a <= Z.lor a b.
Proof.
  intros Hb. pose proof (Z.add_lor_land a b) as Hadd.
  pose proof (land_le_l b a Hb) as Hle. rewrite Z.land_comm in Hle. lia.
Qed.

Lemma lor_ge_r (a b : Z) : 0 <= a -> b <= Z.lor a b.
Proof. intros Ha. rewrite Z.lor_comm. now apply lor_ge_l. Qed.

Lemma byte_val_range (c : ascii) : 0 <= byte_val c < 256.
Proof.
  unfold byte_val. pose proof (N_ascii_bounded c) as Hb. lia.
Qed.

Lemma land_mask_mod (b k : Z) : 0 <= k -> Z.land b (2 ^ k - 1) = b mod 2 ^ k.
Proof.
  intros Hk. rewrite <- Z.land_ones by assumption. f_equal.
  rewrite Z.ones_equiv. lia.
Qed.

(** The leading bytes of the table [first], by the length they announce. *)
Lemma first_lead_cases (b sz lo hi : Z) :
  utf8.first b = utf8.lead sz lo hi ->
  hi <= 0xBF
  /\ ((sz = 2 /\ 0xC2 <= b < 0xE0)
      \/ (sz = 3 /\ b = 0xE0 /\ lo = 0xA0)
      \/ (sz = 3 /\ 0xE1 <= b < 0xF0)
      \/ (sz = 4 /\ b = 0xF0 /\ lo = 0x90)
      \/ (sz = 4 /\ 0xF1 <= b <= 0xF4)).
Proof.
  unfold utf8.first, utf8.hicb.
  destruct (Z.ltb_spec b 0x80); [discriminate|].
  destruct (Z.ltb_spec b 0xC2); [discriminate|].
  destruct (Z.ltb_spec b 0xE0); [intros [= <- <- <-]; lia|].
  destruct (Z.eqb_spec b 0xE0); [intros [= <- <- <-]; lia|].
  destruct (Z.ltb_spec b 0xED); [intros [= <- <- <-]; lia|].
  destruct (Z.eqb_spec b 0xED); [intros [= <- <- <-]; lia|].
  destruct (Z.ltb_spec b 0xF0); [intros [= <- <- <-]; lia|].
  destruct (Z.eqb_spec b 0xF0); [intros [= <- <- <-]; lia|].
  destruct (Z.ltb_spec b 0xF4); [intros [= <- <- <-]; lia|].
  destruct (Z.eqb_spec b 0xF4); [intros [= <- <- <-]; lia|].
  discriminate.
Qed.

Lemma mod_lower (b m lo hi q : Z) :
  0 < m -> lo <= b < hi -> q * m <= lo -> hi <= (q + 1) * m -> b mod m = b - q * m.
Proof.
  intros Hm Hb Hlo Hhi. symmetry. apply Z.mod_unique_pos with (q := q); lia.
Qed.

(** A rune of two bytes or more is not an ASCII character. *)
Lemma DecodeRuneInString_multibyte (s : string) (r size : Z) :
  utf8.DecodeRuneInString s = (r, size) -> 2 <= size -> utf8.RuneSelf <= r.
Proof.
  destruct s as [|c0 t]; [intros [= <- <-]; lia|].
  unfold utf8.DecodeRuneInString.
  pose proof (byte_val_range c0) as Hc0.
  destruct (utf8.first (byte_val c0)) as [| |sz lo hi] eqn:Hfirst;
    try (intros [= <- <-]; lia).
  apply first_lead_cases in Hfirst as [Hhi Hfirst].
  set (s0 := byte_val c0) in *. clearbody s0.
  destruct (len (String c0 t) <? sz); [intros [= <- <-]; lia|].
  set (s1 := byte_at (String c0 t) 1).
  set (s2 := byte_at (String c0 t) 2).
  set (s3 := byte_at (String c0 t) 3).
  assert (Hm : forall b k, 0 <= k -> 0 <= Z.land b (2 ^ k - 1)).
  { intros b k Hk. rewrite land_mask_mod by assumption.
    apply Z.mod_pos_bound. apply Z.pow_pos_nonneg; lia. }
  assert (Hx : 0 <= Z.land s1 utf8.maskx /\ 0 <= Z.land s2 utf8.maskx
               /\ 0 <= Z.land s3 utf8.maskx).
  { repeat split; apply (Hm _ 6); lia. }
  destruct Hx as (Hx1 & Hx2 & Hx3).
  destruct (orb _ _) eqn:H1; [intros [= <- <-]; lia|].
  apply orb_false_elim in H1 as [H1lo H1hi].
  apply Z.ltb_ge in H1lo, H1hi. fold s1 in H1lo, H1hi.
  unfold utf8.RuneSelf.
  destruct (Z.leb_spec sz 2) as [Hsz2|Hsz2].
  { intros [= <- <-] _.
    assert (Hb : 0xC2 <= s0 < 0xE0) by lia.
    etransitivity; [|apply lor_ge_l; assumption].
    rewrite Z.shiftl_mul_pow2 by lia.
    change utf8.mask2 with (2 ^ 5 - 1). rewrite land_mask_mod by lia.
    rewrite (mod_lower s0 (2 ^ 5) 0xC2 0xE0 6) by lia. pow2. lia. }
  destruct (orb _ _) eqn:H2; [intros [= <- <-]; lia|].
  assert (Hs1 : 0 <= Z.shiftl (Z.land s1 utf8.maskx) 6)
    by (rewrite Z.shiftl_mul_pow2 by lia; lia).
  destruct (Z.leb_spec sz 3) as [Hsz3|Hsz3].
  { intros [= <- <-] _.
    etransitivity; [|apply lor_ge_l; assumption].
    destruct Hfirst as [?|[(_ & Hb & Hlo)|[(_ & Hb)|[?|?]]]]; try lia.
    - (* 0xE0: the second byte is at least 0xA0 *)
      etransitivity; [|apply lor_ge_r; apply Z.shiftl_nonneg;
                       change utf8.mask3 with (2 ^ 4 - 1); apply Hm; lia].
      rewrite Z.shiftl_mul_pow2 by lia.
      change utf8.maskx with (2 ^ 6 - 1). rewrite land_mask_mod by lia.
      assert (Hs1r : 0xA0 <= s1 <= 0xBF) by (unfold utf8.hicb in *; lia).
      rewrite (mod_lower s1 (2 ^ 6) 0xA0 0xC0 2) by lia. pow2. lia.
    - etransitivity; [|apply lor_ge_l; assumption].
      rewrite Z.shiftl_mul_pow2 by lia.
      change utf8.mask3 with (2 ^ 4 - 1). rewrite land_mask_mod by lia.
      rewrite (mod_lower s0 (2 ^ 4) 0xE1 0xF0 14) by lia. pow2. lia. }
  clear H2. destruct (orb _ _) eqn:H3; [intros [= <- <-]; lia|].
  assert (Hs2 : 0 <= Z.shiftl (Z.land s2 utf8.maskx) 6)
    by (rewrite Z.shiftl_mul_pow2 by lia; lia).
  intros [= <- <-] _.
  etransitivity; [|apply lor_ge_l; assumption].
  etransitivity; [|apply lor_ge_l; assumption].
  destruct Hfirst as [?|[?|[?|[(_ & Hb & Hlo)|(_ & Hb)]]]]; try lia.
  - etransitivity; [|apply lor_ge_r; apply Z.shiftl_nonneg;
                     change utf8.mask4 with (2 ^ 3 - 1); apply Hm; lia].
    rewrite Z.shiftl_mul_pow2 by lia.
    change utf8.maskx with (2 ^ 6 - 1). rewrite land_mask_mod by lia.
    assert (Hs1r : 0x90 <= s1 <= 0xBF) by (unfold utf8.hicb in *; lia).
    rewrite (mod_lower s1 (2 ^ 6) 0x90 0xC0 2) by lia. pow2. lia.
  - etransitivity; [|apply lor_ge_l; rewrite Z.shiftl_mul_pow2 by lia; lia].
    rewrite Z.shiftl_mul_pow2 by lia.
    change utf8.mask4 with (2 ^ 3 - 1). rewrite land_mask_mod by lia.
    rewrite (mod_lower s0 (2 ^ 3) 0xF1 0xF8 30) by lia. pow2. lia.
Qed.

Lemma is_alnum_ascii (x : Z) : is_alnum x = true -> x < utf8.RuneSelf.
Proof.
  unfold is_alnum, utf8.RuneSelf.
  change (byte_val "a") with 97. change (byte_val "z") with 122.
  change (byte_val "A") with 65. change (byte_val "Z") with 90.
  change (byte_val "0") with 48. change (byte_val "9") with 57.
  rewrite !orb_true_iff, !andb_true_iff, !Z.leb_le. lia.
Qed.

Lemma is_alnum_above (x : Z) : utf8.RuneSelf <= x -> is_alnum x = false.
Proof.
  intros Hx. destruct (is_alnum x) eqn:Halnum; [|reflexivity].
  apply is_alnum_ascii in Halnum. lia.
Qed.

Lemma count_alnum_app (s1 s2 : string) :
  count_alnum (s1 +:+ s2) = count_alnum s1 + count_alnum s2.
Proof.
  induction s1 as [|c t IH]; [reflexivity|].
  change (String c t +:+ s2) with (String c (t +:+ s2)).
  cbn [count_alnum]. rewrite IH. lia.
Qed.

Lemma count_alnum_bounds (s : string) : 0 <= count_alnum s <= len s.
Proof.
  unfold len. induction s as [|c t IH]; cbn [count_alnum String.length]; [lia|].
  destruct (is_alnum _); lia.
Qed.

Lemma count_alnum_high (n : nat) :
  forall s, (forall i, (i < n)%nat -> utf8.RuneSelf <= byte_at s i) ->
            count_alnum (str_take n s) = 0.
Proof.
  induction n as [|n IH]; intros s Hhigh; [reflexivity|].
  destruct s as [|c t]; [reflexivity|].
  cbn [str_take count_alnum].
  rewrite is_alnum_above by (apply (Hhigh 0%nat); lia).
  rewrite IH; [reflexivity|].
  intros i Hi. apply (Hhigh (S i)). lia.
Qed.

(** The bytes of one rune hold one alphanumeric byte if the rune is
    alphanumeric, and none otherwise. *)
Lemma count_alnum_rune (s : string) (r size : Z) :
  s <> EmptyString ->
  utf8.DecodeRuneInString s = (r, size) ->
  count_alnum (str_take (Z.to_nat size) s) = if is_alnum r then 1 else 0.
Proof.
  intros Hs Hdec.
  pose proof (DecodeRuneInString_size s Hs) as Hsize. rewrite Hdec in Hsize.
  cbn [snd] in Hsize.
  destruct (Z_le_gt_dec 2 size) as [Hmulti|Hone].
  - rewrite (is_alnum_above r) by (eapply DecodeRuneInString_multibyte; eauto).
    apply count_alnum_high. intros i Hi.
    destruct i as [|i].
    + destruct s as [|c0 t]; [congruence|].
      change (byte_at (String c0 t) 0) with (byte_val c0).
      destruct (Z.ltb_spec (byte_val c0) utf8.RuneSelf) as [Hascii|]; [|assumption].
      exfalso. revert Hdec. unfold utf8.DecodeRuneInString, utf8.first.
      unfold utf8.RuneSelf in Hascii.
      destruct (Z.ltb_spec (byte_val c0) 128); [|lia].
      cbv beta iota zeta. intros Heq. injection Heq as _ Hsz. lia.
    + pose proof (DecodeRuneInString_continuation s r size (Z.of_nat (S i)) Hdec
                    ltac:(lia)) as Hcont.
      now rewrite Nat2Z.id in Hcont.
  - assert (size = 1) by lia. subst size.
    destruct s as [|c0 t]; [congruence|].
    change (Z.to_nat 1) with 1%nat. cbn [str_take count_alnum].
    rewrite Z.add_0_r.
    revert Hdec. unfold utf8.DecodeRuneInString.
    destruct (utf8.first (byte_val c0)) as [| |sz lo hi] eqn:Hfirst.
    + now intros [= <-].
    + intros [= <-].
      rewrite is_alnum_above; [reflexivity|].
      revert Hfirst. unfold utf8.first, utf8.RuneSelf.
      destruct (Z.ltb_spec (byte_val c0) 128); [discriminate|lia].
    + assert (Hhigh : utf8.RuneSelf <= byte_val c0).
      { apply first_lead_cases in Hfirst. unfold utf8.RuneSelf. lia. }
      rewrite (is_alnum_above (byte_val c0)) by assumption.
      intros Hdec.
      assert (Hr : r = utf8.RuneError).
      { revert Hdec.
        repeat match goal with
               | |- context [if ?b then _ else _] => destruct b
               end; intros Heq; injection Heq as Hr; (congruence || lia). }
      subst r. reflexivity.
Qed.

Lemma rule1_loop_counts (fuel : nat) :
  forall (s : string) (i p a : Z),
    (String.length s <= fuel)%nat ->
    p = int_wrap a ->
    utf8.range_from fuel s i
      (fun _ char points => if is_alnum char then int_add points 1 else points) p
    = int_wrap (a + count_alnum s).
Proof.
  induction fuel as [|fuel IH]; intros s i p a Hlen Hp.
  - destruct s; [|simpl in Hlen; lia]. simpl. now rewrite Z.add_0_r.
  - destruct s as [|c0 t]; [simpl; now rewrite Z.add_0_r|].
    cbn [utf8.range_from].
    pose proof (DecodeRuneInString_size (String c0 t) ltac:(congruence)) as Hsize.
    pose proof (count_alnum_rune (String c0 t)) as Hrune.
    destruct (utf8.DecodeRuneInString (String c0 t)) as [r size].
    cbn [snd] in Hsize. specialize (Hrune r size ltac:(congruence) eq_refl).
    assert (Hsplit : count_alnum (String c0 t)
                     = (if is_alnum r then 1 else 0)
                       + count_alnum (str_drop (Z.to_nat size) (String c0 t))).
    { rewrite <- Hrune, <- count_alnum_app, str_take_drop. reflexivity. }
    rewrite Hsplit.
    assert (Hfuel : (String.length (str_drop (Z.to_nat size) (String c0 t)) <= fuel)%nat).
    { rewrite str_drop_length. simpl String.length in *. lia. }
    destruct (is_alnum r).
    + rewrite (IH _ _ _ (a + 1) Hfuel (int_add_acc _ _ _ Hp)). f_equal. lia.
    + rewrite (IH _ _ _ a Hfuel Hp). f_equal.
Qed.

(** X1.  Rule 1 adds one point for every byte of the retailer name that
    is an ASCII letter or digit, and nothing for any other byte: a
    character of two bytes or more is never counted, whatever Unicode
    says of it, nor is a byte that is not valid UTF-8.  What it adds lies
    between zero and the length of the name in bytes. *)
Theorem rule1_counts_alnum_bytes (receipt : Receipt) (points : Z) :
  in_range points ->
  rule1 receipt points = int_add points (count_alnum (Retailer receipt))
  /\ 0 <= count_alnum (Retailer receipt) <= len (Retailer receipt).
Proof.
  intros Hp. split; [|apply count_alnum_bounds].
  unfold rule1, utf8.range, int_add.
  apply rule1_loop_counts; [lia|]. symmetry. now apply int_wrap_id.
Qed.

(** ** The score is the sum of what the rules add *)

Lemma int_wrap_mul_l (a b : Z) : int_wrap (int_wrap a * b) = int_wrap (a * b).
Proof.
  unfold int_wrap. f_equal.
  replace (((a + 2 ^ 63) mod 2 ^ 64 - 2 ^ 63) * b + 2 ^ 63)
    with ((a + 2 ^ 63) mod 2 ^ 64 * b + (2 ^ 63 - 2 ^ 63 * b)) by lia.
  replace (a * b + 2 ^ 63) with ((a + 2 ^ 63) * b + (2 ^ 63 - 2 ^ 63 * b)) by lia.
  rewrite (Z.add_mod ((a + 2 ^ 63) mod 2 ^ 64 * b)) by (vm_compute; discriminate).
  rewrite Z.mul_mod_idemp_l by (vm_compute; discriminate).
  rewrite <- Z.add_mod by (vm_compute; discriminate). reflexivity.
Qed.

Lemma int_wrap_small (c : Z) : 0 <= c <= 50 -> int_wrap c = c.
Proof. intros Hc. apply int_wrap_id. unfold in_range, MinInt, MaxInt. lia. Qed.

Section Decomposition.

Context {target : Target}.

Lemma rule1_amount_acc (receipt : Receipt) (p a : Z) :
  p = int_wrap a -> rule1 receipt p = int_wrap (a + rule1_amount receipt).
Proof.
  intros Hp. unfold rule1, utf8.range, rule1_amount.
  now apply rule1_loop_counts.
Qed.

(** Rule 2 adds 50 when the last three bytes of the total are ".00",
    and nothing otherwise. *)
Lemma rule2_amount_suffix (receipt : Receipt) :
  3 <= len (Total receipt) ->
  rule2_amount receipt
  = if String.eqb (str_drop (String.length (Total receipt) - 3) (Total receipt)) ".00"
    then 50 else 0.
Proof.
  intros Hlen. unfold rule2_amount, rule2. rewrite (slice_total_ok _ Hlen).
  cbn [mbind result_bind amount]. now destruct (String.eqb _ _).
Qed.

Lemma rule2_amount_acc (receipt : Receipt) (p a : Z) :
  3 <= len (Total receipt) ->
  p = int_wrap a ->
  rule2 receipt p = Ok (int_wrap (a + rule2_amount receipt)).
Proof.
  intros Hlen Hp. rewrite (rule2_amount_suffix receipt Hlen).
  unfold rule2. rewrite (slice_total_ok _ Hlen). cbn [mbind result_bind].
  destruct (String.eqb _ _); f_equal; [now apply int_add_acc|now rewrite Z.add_0_r].
Qed.

(** Rule 3 adds 25 when the total parses and its cents are a multiple of
    25, and nothing otherwise. *)
Lemma rule3_amount_cents (receipt : Receipt) :
  rule3_amount receipt
  = if is_nil (snd (strconv.ParseFloat (Total receipt) 64))
       && (int_rem (int_of_float64
                      (float64_mul (fst (strconv.ParseFloat (Total receipt) 64))
                                   (float64_const 100 1))) 25 =? 0)
    then 25 else 0.
Proof.
  unfold rule3_amount, rule3.
  destruct (strconv.ParseFloat (Total receipt) 64) as [f err]. cbn [fst snd].
  now destruct (_ && _).
Qed.

Lemma rule3_amount_acc (receipt : Receipt) (p a : Z) :
  p = int_wrap a -> rule3 receipt p = int_wrap (a + rule3_amount receipt).
Proof.
  intros Hp. rewrite rule3_amount_cents. unfold rule3.
  destruct (strconv.ParseFloat (Total receipt) 64) as [f err]. cbn [fst snd].
  destruct (_ && _); [now apply int_add_acc|now rewrite Z.add_0_r].
Qed.

Lemma rule4_amount_acc (receipt : Receipt) (p a : Z) :
  p = int_wrap a -> rule4 receipt p = int_wrap (a + rule4_amount receipt).
Proof.
  intros Hp. rewrite (rule4_acc receipt p a Hp). unfold rule4_amount, int_mul, int_div.
  rewrite Z.quot_div_nonneg by lia.
  rewrite int_wrap_mul_l, int_wrap_add_r. f_equal. lia.
Qed.

Lemma rule6_amount_acc (receipt : Receipt) (p a : Z) :
  p = int_wrap a ->
  rule6 receipt p = Ok (int_wrap (a + rule6_amount receipt))
  /\ (rule6_amount receipt = 0 \/ rule6_amount receipt = 6).
Proof.
  intros Hp. unfold rule6_amount, rule6.
  destruct (Z.eqb_spec (Z.of_nat (length (strings.Split (PurchaseDate receipt) "-"))) 3)
    as [Hlen|Hlen].
  - destruct (strings.Split (PurchaseDate receipt) "-") as [|x0 [|x1 [|x2 l]]];
      simpl in Hlen; try lia.
    cbn [index_at nth_error mbind result_bind].
    destruct (strconv.Atoi x2) as [day err].
    destruct (_ && _); cbn [amount].
    + split; [f_equal; now apply int_add_acc|now right].
    + split; [f_equal; now rewrite Z.add_0_r|now left].
  - cbn [amount]. split; [f_equal; now rewrite Z.add_0_r|now left].
Qed.

Lemma rule7_amount_acc (receipt : Receipt) (p a : Z) :
  p = int_wrap a ->
  rule7 receipt p = Ok (int_wrap (a + rule7_amount receipt))
  /\ (rule7_amount receipt = 0 \/ rule7_amount receipt = 10).
Proof.
  intros Hp. unfold rule7_amount, rule7.
  destruct (Z.eqb_spec (Z.of_nat (length (strings.Split (PurchaseTime receipt) ":"))) 2)
    as [Hlen|Hlen].
  - destruct (strings.Split (PurchaseTime receipt) ":") as [|x0 [|x1 l]];
      simpl in Hlen; try lia.
    cbn [index_at nth_error mbind result_bind].
    destruct (strconv.Atoi x0) as [hour err].
    destruct (_ && _); cbn [amount].
    + split; [f_equal; now apply int_add_acc|now right].
    + split; [f_equal; now rewrite Z.add_0_r|now left].
  - cbn [amount]. split; [f_equal; now rewrite Z.add_0_r|now left].
Qed.

(** The score is the sum of what the seven rules add, as an [int]. *)
Lemma calculatePoints_amounts (receipt : Receipt) :
  3 <= len (Total receipt) ->
  calculatePoints receipt
  = Ok (int_wrap (rules_sum receipt)).
Proof.
  intros Hlen. unfold calculatePoints, rules_sum.
  pose proof (rule1_amount_acc receipt 0 0 eq_refl) as E1.
  pose proof (rule2_amount_acc receipt _ _ Hlen E1) as E2.
  rewrite E2. cbn [mbind result_bind].
  pose proof (rule3_amount_acc receipt _ (0 + rule1_amount receipt + rule2_amount receipt)
                eq_refl) as E3.
  pose proof (rule4_amount_acc receipt _ _ E3) as E4.
  pose proof (rule5_acc receipt _ _ E4) as E5.
  destruct (rule6_amount_acc receipt _ _ E5) as [E6 _].
  rewrite E6. cbn [mbind result_bind].
  set (a6 := 0 + rule1_amount receipt + rule2_amount receipt + rule3_amount receipt
             + rule4_amount receipt + rule5_sum (Items receipt) + rule6_amount receipt).
  destruct (rule7_amount_acc receipt _ a6 eq_refl) as [E7 _].
  rewrite E7. cbn [mbind result_bind]. reflexivity.
Qed.

Lemma amounts_nonneg (receipt : Receipt) :
  0 <= rule1_amount receipt <= len (Retailer receipt)
  /\ (rule2_amount receipt = 0 \/ rule2_amount receipt = 50)
  /\ (rule3_amount receipt = 0 \/ rule3_amount receipt = 25)
  /\ 0 <= rule4_amount receipt
  /\ (rule6_amount receipt = 0 \/ rule6_amount receipt = 6)
  /\ (rule7_amount receipt = 0 \/ rule7_amount receipt = 10).
Proof.
  split; [apply count_alnum_bounds|]. split.
  { unfold rule2_amount, rule2.
    destruct (slice_from _ _) as [suffix|msg]; cbn [mbind result_bind amount]; [|now left].
    destruct (String.eqb _ _); [now right|now left]. }
  split.
  { rewrite rule3_amount_cents. destruct (_ && _); [now right|now left]. }
  split.
  { unfold rule4_amount. assert (0 <= Z.of_nat (length (Items receipt)) / 2)
      by (apply Z.div_pos; lia). lia. }
  split; [exact (proj2 (rule6_amount_acc receipt 0 0 eq_refl))|].
  exact (proj2 (rule7_amount_acc receipt 0 0 eq_refl)).
Qed.

End Decomposition.

(** The conversion [int(f)] of a finite float whose integer part fits an
    [int] is that integer part: the value of the float truncated toward
    zero. *)
Lemma float64_trunc_Q (f : float64) (v : Q) :
  float64_Q f = Some v -> float64_trunc f = Some (Qtruncate v).
Proof.
  destruct f as [s|s| |s m e]; try discriminate.
  - intros [= <-]. reflexivity.
  - intros [= <-]. cbn [float64_trunc]. f_equal. unfold Qtruncate.
    destruct e as [|k|k]; cbn [Qnum Qden].
    + rewrite Z.quot_1_r, Z.shiftl_mul_pow2 by lia.
      destruct s; [change (Zneg m) with (- Zpos m)|]; lia.
    + rewrite Z.quot_1_r, Z.shiftl_mul_pow2 by lia.
      destruct s; [change (Zneg m) with (- Zpos m)|]; lia.
    + rewrite Pos2Z.inj_pow.
      assert (Hpow : 0 < 2 ^ Zpos k) by (apply Z.pow_pos_nonneg; lia).
      rewrite <- (Pos2Z.opp_pos k), Z.shiftl_opp_r, Z.shiftr_div_pow2 by lia.
      rewrite <- Z.quot_div_nonneg by lia.
      destruct s; [|reflexivity].
      change (Zneg m) with (- Zpos m). now rewrite Z.quot_opp_l by lia.
Qed.

Section Sum.

Context {target : Target}.

(** C1, amended.  For every receipt whose total has at least three
    bytes, [calculatePoints] returns an [int] and does not panic: the sum
    of what the seven rules add, stored in an [int].  A total or a price
    that does not parse, a date or a time that does not split as expected
    or whose number does not parse, makes its rule add nothing.  The
    result is that sum itself, and is not negative, when no item makes
    Rule 5 add a negative amount and the sum does not exceed the largest
    [int]. *)
Theorem calculatePoints_returns (receipt : Receipt) :
  3 <= len (Total receipt) ->
  exists points,
    calculatePoints receipt = Ok points
    /\ in_range points
    /\ points = int_wrap (rules_sum receipt)
    /\ (Forall (fun item => 0 <= rule5_item item 0) (Items receipt) ->
        rules_sum receipt <= MaxInt ->
        points = rules_sum receipt /\ 0 <= points)
    /\ (0 <= rule1_amount receipt <= len (Retailer receipt)
        /\ (rule2_amount receipt = 0 \/ rule2_amount receipt = 50)
        /\ (rule3_amount receipt = 0 \/ rule3_amount receipt = 25)
        /\ 0 <= rule4_amount receipt
        /\ (rule6_amount receipt = 0 \/ rule6_amount receipt = 6)
        /\ (rule7_amount receipt = 0 \/ rule7_amount receipt = 10))
    /\ (forall q, is_nil (snd (strconv.ParseFloat (Total receipt) 64)) = false ->
                  rule3 receipt q = q)
    /\ (forall item q, is_nil (snd (strconv.ParseFloat (Price item) 64)) = false ->
                       rule5_item item q = q)
    /\ (forall q,
          (let parts := strings.Split (PurchaseDate receipt) "-" in
           length parts <> 3%nat
           \/ exists part, nth_error parts 2 = Some part
                           /\ is_nil (snd (strconv.Atoi part)) = false) ->
          rule6 receipt q = Ok q)
    /\ (forall q,
          (let parts := strings.Split (PurchaseTime receipt) ":" in
           length parts <> 2%nat
           \/ exists part, nth_error parts 0 = Some part
                           /\ is_nil (snd (strconv.Atoi part)) = false) ->
          rule7 receipt q = Ok q).
Proof.
  intros Hlen.
  exists (int_wrap (rules_sum receipt)).
  split; [exact (calculatePoints_amounts receipt Hlen)|].
  split; [apply int_wrap_in_range|]. split; [reflexivity|].
  pose proof (amounts_nonneg receipt) as Hamounts.
  split; [|split; [exact Hamounts|split; [|split; [|split]]]].
  - intros Hitems Hmax.
    pose proof (rule5_sum_nonneg _ Hitems) as H5.
    destruct Hamounts as (H1 & H2 & H3 & H4 & H6 & H7).
    assert (Hsum : 0 <= rules_sum receipt) by (unfold rules_sum, rule5_amount; lia).
    rewrite int_wrap_id by (unfold in_range, MinInt, MaxInt in *; lia).
    split; [reflexivity|exact Hsum].
  - intros q. apply rule3_parse_error.
  - intros item q. apply rule5_item_parse_error.
  - intros q. apply rule6_malformed.
  - intros q. apply rule7_malformed.
Qed.

(** C2.  For every receipt whose total has at least three bytes, the
    slice [receipt.Total[len(receipt.Total)-3:]] of Rule 2 is in bounds
    and holds the last three bytes of the total, and [calculatePoints]
    does not panic.  Rule 2 executes [points += 50] if and only if these
    three bytes are [.00], which is to say if and only if the last three
    characters of the total are [.], [0] and [0]; otherwise it leaves
    [points] as it is.  The score that [calculatePoints] returns is the
    sum of what the rules add, with 50 for Rule 2 in the first case and
    nothing in the second. *)
Theorem rule2_round_dollar (receipt : Receipt) (points : Z) :
  3 <= len (Total receipt) ->
  exists pre suffix,
    Total receipt = pre +:+ suffix
    /\ String.length suffix = 3%nat
    /\ slice_from (Total receipt) (len (Total receipt) - 3) = Ok suffix
    /\ rule2 receipt points
       = Ok (if decide (suffix = ".00"%string) then int_add points 50 else points)
    /\ (rule2 receipt points = Ok (int_add points 50) <-> suffix = ".00"%string)
    /\ (suffix = ".00"%string
        <-> exists cs, characters (Total receipt) = cs ++ ["."; "0"; "0"]%string)
    /\ calculatePoints receipt
       = Ok (int_wrap (rule1_amount receipt
                       + (if decide (suffix = ".00"%string) then 50 else 0)
                       + rule3_amount receipt + rule4_amount receipt
                       + rule5_amount receipt + rule6_amount receipt
                       + rule7_amount receipt)).
Proof.
  intros Hlen.
  exists (str_take (String.length (Total receipt) - 3) (Total receipt)),
         (str_drop (String.length (Total receipt) - 3) (Total receipt)).
  pose proof (slice_total_ok _ Hlen) as Hslice.
  assert (Hrule : rule2 receipt points
                  = Ok (if decide (str_drop (String.length (Total receipt) - 3)
                                            (Total receipt) = ".00"%string)
                        then int_add points 50 else points)).
  { unfold rule2. rewrite Hslice. cbn [mbind result_bind]. f_equal.
    destruct (String.eqb_spec
                (str_drop (String.length (Total receipt) - 3) (Total receipt)) ".00");
      destruct (decide _); congruence. }
  split; [symmetry; apply str_take_drop|].
  split; [rewrite str_drop_length; unfold len in Hlen; lia|].
  split; [exact Hslice|]. split; [exact Hrule|].
  split; [|split].
  - rewrite Hrule. destruct (decide _) as [Heq|Hne]; split; try congruence.
    intros Hadd. exfalso. injection Hadd as Hadd.
    symmetry in Hadd. revert Hadd. apply int_add_neq. lia.
  - symmetry. now apply last_characters_bytes.
  - rewrite (calculatePoints_amounts receipt Hlen). unfold rules_sum.
    rewrite (rule2_amount_suffix receipt Hlen).
    destruct (String.eqb_spec
                (str_drop (String.length (Total receipt) - 3) (Total receipt)) ".00");
      destruct (decide _); congruence.
Qed.

(** C7.  For every item, the body of the loop of Rule 5 executes
    [points += int(math.Ceil(price * 0.2))] when the length of the trimmed
    description is a multiple of 3 and the price parses, and leaves
    [points] as it is when the length is not a multiple of 3 or the price
    does not parse.  The amount is the ceiling of the [float64] product,
    as an integer, whenever it fits an [int].  A trimmed length of zero is a
    multiple of 3: an item with a blank description and the price "5.00"
    earns one point.  For an item of a receipt, this amount is what the
    item brings to the sum of Rule 5, to what the loop makes of the
    accumulator, and to the score that [calculatePoints] returns,
    whatever the items before and after it. *)
Theorem rule5_item_bonus (receipt : Receipt) (item : Item) (points : Z) :
  let trimmedLength := len (strings.TrimSpace (ShortDescription item)) in
  let price := fst (strconv.ParseFloat (Price item) 64) in
  let err := snd (strconv.ParseFloat (Price item) 64) in
  let product := float64_mul price (float64_const 1 5) in
  ((3 | trimmedLength) -> err = None ->
   rule5_item item points = int_add points (int_of_float64 (math.Ceil product)))
  /\ (forall v, valid_binary prec64 emax64 product = true ->
                float64_Q product = Some v ->
                in_range (Qceiling v) ->
                int_of_float64 (math.Ceil product) = Qceiling v)
  /\ (~ (3 | trimmedLength) -> rule5_item item points = points)
  /\ (err <> None -> rule5_item item points = points)
  /\ (trimmedLength = 0 -> (3 | trimmedLength))
  /\ len (strings.TrimSpace (ShortDescription blank_item)) = 0
  /\ rule5_item blank_item points = int_add points 1
  /\ exists bonus,
      ((3 | trimmedLength) -> err = None -> bonus = int_of_float64 (math.Ceil product))
      /\ (~ (3 | trimmedLength) -> bonus = 0)
      /\ (err <> None -> bonus = 0)
      /\ rule5_item item 0 = bonus
      /\ forall items1 items2,
          Items receipt = items1 ++ item :: items2 ->
          rule5_amount receipt = rule5_sum items1 + bonus + rule5_sum items2
          /\ (in_range points ->
              rule5 receipt points
              = int_wrap (points + (rule5_sum items1 + bonus + rule5_sum items2)))
          /\ (3 <= len (Total receipt) ->
              calculatePoints receipt
              = Ok (int_wrap (rule1_amount receipt + rule2_amount receipt
                              + rule3_amount receipt + rule4_amount receipt
                              + (rule5_sum items1 + bonus + rule5_sum items2)
                              + rule6_amount receipt + rule7_amount receipt))).
Proof.
  cbv zeta.
  assert (Hsplit : forall items1 items2,
             rule5_sum (items1 ++ item :: items2)
             = rule5_sum items1 + rule5_item item 0 + rule5_sum items2).
  { intros items1 items2. unfold rule5_sum.
    induction items1 as [|x l IH]; cbn [app fold_right]; [lia|]. rewrite IH. lia. }
  assert (Hlast : exists bonus,
      ((3 | len (strings.TrimSpace (ShortDescription item))) ->
       snd (strconv.ParseFloat (Price item) 64) = None ->
       bonus = int_of_float64
                 (math.Ceil (float64_mul (fst (strconv.ParseFloat (Price item) 64))
                                         (float64_const 1 5))))
      /\ (~ (3 | len (strings.TrimSpace (ShortDescription item))) -> bonus = 0)
      /\ (snd (strconv.ParseFloat (Price item) 64) <> None -> bonus = 0)
      /\ rule5_item item 0 = bonus
      /\ forall items1 items2,
          Items receipt = items1 ++ item :: items2 ->
          rule5_amount receipt = rule5_sum items1 + bonus + rule5_sum items2
          /\ (in_range points ->
              rule5 receipt points
              = int_wrap (points + (rule5_sum items1 + bonus + rule5_sum items2)))
          /\ (3 <= len (Total receipt) ->
              calculatePoints receipt
              = Ok (int_wrap (rule1_amount receipt + rule2_amount receipt
                              + rule3_amount receipt + rule4_amount receipt
                              + (rule5_sum items1 + bonus + rule5_sum items2)
                              + rule6_amount receipt + rule7_amount receipt)))).
  { exists (rule5_item item 0).
    pose proof (rem3_divide (len (strings.TrimSpace (ShortDescription item)))) as Hrem.
    assert (Hzero : forall f, int_add 0 (int_of_float64 f) = int_of_float64 f).
    { intros f. unfold int_add. rewrite Z.add_0_l.
      apply int_wrap_id, int_of_float64_in_range. }
    split; [|split; [|split; [|split; [reflexivity|]]]].
    - intros Hd Herr. unfold rule5_item. apply Hrem in Hd. rewrite Hd.
      destruct (strconv.ParseFloat (Price item) 64) as [price err].
      cbn [fst snd] in *. subst err. cbn [is_nil]. apply Hzero.
    - intros Hn. unfold rule5_item.
      destruct (int_rem _ 3 =? 0) eqn:Hr; [|reflexivity].
      exfalso. apply Hn, Hrem. reflexivity.
    - intros Herr. unfold rule5_item. destruct (int_rem _ 3 =? 0); [|reflexivity].
      destruct (strconv.ParseFloat (Price item) 64) as [price err].
      cbn [fst snd] in *. destruct err; [reflexivity|congruence].
    - intros items1 items2 Hitems.
      assert (Hamount : rule5_amount receipt
                        = rule5_sum items1 + rule5_item item 0 + rule5_sum items2)
        by (unfold rule5_amount; rewrite Hitems; apply Hsplit).
      split; [exact Hamount|]. split.
      + intros Hp. rewrite (rule5_acc receipt points points)
          by (symmetry; now apply int_wrap_id).
        fold (rule5_amount receipt). now rewrite Hamount.
      + intros Hlen. rewrite (calculatePoints_amounts receipt Hlen).
        unfold rules_sum. now rewrite Hamount. }
  unfold rule5_item at 1 2 3.
  destruct (strconv.ParseFloat (Price item) 64) as [price err]. simpl fst; simpl snd.
  simpl fst in Hlast; simpl snd in Hlast.
  pose proof (rem3_divide (len (strings.TrimSpace (ShortDescription item)))) as Hrem.
  assert (Hceil : forall v,
             valid_binary prec64 emax64 (float64_mul price (float64_const 1 5)) = true ->
             float64_Q (float64_mul price (float64_const 1 5)) = Some v ->
             in_range (Qceiling v) ->
             int_of_float64 (math.Ceil (float64_mul price (float64_const 1 5)))
             = Qceiling v).
  { intros v Hvalid Hv [Hlo Hhi]. unfold int_of_float64.
    rewrite (Ceil_exact _ _ Hvalid Hv).
    apply Z.leb_le in Hlo, Hhi. now rewrite Hlo, Hhi. }
  destruct (int_rem _ 3 =? 0).
  - split; [intros _ ->; reflexivity|]. split; [exact Hceil|].
    split; [intros Hn; exfalso; apply Hn, Hrem; reflexivity|].
    split; [destruct err; [reflexivity|congruence]|].
    split; [intros ->; exists 0; reflexivity|].
    split; [reflexivity|]. split; [reflexivity|exact Hlast].
  - split; [intros Hd; apply Hrem in Hd; discriminate|]. split; [exact Hceil|].
    split; [reflexivity|]. split; [reflexivity|].
    split; [intros ->; exists 0; reflexivity|].
    split; [reflexivity|]. split; [reflexivity|exact Hlast].
Qed.

(** C8.  For every receipt, Rule 3 executes [points += 25] when the total
    parses as a [float64] and [int(totalFloat*100)%25] is zero, and leaves
    [points] as it is when the total does not parse or the remainder is
    not zero.  The cents [int(totalFloat*100)] are the [float64] product
    truncated toward zero: 3525 for the total "35.25", which earns the 25
    points, and 3510 for the total "35.10", which earns nothing.  The
    score that [calculatePoints] returns is the sum of what the rules
    add, with 25 for Rule 3 in the first case and nothing otherwise. *)
Theorem rule3_quarter_multiple (receipt : Receipt) (points : Z) :
  let totalFloat := fst (strconv.ParseFloat (Total receipt) 64) in
  let err := snd (strconv.ParseFloat (Total receipt) 64) in
  let product := float64_mul totalFloat (float64_const 100 1) in
  let cents := int_of_float64 product in
  (err = None -> int_rem cents 25 = 0 -> rule3 receipt points = int_add points 25)
  /\ (err = None -> int_rem cents 25 <> 0 -> rule3 receipt points = points)
  /\ (err <> None -> rule3 receipt points = points)
  /\ (Total receipt = "35.25"%string -> rule3 receipt points = int_add points 25)
  /\ (Total receipt = "35.10"%string -> rule3 receipt points = points)
  /\ (forall v, float64_Q product = Some v -> in_range (Qtruncate v) ->
                cents = Qtruncate v)
  /\ (Total receipt = "35.25"%string -> err = None /\ cents = 3525)
  /\ (Total receipt = "35.10"%string -> err = None /\ cents = 3510)
  /\ (3 <= len (Total receipt) ->
      exists bonus,
        (err = None -> int_rem cents 25 = 0 -> bonus = 25)
        /\ (err = None -> int_rem cents 25 <> 0 -> bonus = 0)
        /\ (err <> None -> bonus = 0)
        /\ (Total receipt = "35.25"%string -> bonus = 25)
        /\ (Total receipt = "35.10"%string -> bonus = 0)
        /\ calculatePoints receipt
           = Ok (int_wrap (rule1_amount receipt + rule2_amount receipt + bonus
                           + rule4_amount receipt + rule5_amount receipt
                           + rule6_amount receipt + rule7_amount receipt))).
Proof.
  cbv zeta.
  assert (Hconv : forall f z, float64_trunc f = Some z -> in_range z ->
                              int_of_float64 f = z).
  { intros f z Hz [Hlo Hhi]. unfold int_of_float64. rewrite Hz.
    apply Z.leb_le in Hlo, Hhi. now rewrite Hlo, Hhi. }
  assert (H3525 : Total receipt = "35.25"%string ->
                  snd (strconv.ParseFloat (Total receipt) 64) = None
                  /\ int_of_float64
                       (float64_mul (fst (strconv.ParseFloat (Total receipt) 64))
                                    (float64_const 100 1)) = 3525).
  { intros ->. split; [vm_compute; reflexivity|].
    apply Hconv; [vm_compute; reflexivity|].
    unfold in_range, MinInt, MaxInt. lia. }
  assert (H3510 : Total receipt = "35.10"%string ->
                  snd (strconv.ParseFloat (Total receipt) 64) = None
                  /\ int_of_float64
                       (float64_mul (fst (strconv.ParseFloat (Total receipt) 64))
                                    (float64_const 100 1)) = 3510).
  { intros ->. split; [vm_compute; reflexivity|].
    apply Hconv; [vm_compute; reflexivity|].
    unfold in_range, MinInt, MaxInt. lia. }
  assert (Hrule : forall p,
             rule3 receipt p
             = if is_nil (snd (strconv.ParseFloat (Total receipt) 64))
                  && (int_rem (int_of_float64
                                 (float64_mul (fst (strconv.ParseFloat (Total receipt) 64))
                                              (float64_const 100 1))) 25 =? 0)
               then int_add p 25 else p).
  { intros p. unfold rule3.
    now destruct (strconv.ParseFloat (Total receipt) 64) as [f err]. }
  pose proof (rule3_amount_cents receipt) as Hamount.
  destruct (strconv.ParseFloat (Total receipt) 64) as [f err]. cbn [fst snd] in *.
  split; [|split; [|split; [|split; [|split; [|split; [|split; [|split]]]]]]].
  - intros -> Hrem. rewrite Hrule, Hrem. reflexivity.
  - intros -> Hrem. apply Z.eqb_neq in Hrem. rewrite Hrule, Hrem. reflexivity.
  - intros Herr. rewrite Hrule. destruct err; [reflexivity|congruence].
  - intros Htotal. destruct (H3525 Htotal) as [-> Hc]. rewrite Hrule, Hc. reflexivity.
  - intros Htotal. destruct (H3510 Htotal) as [-> Hc]. rewrite Hrule, Hc. reflexivity.
  - intros v Hv Hrange. apply Hconv; [now apply float64_trunc_Q|exact Hrange].
  - exact H3525.
  - exact H3510.
  - intros Hlen. exists (rule3_amount receipt).
    split; [|split; [|split; [|split; [|split]]]].
    + intros -> Hrem. rewrite Hamount, Hrem. reflexivity.
    + intros -> Hrem. apply Z.eqb_neq in Hrem. rewrite Hamount, Hrem. reflexivity.
    + intros Herr. rewrite Hamount. destruct err; [reflexivity|congruence].
    + intros Htotal. destruct (H3525 Htotal) as [-> Hc]. rewrite Hamount, Hc. reflexivity.
    + intros Htotal. destruct (H3510 Htotal) as [-> Hc]. rewrite Hamount, Hc. reflexivity.
    + exact (calculatePoints_amounts receipt Hlen).
Qed.

End Sum.

(** ** The date and the time *)

Lemma str_take_all (a : string) : str_take (String.length a) a = a.
Proof. induction a as [|c t IH]; [reflexivity|]. cbn [String.length str_take]. now rewrite IH. Qed.

Lemma CountByte_app (s1 s2 : string) (c : ascii) :
  strings.CountByte (s1 +:+ s2) c = strings.CountByte s1 c + strings.CountByte s2 c.
Proof.
  induction s1 as [|c1 t IH]; [reflexivity|].
  change (String c1 t +:+ s2) with (String c1 (t +:+ s2)).
  cbn [strings.CountByte]. rewrite IH. lia.
Qed.

Lemma CountByte_bounds (s : string) (c : ascii) : 0 <= strings.CountByte s c <= len s.
Proof.
  unfold len. induction s as [|c1 t IH]; cbn [strings.CountByte String.length]; [lia|].
  destruct (Ascii.eqb c1 c); lia.
Qed.

Lemma HasPrefix_byte (c1 c : ascii) (t : string) :
  strings.HasPrefix (String c1 t) (String c EmptyString) = Ascii.eqb c1 c.
Proof.
  unfold strings.HasPrefix. cbn [String.prefix].
  destruct (ascii_dec c c1) as [->|Hne].
  - rewrite Ascii.eqb_refl. now destruct t.
  - symmetry. apply Ascii.eqb_neq. congruence.
Qed.

(** The first instance of a byte comes after a prefix that does not
    hold it. *)
Lemma Index_from_byte (a rest : string) (c : ascii) (i : Z) :
  strings.CountByte a c = 0 ->
  strings.Index_from (a +:+ String c rest) (String c EmptyString) i = i + len a.
Proof.
  revert i. induction a as [|c1 t IH]; intros i Hfree.
  - change (EmptyString +:+ String c rest) with (String c rest).
    cbn [strings.Index_from]. rewrite HasPrefix_byte, Ascii.eqb_refl.
    unfold len. simpl. lia.
  - change (String c1 t +:+ String c rest) with (String c1 (t +:+ String c rest)).
    cbn [strings.Index_from strings.CountByte] in *.
    rewrite HasPrefix_byte.
    pose proof (CountByte_bounds t c) as Hb.
    destruct (Ascii.eqb c1 c); [lia|].
    rewrite IH by lia. unfold len. cbn [String.length]. lia.
Qed.

Lemma Split_byte_loop (s : string) (c : ascii) :
  strings.Split s (String c EmptyString)
  = strings.genSplit_loop (Z.to_nat (strings.CountByte s c)) s (String c EmptyString) 0.
Proof.
  unfold strings.Split, strings.genSplit.
  change (-1 =? 0) with false. change (-1 <? 0) with true.
  change (String.eqb (String c "") "") with false. cbv iota.
  cbn [strings.Count].
  pose proof (CountByte_bounds s c) as Hb.
  destruct (Z.ltb_spec (len s + 1) (strings.CountByte s c + 1)); [lia|].
  f_equal. lia.
Qed.

(** A string that does not hold the separator is not split. *)
Lemma Split_byte_none (a : string) (c : ascii) :
  strings.CountByte a c = 0 ->
  strings.Split a (String c EmptyString) = [a].
Proof. intros Hfree. rewrite Split_byte_loop, Hfree. reflexivity. Qed.

(** [Split] cuts at the first separator and goes on with the rest. *)
Lemma Split_byte_cons (a rest : string) (c : ascii) :
  strings.CountByte a c = 0 ->
  strings.Split (a +:+ String c rest) (String c EmptyString)
  = a :: strings.Split rest (String c EmptyString).
Proof.
  intros Hfree. rewrite !Split_byte_loop, CountByte_app, Hfree.
  cbn [strings.CountByte]. rewrite Ascii.eqb_refl.
  pose proof (CountByte_bounds rest c) as Hb.
  replace (Z.to_nat (0 + (1 + strings.CountByte rest c)))
    with (S (Z.to_nat (strings.CountByte rest c))) by lia.
  cbn [strings.genSplit_loop]. unfold strings.Index.
  rewrite Index_from_byte by assumption.
  assert (Hlen : 0 <= len a) by (unfold len; lia).
  destruct (Z.ltb_spec (0 + len a) 0); [lia|].
  f_equal.
  - replace (Z.to_nat (0 + len a + 0)) with (String.length a) by (unfold len; lia).
    rewrite str_take_app by lia. apply str_take_all.
  - f_equal.
    replace (Z.to_nat (0 + len a + len (String c ""))) with (S (String.length a))
      by (unfold len; simpl; lia).
    clear. induction a as [|c1 t IH]; [reflexivity|]. exact IH.
Qed.

Lemma Split_byte_length (c : ascii) (n : nat) :
  forall s, String.length s = n ->
    Z.of_nat (length (strings.Split s (String c EmptyString)))
    = strings.CountByte s c + 1.
Proof.
  induction n as [n IH] using lt_wf_ind. intros s Hn.
  assert (Hdec : strings.CountByte s c = 0
                 \/ exists a rest, s = a +:+ String c rest /\ strings.CountByte a c = 0).
  { clear. induction s as [|c1 t IH]; [now left|].
    cbn [strings.CountByte]. destruct (Ascii.eqb_spec c1 c) as [->|Hne].
    - right. exists EmptyString, t. split; reflexivity.
    - destruct IH as [Hz|(a & rest & -> & Ha)].
      + left. lia.
      + right. exists (String c1 a), rest. split; [reflexivity|].
        cbn [strings.CountByte]. destruct (Ascii.eqb_spec c1 c); [contradiction|lia]. }
  destruct Hdec as [Hz|(a & rest & -> & Ha)].
  - rewrite Split_byte_none by assumption. simpl. lia.
  - rewrite Split_byte_cons by assumption. cbn [length].
    rewrite Nat2Z.inj_succ, (IH (String.length rest)); [|rewrite <- Hn, append_length; simpl; lia|reflexivity].
    rewrite CountByte_app, Ha. cbn [strings.CountByte]. rewrite Ascii.eqb_refl. lia.
Qed.

Lemma atoi_fast_app (s1 s2 : string) :
  forall n, strconv.atoi_fast (s1 +:+ s2) n
            = match strconv.atoi_fast s1 n with
              | Some v => strconv.atoi_fast s2 v
              | None => None
              end.
Proof.
  induction s1 as [|c t IH]; intros n; [reflexivity|].
  change (String c t +:+ s2) with (String c (t +:+ s2)).
  cbn [strconv.atoi_fast]. destruct (9 <? _); [reflexivity|]. apply IH.
Qed.

Lemma is_digit_value (c : ascii) :
  strconv.is_digit (byte_val c) = true ->
  (byte_val c - strconv.ch "0") mod 256 = byte_val c - 48
  /\ 0 <= byte_val c - 48 <= 9.
Proof.
  unfold strconv.is_digit, strconv.ch.
  change (byte_val "0") with 48. change (byte_val "9") with 57.
  rewrite andb_true_iff, !Z.leb_le. intros [Hlo Hhi].
  set (b := byte_val c) in *. clearbody b.
  rewrite Z.mod_small; lia.
Qed.

Lemma atoi_fast_digits (s : string) :
  all_digits s = true ->
  forall n, 0 <= n -> exists v, strconv.atoi_fast s n = Some v /\ 0 <= v.
Proof.
  induction s as [|c t IH]; intros Hd n Hn; [exists n; now split|].
  cbn [all_digits] in Hd. apply andb_prop in Hd as [Hc Ht].
  cbn [strconv.atoi_fast].
  destruct (is_digit_value c Hc) as [-> Hr].
  destruct (Z.ltb_spec 9 (byte_val c - 48)); [lia|].
  apply IH; [assumption|]. set (b := byte_val c) in *. clearbody b. lia.
Qed.

(** [Atoi] on one to eighteen digits: ten times the value of the digits
    before the last one, plus the last one. *)
Lemma Atoi_digits (d0 : string) (c : ascii) :
  all_digits d0 = true ->
  strconv.is_digit (byte_val c) = true ->
  len d0 < 18 ->
  exists v, 0 <= v
            /\ strconv.Atoi (d0 +:+ String c EmptyString)
               = (10 * v + (byte_val c - 48), None).
Proof.
  intros Hd0 Hc Hlen.
  destruct (atoi_fast_digits d0 Hd0 0 ltac:(lia)) as (v & Hv & Hv0).
  exists v. split; [assumption|].
  assert (Hfast : strconv.atoi_fast (d0 +:+ String c "") 0
                  = Some (10 * v + (byte_val c - 48))).
  { rewrite atoi_fast_app, Hv. cbn [strconv.atoi_fast].
    destruct (is_digit_value c Hc) as [-> Hr].
    destruct (Z.ltb_spec 9 (byte_val c - 48)); [lia|]. f_equal. lia. }
  unfold strconv.Atoi.
  assert (Hl : len (d0 +:+ String c "") = len d0 + 1).
  { unfold len. rewrite append_length. simpl. lia. }
  rewrite Hl.
  assert (0 <= len d0) by (unfold len; lia).
  destruct (Z.ltb_spec 0 (len d0 + 1)); [|lia].
  destruct (Z.ltb_spec (len d0 + 1) 19); [|lia].
  cbn [andb].
  assert (Hfirst : exists c0 t, d0 +:+ String c "" = String c0 t
                                /\ strconv.is_digit (byte_val c0) = true).
  { destruct d0 as [|c0 t].
    - exists c, EmptyString. now split.
    - exists c0, (t +:+ String c ""). split; [reflexivity|].
      cbn [all_digits] in Hd0. now apply andb_prop in Hd0 as [? _]. }
  destruct Hfirst as (c0 & t & Heq & Hc0). rewrite Heq in *.
  assert (Hsign : (byte_val c0 =? strconv.ch "-") = false
                  /\ (byte_val c0 =? strconv.ch "+") = false).
  { destruct (is_digit_value c0 Hc0) as [_ Hr].
    unfold strconv.ch. change (byte_val "-") with 45. change (byte_val "+") with 43.
    set (b := byte_val c0) in *. clearbody b. split; apply Z.eqb_neq; lia. }
  destruct Hsign as [-> ->]. cbn [orb andb]. now rewrite Hfast.
Qed.

Lemma append_byte (c : ascii) (s : string) :
  String c EmptyString +:+ s = String c s.
Proof. reflexivity. Qed.

(** X6.  Rule 6 adds nothing, and does not panic, when the purchase
    date does not hold exactly two hyphens.  When it does, only what
    follows the second hyphen counts: six points if [Atoi] reads it as an
    odd number, whatever stands for the year and the month.  For a day of
    one to eighteen digits this is the case exactly when its last digit
    is odd. *)
Theorem rule6_date_parts (receipt : Receipt) (points : Z) :
  (strings.CountByte (PurchaseDate receipt) "-" <> 2 ->
   rule6 receipt points = Ok points)
  /\ (forall y m d,
        PurchaseDate receipt = y +:+ "-" +:+ m +:+ "-" +:+ d ->
        strings.CountByte y "-" = 0 ->
        strings.CountByte m "-" = 0 ->
        strings.CountByte d "-" = 0 ->
        rule6 receipt points
        = Ok (if is_nil (snd (strconv.Atoi d)) && (int_rem (fst (strconv.Atoi d)) 2 =? 1)
              then int_add points 6 else points))
  /\ (forall y m d0 c,
        PurchaseDate receipt = y +:+ "-" +:+ m +:+ "-" +:+ d0 +:+ String c EmptyString ->
        strings.CountByte y "-" = 0 ->
        strings.CountByte m "-" = 0 ->
        all_digits d0 = true ->
        strconv.is_digit (byte_val c) = true ->
        len d0 < 18 ->
        rule6 receipt points
        = Ok (if Z.odd (byte_val c - 48) then int_add points 6 else points)).
Proof.
  assert (Hparts : forall y m d,
             PurchaseDate receipt = y +:+ "-" +:+ m +:+ "-" +:+ d ->
             strings.CountByte y "-" = 0 ->
             strings.CountByte m "-" = 0 ->
             strings.CountByte d "-" = 0 ->
             rule6 receipt points
             = Ok (if is_nil (snd (strconv.Atoi d))
                      && (int_rem (fst (strconv.Atoi d)) 2 =? 1)
                   then int_add points 6 else points)).
  { intros y m d Hdate Hy Hm Hd. unfold rule6. rewrite Hdate.
    change ("-" +:+ m +:+ "-" +:+ d) with (String "-" (m +:+ String "-" d)).
    rewrite (Split_byte_cons y _ "-" Hy), (Split_byte_cons m _ "-" Hm),
      (Split_byte_none d "-" Hd).
    cbn [length Z.of_nat Z.eqb Pos.eqb Pos.of_succ_nat Pos.succ index_at nth_error
         mbind result_bind].
    now destruct (strconv.Atoi d) as [day err]. }
  split; [|split; [exact Hparts|]].
  - intros Hcount. unfold rule6.
    rewrite (Split_byte_length "-" _ _ eq_refl).
    destruct (Z.eqb_spec (strings.CountByte (PurchaseDate receipt) "-" + 1) 3);
      [lia|reflexivity].
  - intros y m d0 c Hdate Hy Hm Hd0 Hc Hlen.
    assert (Hfree : forall s, all_digits s = true -> strings.CountByte s "-" = 0).
    { induction s as [|c1 t IH]; [reflexivity|]. cbn [all_digits strings.CountByte].
      intros Hs. apply andb_prop in Hs as [Hc1 Ht]. rewrite (IH Ht).
      destruct (Ascii.eqb_spec c1 "-") as [->|]; [discriminate|reflexivity]. }
    rewrite (Hparts y m (d0 +:+ String c "") Hdate Hy Hm).
    + destruct (Atoi_digits d0 c Hd0 Hc Hlen) as (v & Hv & ->).
      cbn [fst snd is_nil andb]. f_equal.
      destruct (is_digit_value c Hc) as [_ Hr].
      set (k := byte_val c - 48) in *. clearbody k.
      unfold int_rem. rewrite Z.rem_mod_nonneg by lia.
      replace ((10 * v + k) mod 2) with (k mod 2)
        by (rewrite Z.add_comm, (Z.mul_comm 10 v);
            replace (v * 10) with (v * 5 * 2) by lia; now rewrite Z.mod_add by lia).
      rewrite <- Z.bit0_mod, Z.bit0_odd. now destruct (Z.odd k).
    + apply Hfree. clear -Hd0 Hc.
      induction d0 as [|c1 t IH];
        [change (all_digits (String c "") = true); cbn [all_digits]; now rewrite Hc|].
      change (String c1 t +:+ String c "") with (String c1 (t +:+ String c "")).
      cbn [all_digits] in *. apply andb_prop in Hd0 as [-> Ht]. now apply IH.
Qed.

Lemma Atoi_two_digits (a b : ascii) :
  strconv.is_digit (byte_val a) = true ->
  strconv.is_digit (byte_val b) = true ->
  strconv.Atoi (String a (String b EmptyString))
  = (10 * (byte_val a - 48) + (byte_val b - 48), None).
Proof.
  intros Ha Hb.
  destruct (Atoi_digits (String a "") b) as (v & Hv & Heq);
    [cbn [all_digits]; now rewrite Ha|assumption|vm_compute; reflexivity|].
  change (String a "" +:+ String b "") with (String a (String b "")) in Heq.
  unfold strconv.Atoi in *. cbn [len String.length Z.of_nat] in *.
  change ((0 <? Z.of_nat 2) && (Z.of_nat 2 <? 19)) with true in *. cbv iota in *.
  destruct (is_digit_value a Ha) as [Hea Hra].
  destruct (is_digit_value b Hb) as [Heb Hrb].
  assert (Hsign : (byte_val a =? strconv.ch "-") = false
                  /\ (byte_val a =? strconv.ch "+") = false).
  { unfold strconv.ch. change (byte_val "-") with 45. change (byte_val "+") with 43.
    set (x := byte_val a) in *. clearbody x. split; apply Z.eqb_neq; lia. }
  destruct Hsign as [-> ->]. cbn [orb andb strconv.atoi_fast].
  rewrite Hea. destruct (Z.ltb_spec 9 (byte_val a - 48)); [lia|].
  rewrite Heb. destruct (Z.ltb_spec 9 (byte_val b - 48)); [lia|].
  f_equal. lia.
Qed.

Lemma byte_val_eqb (a c : ascii) : (byte_val a =? byte_val c) = Ascii.eqb a c.
Proof.
  destruct (Ascii.eqb_spec a c) as [->|Hne]; [apply Z.eqb_refl|].
  apply Z.eqb_neq. intros Heq. apply Hne.
  unfold byte_val in Heq. apply N2Z.inj in Heq.
  rewrite <- (ascii_N_embedding a), <- (ascii_N_embedding c). now rewrite Heq.
Qed.

(** X7.  Rule 7 adds nothing, and does not panic, when the purchase
    time does not hold exactly one colon (a time with seconds earns
    nothing).  When it does, only what precedes the colon counts: ten
    points if [Atoi] reads it as 14 or 15, whatever the minutes.  For an
    hour of two digits this is the case exactly when the digits are "14"
    or "15": 14:00 earns the points and 16:00 does not. *)
Theorem rule7_time_parts (receipt : Receipt) (points : Z) :
  (strings.CountByte (PurchaseTime receipt) ":" <> 1 ->
   rule7 receipt points = Ok points)
  /\ (forall h m,
        PurchaseTime receipt = h +:+ ":" +:+ m ->
        strings.CountByte h ":" = 0 ->
        strings.CountByte m ":" = 0 ->
        rule7 receipt points
        = Ok (if is_nil (snd (strconv.Atoi h))
                 && (14 <=? fst (strconv.Atoi h)) && (fst (strconv.Atoi h) <? 16)
              then int_add points 10 else points))
  /\ (forall a b m,
        PurchaseTime receipt = String a (String b (String ":" m)) ->
        strconv.is_digit (byte_val a) = true ->
        strconv.is_digit (byte_val b) = true ->
        strings.CountByte m ":" = 0 ->
        rule7 receipt points
        = Ok (if Ascii.eqb a "1" && (Ascii.eqb b "4" || Ascii.eqb b "5")
              then int_add points 10 else points)).
Proof.
  assert (Hparts : forall h m,
             PurchaseTime receipt = h +:+ ":" +:+ m ->
             strings.CountByte h ":" = 0 ->
             strings.CountByte m ":" = 0 ->
             rule7 receipt points
             = Ok (if is_nil (snd (strconv.Atoi h))
                      && (14 <=? fst (strconv.Atoi h)) && (fst (strconv.Atoi h) <? 16)
                   then int_add points 10 else points)).
  { intros h m Htime Hh Hm. unfold rule7. rewrite Htime.
    change (":" +:+ m) with (String ":" m).
    rewrite (Split_byte_cons h _ ":" Hh), (Split_byte_none m ":" Hm).
    cbn [length Z.of_nat Z.eqb Pos.eqb Pos.of_succ_nat Pos.succ index_at nth_error
         mbind result_bind].
    now destruct (strconv.Atoi h) as [hour err]. }
  split; [|split; [exact Hparts|]].
  - intros Hcount. unfold rule7.
    rewrite (Split_byte_length ":" _ _ eq_refl).
    destruct (Z.eqb_spec (strings.CountByte (PurchaseTime receipt) ":" + 1) 2);
      [lia|reflexivity].
  - intros a b m Htime Ha Hb Hm.
    rewrite (Hparts (String a (String b "")) m Htime).
    + rewrite (Atoi_two_digits a b Ha Hb). cbn [fst snd is_nil andb]. f_equal.
      rewrite <- !byte_val_eqb.
      change (byte_val "1") with 49. change (byte_val "4") with 52.
      change (byte_val "5") with 53.
      destruct (is_digit_value a Ha) as [_ Hra].
      destruct (is_digit_value b Hb) as [_ Hrb].
      set (x := byte_val a) in *. set (y := byte_val b) in *. clearbody x y.
      destruct (Z.leb_spec 14 (10 * (x - 48) + (y - 48)));
        destruct (Z.ltb_spec (10 * (x - 48) + (y - 48)) 16);
        destruct (Z.eqb_spec x 49); destruct (Z.eqb_spec y 52);
        destruct (Z.eqb_spec y 53); cbn [andb orb]; try reflexivity; lia.
    + cbn [strings.CountByte].
      destruct (Ascii.eqb_spec a ":") as [->|]; [discriminate|].
      destruct (Ascii.eqb_spec b ":") as [->|]; [discriminate|reflexivity].
    + exact Hm.
Qed.

(** ** Rule 3 on whole quarters *)

(** ** Exact quotients and products of [float64] *)

Lemma iter_pos_comm {A : Type} (f : A -> A) (p : positive) :
  forall x, SpecFloat.iter_pos f p (f x) = f (SpecFloat.iter_pos f p x).
Proof.
  induction p as [p IH|p IH|]; intros x; cbn [SpecFloat.iter_pos]; [|now rewrite !IH|reflexivity].
  now rewrite !IH.
Qed.

Lemma iter_pos_succ {A : Type} (f : A -> A) (p : positive) (x : A) :
  SpecFloat.iter_pos f (Pos.succ p) x = SpecFloat.iter_pos f p (f x).
Proof.
  revert x. induction p as [p IH|p IH|]; intros x.
  - change (Pos.succ p~1) with ((Pos.succ p)~0)%positive.
    cbn [SpecFloat.iter_pos]. rewrite !IH. now rewrite <- !iter_pos_comm.
  - reflexivity.
  - reflexivity.
Qed.

(** Shifting out the zeros at the end of a mantissa loses nothing. *)
Lemma iter_shr_1_exact (p Q : positive) :
  SpecFloat.iter_pos shr_1 p {| shr_m := Zpos (Pos.iter xO Q p); shr_r := false; shr_s := false |}
  = {| shr_m := Zpos Q; shr_r := false; shr_s := false |}.
Proof.
  induction p as [|p IH] using Pos.peano_ind; [reflexivity|].
  rewrite iter_pos_succ, Pos.iter_succ. cbn [shr_1 orb]. exact IH.
Qed.

Lemma binary_round_aux_shift (s : bool) (Q p : positive) (e : Z) :
  Zpos (digits2_pos Q) = 53 -> -1074 <= e + Zpos p <= 971 ->
  binary_round_aux 53 1024 s (Zpos (Pos.iter xO Q p)) e loc_Exact
  = S754_finite s Q (e + Zpos p).
Proof.
  intros Hd He.
  unfold binary_round_aux, shr_fexp, fexp, emin.
  cbn [Zdigits2]. rewrite digits2_pos_iter_xO, Pos2Z.inj_add, Hd.
  replace (Z.max (53 + Zpos p + e - 53) (3 - 1024 - 53) - e) with (Zpos p) by lia.
  cbn [shr shr_record_of_loc]. rewrite iter_shr_1_exact.
  cbn [shr_m loc_of_shr_record round_nearest_even Zdigits2]. rewrite Hd.
  replace (Z.max (53 + (e + Zpos p) - 53) (3 - 1024 - 53) - (e + Zpos p)) with 0 by lia.
  cbn [shr shr_record_of_loc shr_m].
  replace (e + Zpos p <=? 1024 - 53) with true by (symmetry; apply Z.leb_le; lia).
  reflexivity.
Qed.

Lemma digits2_pos_eq (q : positive) (d : Z) :
  2 ^ (d - 1) <= Zpos q < 2 ^ d -> Zpos (digits2_pos q) = d.
Proof.
  intros [Hlo Hhi].
  pose proof (digits2_pos_lower q) as Hl. pose proof (digits2_pos_upper q) as Hu.
  assert (Hd : 0 < d).
  { destruct (Z_lt_le_dec 0 d) as [|Hn]; [assumption|exfalso].
    assert (2 ^ d <= 2 ^ 0) by (apply Z.pow_le_mono_r; lia). simpl in *. lia. }
  destruct (Z.lt_trichotomy (Zpos (digits2_pos q)) d) as [Hlt|[Heq|Hgt]]; [|exact Heq|].
  - exfalso.
    assert (2 ^ Zpos (digits2_pos q) <= 2 ^ (d - 1)) by (apply Z.pow_le_mono_r; lia). lia.
  - exfalso.
    assert (2 ^ d <= 2 ^ (Zpos (digits2_pos q) - 1)) by (apply Z.pow_le_mono_r; lia). lia.
Qed.

Lemma div_eucl_pair (a b : Z) : Z.div_eucl a b = (a / b, a mod b).
Proof. unfold Z.div, Z.modulo. now destruct (Z.div_eucl a b). Qed.

Lemma pow2_split (a b : Z) : 0 <= a -> 0 <= b -> 2 ^ (a + b) = 2 ^ a * 2 ^ b.
Proof. intros. now apply Z.pow_add_r. Qed.

(** The quotient of a multiple of 25 by 100 is a number of quarters,
    and a [float64] holds it exactly. *)
Lemma round_ratio_quarter (m : positive) (K : Z) :
  Zpos m = 25 * K -> Zpos m < 2 ^ 50 ->
  exists (P : positive) (n : Z),
    (n = 0 \/ n = 1)
    /\ round_ratio prec64 emax64 false m 100
       = S754_finite false P (n - (60 - Zpos (digits2_pos m)))
    /\ Zpos P * 2 ^ n = K * 2 ^ (58 - Zpos (digits2_pos m)).
Proof.
  intros Hm Hlt.
  pose proof (digits2_pos_lower m) as Hl. pose proof (digits2_pos_upper m) as Hu.
  set (d1 := Zpos (digits2_pos m)) in *.
  assert (Hd1 : 1 <= d1 <= 50).
  { split; [subst d1; lia|].
    destruct (Z_le_gt_dec d1 50) as [|Hgt]; [assumption|exfalso].
    assert (2 ^ 50 <= 2 ^ (d1 - 1)) by (apply Z.pow_le_mono_r; lia). lia. }
  assert (HK : 0 < K) by lia.
  unfold round_ratio, SFdiv_core_binary, prec64, emax64.
  cbn [Zdigits2]. fold d1.
  change (Zpos (digits2_pos 100)) with 7.
  replace (Z.min (fexp 53 1024 (d1 + 0 - (7 + 0))) (0 - 0)) with (d1 - 60)
    by (unfold fexp, emin; lia).
  replace (0 - 0 - (d1 - 60)) with (60 - d1) by lia.
  destruct (60 - d1) as [|sp|sp] eqn:Hs; try lia.
  rewrite Z.shiftl_mul_pow2 by lia. rewrite div_eucl_pair.
  assert (Hpow : 2 ^ Zpos sp = 4 * 2 ^ (58 - d1)).
  { replace (Zpos sp) with (2 + (58 - d1)) by lia.
    rewrite pow2_split by lia. reflexivity. }
  set (X := 2 ^ (58 - d1)) in *.
  assert (HX : 0 < X) by (apply Z.pow_pos_nonneg; lia).
  assert (Hprod : Zpos m * 2 ^ Zpos sp = K * X * 100) by (rewrite Hpow; lia).
  rewrite Hprod, Z.div_mul, Z.mod_mul by lia.
  change (new_location 100 0) with loc_Exact.
  (* the quotient has 53 or 54 digits *)
  assert (Hq : 2 ^ 52 <= K * X < 2 ^ 54).
  { assert (Hlo : 2 ^ 59 <= Zpos m * 2 ^ Zpos sp).
    { replace 59 with ((d1 - 1) + Zpos sp) by lia. rewrite pow2_split by lia.
      apply Z.mul_le_mono_nonneg_r; [apply Z.pow_nonneg; lia|exact Hl]. }
    assert (Hhi : Zpos m * 2 ^ Zpos sp < 2 ^ 60).
    { replace 60 with (d1 + Zpos sp) by lia. rewrite pow2_split by lia.
      apply Z.mul_lt_mono_pos_r; [apply Z.pow_pos_nonneg; lia|exact Hu]. }
    rewrite Hprod in Hlo, Hhi.
    change (2 ^ 59) with 576460752303423488 in Hlo.
    change (2 ^ 60) with 1152921504606846976 in Hhi.
    change (2 ^ 52) with 4503599627370496. change (2 ^ 54) with 18014398509481984.
    lia. }
  destruct (K * X) as [|q|q] eqn:Hqeq; try lia.
  destruct (Z_lt_ge_dec (Zpos q) (2 ^ 53)) as [H53|H54].
  - exists q, 0. split; [now left|].
    rewrite (binary_round_aux_exact false q (d1 - 60)).
    + split; [f_equal; lia|]. rewrite Z.mul_1_r. reflexivity.
    + apply digits2_pos_eq. change (53 - 1) with 52. lia.
    + lia.
  - assert (Heven : exists Q, q = xO Q).
    { assert (HX2 : X = 2 * 2 ^ (57 - d1)).
      { unfold X. replace (58 - d1) with (1 + (57 - d1)) by lia.
        rewrite pow2_split by lia. reflexivity. }
      destruct q as [r|Q|]; [exfalso|now exists Q|exfalso].
      - rewrite Pos2Z.inj_xI in Hqeq. rewrite HX2 in Hqeq. lia.
      - change (2 ^ 53) with 9007199254740992 in H54. lia. }
    destruct Heven as [Q ->].
    exists Q, 1. split; [now right|].
    change (Zpos Q~0) with (Zpos (Pos.iter xO Q 1)).
    rewrite (binary_round_aux_shift false Q 1 (d1 - 60)).
    + split; [f_equal; lia|]. change (2 ^ 1) with 2. change (Pos.iter xO Q 1) with (xO Q). rewrite (Pos2Z.inj_xO Q). lia.
    + assert (Hd : Zpos (digits2_pos Q~0) = 54)
        by (apply digits2_pos_eq; change (54 - 1) with 53; lia).
      cbn [digits2_pos] in Hd. lia.
    + lia.
Qed.

(** A whole number of quarters below 2^50 cents, divided by 100 and
    multiplied by 100 in [float64], is the number of cents again. *)
Lemma quarter_cents_exact (m : positive) (K : Z) :
  Zpos m = 25 * K -> Zpos m < 2 ^ 50 ->
  float64_trunc (float64_mul (round_ratio prec64 emax64 false m 100) (float64_const 100 1))
  = Some (Zpos m).
Proof.
  intros Hm Hlt.
  destruct (round_ratio_quarter m K Hm Hlt) as (P & n & Hn & -> & HP).
  pose proof (digits2_pos_lower m) as Hl.
  set (d1 := Zpos (digits2_pos m)) in *.
  assert (Hd1 : 1 <= d1 <= 50).
  { split; [subst d1; lia|].
    destruct (Z_le_gt_dec d1 50) as [|Hgt]; [assumption|exfalso].
    assert (2 ^ 50 <= 2 ^ (d1 - 1)) by (apply Z.pow_le_mono_r; lia). lia. }
  assert (Hc : float64_const 100 1 = S754_finite false 7036874417766400 (-46))
    by (vm_compute; reflexivity).
  rewrite Hc. unfold float64_mul, SFmul, prec64, emax64. cbn [xorb].
  destruct (53 - d1) as [|ap|ap] eqn:Ha; try lia.
  destruct (53 - n) as [|pp|pp] eqn:Hp; try lia.
  assert (Hprod : (P * 7036874417766400)%positive = Pos.iter xO (Pos.iter xO m ap) pp).
  { apply Pos2Z.inj. rewrite Pos2Z.inj_mul, !Zpos_iter_xO, Hm.
    assert (Hpow : 2 ^ (58 - d1) = 32 * 2 ^ Zpos ap).
    { replace (58 - d1) with (5 + Zpos ap) by lia.
      rewrite pow2_split by lia. reflexivity. }
    rewrite Hpow in HP. set (A := 2 ^ Zpos ap) in *.
    destruct Hn as [-> | ->].
    - replace (Zpos pp) with 53 by lia.
      change (2 ^ 53) with 9007199254740992. change (2 ^ 0) with 1 in HP. lia.
    - replace (Zpos pp) with 52 by lia.
      change (2 ^ 52) with 4503599627370496. change (2 ^ 1) with 2 in HP. lia. }
  rewrite Hprod.
  rewrite (binary_round_aux_shift false (Pos.iter xO m ap) pp).
  - replace (n - (60 - d1) + -46 + Zpos pp) with (Zneg ap) by lia.
    cbn [float64_trunc]. rewrite Zpos_iter_xO.
    rewrite <- (Pos2Z.opp_pos ap), Z.shiftl_opp_r, Z.shiftr_div_pow2 by lia.
    now rewrite Z.div_mul by lia.
  - rewrite digits2_pos_iter_xO, Pos2Z.inj_add. fold d1. lia.
  - lia.
Qed.

(** ** [ParseFloat] on dollars and cents *)

Lemma digit_range (c : ascii) :
  strconv.is_digit (byte_val c) = true -> 48 <= byte_val c <= 57.
Proof. intros Hc. destruct (is_digit_value c Hc). lia. Qed.

Lemma len_String (c : ascii) (s : string) : len (String c s) = len s + 1.
Proof. unfold len. cbn [String.length]. lia. Qed.

(** The mantissa loop of [readFloat] on a run of digits: the digits are
    accumulated as [Atoi] does, and the point moves with them. *)
Lemma read_mantissa_digits (F rest : string) :
  all_digits F = true ->
  forall st,
    0 <= strconv.nd st ->
    (strconv.nd st = 0 -> strconv.mantissa st = 0) ->
    exists v nd',
      strconv.atoi_fast F (strconv.mantissa st) = Some v
      /\ strconv.read_mantissa 10 (F +:+ rest) st
         = strconv.read_mantissa 10 rest
             {| strconv.mantissa := v;
                strconv.nd := nd';
                strconv.dp := strconv.dp st + (nd' - strconv.nd st) - len F;
                strconv.sawdot := strconv.sawdot st;
                strconv.sawdigits :=
                  match F with EmptyString => strconv.sawdigits st | _ => true end;
                strconv.underscores := strconv.underscores st |}
      /\ strconv.nd st <= nd'
      /\ (nd' = 0 -> v = 0).
Proof.
  induction F as [|c t IH]; intros HF st Hnd Hzero.
  - exists (strconv.mantissa st), (strconv.nd st).
    split; [reflexivity|]. split; [|split; [lia|exact Hzero]].
    change (EmptyString +:+ rest) with rest. f_equal.
    destruct st as [mt n d sd sg us]. cbn. f_equal. unfold len. simpl. lia.
  - cbn [all_digits] in HF. apply andb_prop in HF as [Hc Ht].
    pose proof (digit_range c Hc) as Hr.
    destruct (is_digit_value c Hc) as [Hmod _].
    change (String c t +:+ rest) with (String c (t +:+ rest)).
    cbn [strconv.read_mantissa strconv.atoi_fast]. rewrite Hmod, Hc.
    unfold strconv.ch.
    change (byte_val "_") with 95. change (byte_val ".") with 46.
    change (byte_val "0") with 48.
    destruct (Z.eqb_spec (byte_val c) 95); [lia|].
    destruct (Z.eqb_spec (byte_val c) 46); [lia|].
    destruct (Z.ltb_spec 9 (byte_val c - 48)); [lia|].
    destruct (Z.eqb_spec (byte_val c) 48) as [Hc0|Hc0];
      [destruct (Z.eqb_spec (strconv.nd st) 0) as [Hn0|Hn0]|]; cbn [andb].
    + (* a zero before the first digit that counts *)
      set (st1 := {| strconv.mantissa := strconv.mantissa st;
                     strconv.nd := strconv.nd st;
                     strconv.dp := strconv.dp st - 1;
                     strconv.sawdot := strconv.sawdot st;
                     strconv.sawdigits := true;
                     strconv.underscores := strconv.underscores st |}).
      destruct (IH Ht st1 Hnd Hzero) as (v & nd' & Hv & Hread & Hle & Hz).
      exists v, nd'. cbn [st1 strconv.mantissa] in Hv.
      split; [rewrite (Hzero Hn0) in Hv |- *; rewrite Hc0; exact Hv|].
      split; [|split; [exact Hle|exact Hz]].
      rewrite Hread. f_equal. cbn [st1 strconv.mantissa strconv.nd strconv.dp
        strconv.sawdot strconv.sawdigits strconv.underscores].
      rewrite len_String.
      replace (match t with EmptyString => true | String _ _ => true end) with true
        by now destruct t.
      f_equal. lia.
    + set (st1 := {| strconv.mantissa := strconv.mantissa st * 10 + (byte_val c - 48);
                     strconv.nd := strconv.nd st + 1;
                     strconv.dp := strconv.dp st;
                     strconv.sawdot := strconv.sawdot st;
                     strconv.sawdigits := true;
                     strconv.underscores := strconv.underscores st |}).
      destruct (IH Ht st1 ltac:(cbn; lia) ltac:(cbn; lia))
        as (v & nd' & Hv & Hread & Hle & Hz).
      exists v, nd'. cbn [st1 strconv.mantissa strconv.nd] in Hv, Hle.
      split; [exact Hv|]. split; [|split; [lia|exact Hz]].
      rewrite Hread. f_equal. cbn [st1 strconv.mantissa strconv.nd strconv.dp
        strconv.sawdot strconv.sawdigits strconv.underscores].
      rewrite len_String.
      replace (match t with EmptyString => true | String _ _ => true end) with true
        by now destruct t.
      f_equal. lia.
    + set (st1 := {| strconv.mantissa := strconv.mantissa st * 10 + (byte_val c - 48);
                     strconv.nd := strconv.nd st + 1;
                     strconv.dp := strconv.dp st;
                     strconv.sawdot := strconv.sawdot st;
                     strconv.sawdigits := true;
                     strconv.underscores := strconv.underscores st |}).
      destruct (IH Ht st1 ltac:(cbn; lia) ltac:(cbn; lia))
        as (v & nd' & Hv & Hread & Hle & Hz).
      exists v, nd'. cbn [st1 strconv.mantissa strconv.nd] in Hv, Hle.
      split; [exact Hv|]. split; [|split; [lia|exact Hz]].
      rewrite Hread. f_equal. cbn [st1 strconv.mantissa strconv.nd strconv.dp
        strconv.sawdot strconv.sawdigits strconv.underscores].
      rewrite len_String.
      replace (match t with EmptyString => true | String _ _ => true end) with true
        by now destruct t.
      f_equal. lia.
Qed.

Lemma read_mantissa_point (rest : string) (st : strconv.digits) :
  strconv.sawdot st = false ->
  strconv.read_mantissa 10 (String "." rest) st
  = strconv.read_mantissa 10 rest
      {| strconv.mantissa := strconv.mantissa st; strconv.nd := strconv.nd st;
         strconv.dp := strconv.nd st; strconv.sawdot := true;
         strconv.sawdigits := strconv.sawdigits st;
         strconv.underscores := strconv.underscores st |}.
Proof.
  intros Hdot. cbn [strconv.read_mantissa].
  change (byte_val "." =? strconv.ch "_") with false.
  change (byte_val "." =? strconv.ch ".") with true. cbv iota.
  now rewrite Hdot.
Qed.

Lemma read_mantissa_dollars_cents (D : string) (c1 c2 : ascii) :
  all_digits D = true ->
  strconv.is_digit (byte_val c1) = true ->
  strconv.is_digit (byte_val c2) = true ->
  exists v nd2,
    strconv.atoi_fast (D +:+ String c1 (String c2 EmptyString)) 0 = Some v
    /\ strconv.read_mantissa 10 (D +:+ String "." (String c1 (String c2 EmptyString)))
         {| strconv.mantissa := 0; strconv.nd := 0; strconv.dp := 0;
            strconv.sawdot := false; strconv.sawdigits := false;
            strconv.underscores := false |}
       = ({| strconv.mantissa := v; strconv.nd := nd2; strconv.dp := nd2 - 2;
             strconv.sawdot := true; strconv.sawdigits := true;
             strconv.underscores := false |}, EmptyString).
Proof.
  intros HD Hc1 Hc2.
  set (st0 := {| strconv.mantissa := 0; strconv.nd := 0; strconv.dp := 0;
                 strconv.sawdot := false; strconv.sawdigits := false;
                 strconv.underscores := false |}).
  destruct (read_mantissa_digits D (String "." (String c1 (String c2 EmptyString)))
              HD st0 ltac:(cbn; lia) ltac:(reflexivity))
    as (v1 & nd1 & Hv1 & Hread1 & Hle1 & Hz1).
  cbn [st0 strconv.mantissa strconv.nd strconv.dp strconv.sawdot strconv.sawdigits
       strconv.underscores] in Hv1, Hread1, Hle1.
  rewrite Hread1, read_mantissa_point by reflexivity.
  cbn [strconv.mantissa strconv.nd strconv.dp strconv.sawdot strconv.sawdigits
       strconv.underscores].
  set (st2 := {| strconv.mantissa := v1; strconv.nd := nd1; strconv.dp := nd1;
                 strconv.sawdot := true;
                 strconv.sawdigits := match D with EmptyString => false | _ => true end;
                 strconv.underscores := false |}).
  destruct (read_mantissa_digits (String c1 (String c2 EmptyString)) EmptyString
              ltac:(cbn [all_digits]; now rewrite Hc1, Hc2) st2
              ltac:(cbn; lia) Hz1)
    as (v & nd2 & Hv & Hread2 & Hle2 & Hz2).
  exists v, nd2. split.
  - rewrite atoi_fast_app, Hv1. exact Hv.
  - change (String c1 (String c2 "") +:+ "") with (String c1 (String c2 "")) in Hread2.
    cbn [strconv.nd strconv.mantissa strconv.dp] in Hread2.
    fold st2. rewrite Hread2. cbn [strconv.read_mantissa].
    f_equal. cbn [st2 strconv.mantissa strconv.nd strconv.dp strconv.sawdot
                  strconv.sawdigits strconv.underscores].
    f_equal. rewrite !len_String. unfold len. simpl. lia.
Qed.

Lemma lower_digit (c : ascii) :
  strconv.is_digit (byte_val c) = true -> strconv.lower (byte_val c) = byte_val c.
Proof.
  intros Hc. apply digit_range in Hc.
  assert (H : byte_val c = 48 \/ byte_val c = 49 \/ byte_val c = 50 \/ byte_val c = 51
              \/ byte_val c = 52 \/ byte_val c = 53 \/ byte_val c = 54
              \/ byte_val c = 55 \/ byte_val c = 56 \/ byte_val c = 57) by lia.
  repeat destruct H as [H|H]; rewrite H; reflexivity.
Qed.

Lemma readFloat_dollars_cents (D : string) (c1 c2 : ascii) :
  D <> EmptyString ->
  all_digits D = true ->
  strconv.is_digit (byte_val c1) = true ->
  strconv.is_digit (byte_val c2) = true ->
  exists v,
    strconv.atoi_fast (D +:+ String c1 (String c2 EmptyString)) 0 = Some v
    /\ strconv.readFloat (D +:+ String "." (String c1 (String c2 EmptyString)))
       = Some {| strconv.neg := false; strconv.mant := v; strconv.ebase := 10;
                 strconv.exp := if v =? 0 then 0 else -2;
                 strconv.rest := EmptyString |}.
Proof.
  intros Hne HD Hc1 Hc2.
  destruct (read_mantissa_dollars_cents D c1 c2 HD Hc1 Hc2) as (v & nd2 & Hv & Hread).
  exists v. split; [exact Hv|].
  destruct D as [|d0 D']; [congruence|]. clear Hne.
  cbn [all_digits] in HD. apply andb_prop in HD as [Hd0 HD'].
  pose proof (digit_range d0 Hd0) as Hr0.
  set (tail := String "." (String c1 (String c2 EmptyString))) in *.
  change (String d0 D' +:+ tail) with (String d0 (D' +:+ tail)) in *.
  unfold strconv.readFloat.
  unfold strconv.ch at 1 2. change (byte_val "+") with 43. change (byte_val "-") with 45.
  destruct (Z.eqb_spec (byte_val d0) 43); [lia|].
  destruct (Z.eqb_spec (byte_val d0) 45); [lia|].
  assert (Hlen : (3 <= String.length (D' +:+ tail))%nat)
    by (rewrite append_length; cbn; lia).
  assert (Hsecond : forall d1 r, D' +:+ tail = String d1 r ->
                                 (strconv.lower (byte_val d1) =? strconv.ch "x") = false).
  { intros d1 r Heq. destruct D' as [|e D''].
    - injection Heq as <- _. reflexivity.
    - injection Heq as <- _. cbn [all_digits] in HD'.
      apply andb_prop in HD' as [He _].
      rewrite (lower_digit e He). apply digit_range in He.
      apply Z.eqb_neq. change (strconv.ch "x") with 120. lia. }
  destruct (D' +:+ tail) as [|d1 [|d2 t2]] eqn:Heq; [cbn in Hlen; lia|cbn in Hlen; lia|].
  rewrite (Hsecond d1 _ eq_refl), andb_false_r.
  cbv beta iota zeta. rewrite Hread.
  cbn [strconv.sawdigits strconv.sawdot strconv.underscores strconv.mantissa
       strconv.dp strconv.nd negb andb].
  change (10 =? 16) with false. cbv beta iota zeta.
  cbn [andb]. do 3 f_equal.
  destruct (v =? 0); [reflexivity|lia].
Qed.

Lemma special_digit (c : ascii) (t : string) :
  strconv.is_digit (byte_val c) = true -> strconv.special (String c t) = None.
Proof.
  intros Hc. apply digit_range in Hc. unfold strconv.special, strconv.ch.
  change (byte_val "+") with 43. change (byte_val "-") with 45.
  change (byte_val "i") with 105. change (byte_val "I") with 73.
  change (byte_val "n") with 110. change (byte_val "N") with 78.
  destruct (Z.eqb_spec (byte_val c) 43); [lia|].
  destruct (Z.eqb_spec (byte_val c) 45); [lia|].
  destruct (Z.eqb_spec (byte_val c) 105); [lia|].
  destruct (Z.eqb_spec (byte_val c) 73); [lia|].
  destruct (Z.eqb_spec (byte_val c) 110); [lia|].
  destruct (Z.eqb_spec (byte_val c) 78); [lia|].
  reflexivity.
Qed.

(** [ParseFloat] on digits, a point and two digits: the float nearest to
    the number of cents divided by 100. *)
Lemma ParseFloat_dollars_cents (D : string) (c1 c2 : ascii) :
  D <> EmptyString ->
  all_digits D = true ->
  strconv.is_digit (byte_val c1) = true ->
  strconv.is_digit (byte_val c2) = true ->
  exists v f,
    strconv.atoi_fast (D +:+ String c1 (String c2 EmptyString)) 0 = Some v
    /\ f = match v with
           | Zpos m => round_ratio prec64 emax64 false m 100
           | _ => S754_zero false
           end
    /\ strconv.ParseFloat (D +:+ String "." (String c1 (String c2 EmptyString))) 64
       = (f, if strconv.is_infinity f then Some strconv.ErrRange else None).
Proof.
  intros Hne HD Hc1 Hc2.
  destruct (readFloat_dollars_cents D c1 c2 Hne HD Hc1 Hc2) as (v & Hv & Hread).
  exists v. eexists. split; [exact Hv|]. split; [reflexivity|].
  unfold strconv.ParseFloat, strconv.parseFloatPrefix.
  change (64 =? 32) with false. cbv iota. unfold strconv.atof.
  assert (Hspecial : strconv.special (D +:+ String "." (String c1 (String c2 EmptyString)))
                     = None).
  { destruct D as [|d0 D']; [congruence|].
    cbn [all_digits] in HD. apply andb_prop in HD as [Hd0 _].
    exact (special_digit d0 _ Hd0). }
  rewrite Hspecial, Hread. cbn [strconv.rest].
  change (len "") with 0. rewrite Z.sub_0_r, Z.eqb_refl. cbn [negb andb].
  assert (Hf : strconv.float_of_number prec64 emax64
                 {| strconv.neg := false; strconv.mant := v; strconv.ebase := 10;
                    strconv.exp := if v =? 0 then 0 else -2;
                    strconv.rest := EmptyString |}
               = match v with
                 | Zpos m => round_ratio prec64 emax64 false m 100
                 | _ => S754_zero false
                 end).
  { unfold strconv.float_of_number. cbn [strconv.mant strconv.neg strconv.ebase strconv.exp].
    destruct v as [|m|m]; reflexivity. }
  rewrite Hf. reflexivity.
Qed.

Lemma atoi_fast_bound (s : string) :
  all_digits s = true ->
  forall n v, 0 <= n -> strconv.atoi_fast s n = Some v ->
              n * 10 ^ len s <= v < (n + 1) * 10 ^ len s.
Proof.
  induction s as [|c t IH]; intros Hs n v Hn Hv.
  - injection Hv as <-. change (len "") with 0. simpl. lia.
  - cbn [all_digits] in Hs. apply andb_prop in Hs as [Hc Ht].
    cbn [strconv.atoi_fast] in Hv.
    destruct (is_digit_value c Hc) as [Hmod Hr]. rewrite Hmod in Hv.
    destruct (Z.ltb_spec 9 (byte_val c - 48)); [lia|].
    apply (IH Ht) in Hv; [|lia].
    rewrite len_String, Z.pow_add_r by (unfold len; lia).
    change (10 ^ 1) with 10.
    assert (0 < 10 ^ len t) by (apply Z.pow_pos_nonneg; unfold len; lia).
    nia.
Qed.

Ltac digit_values :=
  repeat match goal with
         | |- context [(byte_val ?c - strconv.ch "0") mod 256] =>
           let v := eval vm_compute in ((byte_val c - strconv.ch "0") mod 256) in
           change ((byte_val c - strconv.ch "0") mod 256) with v
         end.

Section Quarters.

Context {target : Target}.

(** X14.  Rule 3 on a total written as one to thirteen digits, a point
    and two digits: when the two digits are 00, 25, 50 or 75, the 25
    points are added, on every target whose [int] has 64 bits.  The
    detour through [float64] loses no multiple of 0.25: the quotient of
    the cents by 100 and its product by 100 are both exact.  The converse
    does not hold ([rule3_binary_cents]). *)
Theorem rule3_quarter_total (receipt : Receipt) (points : Z) (D cents : string) :
  Total receipt = D +:+ "." +:+ cents ->
  D <> EmptyString ->
  all_digits D = true ->
  len D <= 13 ->
  In cents ["00"; "25"; "50"; "75"]%string ->
  rule3 receipt points = int_add points 25.
Proof.
  intros Htotal Hne HD Hlen Hcents.
  assert (Hshape : exists c1 c2 k,
             cents = String c1 (String c2 EmptyString)
             /\ strconv.is_digit (byte_val c1) = true
             /\ strconv.is_digit (byte_val c2) = true
             /\ (forall n, strconv.atoi_fast cents n = Some (n * 100 + 25 * k))
             /\ 0 <= k <= 3).
  { destruct Hcents as [<-|[<-|[<-|[<-|[]]]]].
    - exists "0"%char, "0"%char, 0. repeat split; try lia.
      intros n. cbn [strconv.atoi_fast]. digit_values. cbn. f_equal. lia.
    - exists "2"%char, "5"%char, 1. repeat split; try lia.
      intros n. cbn [strconv.atoi_fast]. digit_values. cbn. f_equal. lia.
    - exists "5"%char, "0"%char, 2. repeat split; try lia.
      intros n. cbn [strconv.atoi_fast]. digit_values. cbn. f_equal. lia.
    - exists "7"%char, "5"%char, 3. repeat split; try lia.
      intros n. cbn [strconv.atoi_fast]. digit_values. cbn. f_equal. lia. }
  destruct Hshape as (c1 & c2 & k & -> & Hc1 & Hc2 & Hval & Hk).
  destruct (ParseFloat_dollars_cents D c1 c2 Hne HD Hc1 Hc2) as (v & f & Hv & Hf & Hparse).
  rewrite atoi_fast_app in Hv.
  destruct (atoi_fast_digits D HD 0 ltac:(lia)) as (vD & HvD & HvD0).
  rewrite HvD, Hval in Hv. injection Hv as Hv.
  pose proof (atoi_fast_bound D HD 0 vD ltac:(lia) HvD) as HbD.
  assert (Hpow : 10 ^ len D <= 10 ^ 13)
    by (apply Z.pow_le_mono_r; [lia|exact Hlen]).
  change (10 ^ 13) with 10000000000000 in Hpow.
  assert (Hv25 : v = 25 * (4 * vD + k)) by lia.
  assert (Hvlt : 0 <= v < 2 ^ 50) by (change (2 ^ 50) with 1125899906842624; lia).
  unfold rule3. rewrite Htotal.
  change ("." +:+ String c1 (String c2 "")) with (String "." (String c1 (String c2 ""))).
  rewrite Hparse.
  destruct v as [|m|m]; [| |lia].
  - (* a total of zero *)
    subst f. cbn [strconv.is_infinity is_nil andb].
    unfold int_of_float64.
    change (float64_trunc (float64_mul (S754_zero false) (float64_const 100 1)))
      with (Some 0).
    change ((MinInt <=? 0) && (0 <=? MaxInt)) with true. cbv iota.
    reflexivity.
  - destruct (round_ratio_quarter m (4 * vD + k) Hv25 ltac:(lia)) as (P & n & _ & Hr & _).
    pose proof (quarter_cents_exact m (4 * vD + k) Hv25 ltac:(lia)) as Hexact.
    subst f. unfold int_of_float64. rewrite Hexact.
    rewrite Hr. cbn [strconv.is_infinity is_nil andb].
    assert (Hin : (MinInt <=? Zpos m) && (Zpos m <=? MaxInt) = true).
    { apply andb_true_intro. unfold MinInt, MaxInt. split; apply Z.leb_le; lia. }
    rewrite Hin.
    assert (Hrem : int_rem (Zpos m) 25 = 0).
    { unfold int_rem. rewrite Hv25, Z.mul_comm. apply Z.rem_mul. lia. }
    rewrite Hrem. reflexivity.
Qed.

End Quarters.

(** ** The score as a whole *)

Section Score.
Context {target : Target}.

Lemma calculatePoints_short_total (receipt : Receipt) :
  len (Total receipt) < 3 ->
  calculatePoints receipt = Panic "slice bounds out of range".
Proof.
  intros Hlen. unfold calculatePoints, rule2, slice_from.
  assert (0 <= len (Total receipt)) by (unfold len; lia).
  destruct (Z.ltb_spec (len (Total receipt) - 3) 0); [reflexivity|lia].
Qed.

Lemma calculatePoints_in_range (receipt : Receipt) (points : Z) :
  calculatePoints receipt = Ok points -> in_range points.
Proof.
  intros Hpoints.
  destruct (Z.lt_ge_cases (len (Total receipt)) 3) as [Hlen|Hlen].
  - rewrite (calculatePoints_short_total receipt Hlen) in Hpoints. discriminate.
  - destruct (calculatePoints_sum receipt Hlen) as (c1 & c2 & c3 & c6 & c7 & _ & _ & _ & _ & _ & Heq).
    rewrite Heq in Hpoints. injection Hpoints as <-. apply int_wrap_in_range.
Qed.

Lemma calculatePoints_long_total (receipt : Receipt) :
  3 <= len (Total receipt) ->
  exists points, calculatePoints receipt = Ok points /\ in_range points.
Proof.
  intros Hlen.
  destruct (calculatePoints_sum receipt Hlen) as (c1 & c2 & c3 & c6 & c7 & _ & _ & _ & _ & _ & Heq).
  eexists. split; [exact Heq|apply int_wrap_in_range].
Qed.

Lemma rule5_sum_Permutation (items1 items2 : list Item) :
  Permutation items1 items2 -> rule5_sum items1 = rule5_sum items2.
Proof.
  induction 1 as [|x l1 l2 _ IH|x y l|l1 l2 l3 _ IH1 _ IH2]; simpl; lia.
Qed.

(** X4.  The score does not depend on the order of the items: two
    receipts that differ by a permutation of their items only are scored
    alike, panics included. *)
Theorem calculatePoints_items_order (receipt1 receipt2 : Receipt) :
  Retailer receipt1 = Retailer receipt2 ->
  PurchaseDate receipt1 = PurchaseDate receipt2 ->
  PurchaseTime receipt1 = PurchaseTime receipt2 ->
  Total receipt1 = Total receipt2 ->
  Permutation (Items receipt1) (Items receipt2) ->
  calculatePoints receipt1 = calculatePoints receipt2.
Proof.
  intros Hretailer Hdate Htime Htotal Hitems.
  unfold calculatePoints.
  assert (H1 : rule1 receipt1 0 = rule1 receipt2 0)
    by (unfold rule1; now rewrite Hretailer).
  assert (H2 : forall p, rule2 receipt1 p = rule2 receipt2 p)
    by (intros p; unfold rule2; now rewrite Htotal).
  assert (H3 : forall p, rule3 receipt1 p = rule3 receipt2 p)
    by (intros p; unfold rule3; now rewrite Htotal).
  assert (H4 : forall p, rule4 receipt1 p = rule4 receipt2 p)
    by (intros p; unfold rule4; now rewrite (Permutation_length Hitems)).
  assert (H6 : forall p, rule6 receipt1 p = rule6 receipt2 p)
    by (intros p; unfold rule6; now rewrite Hdate).
  assert (H7 : forall p, rule7 receipt1 p = rule7 receipt2 p)
    by (intros p; unfold rule7; now rewrite Htime).
  rewrite H1, H2. destruct (rule2 receipt2 (rule1 receipt2 0)) as [p2|msg];
    [|reflexivity].
  cbn [mbind result_bind]. rewrite H3, H4.
  assert (H5 : rule5 receipt1 (rule4 receipt2 (rule3 receipt2 p2))
               = rule5 receipt2 (rule4 receipt2 (rule3 receipt2 p2))).
  { unfold rule4, int_add.
    rewrite (rule5_acc receipt1 _ _ eq_refl), (rule5_acc receipt2 _ _ eq_refl).
    now rewrite (rule5_sum_Permutation _ _ Hitems). }
  rewrite H5, H6. destruct (rule6 receipt2 _) as [p6|msg]; [|reflexivity].
  cbn [mbind result_bind]. now rewrite H7.
Qed.

(** X2.  [calculatePoints] panics exactly on the receipts whose total
    has fewer than three bytes, with the message of the slice of Rule 2;
    on every other receipt it returns an [int].  No other field can make
    it panic. *)
Theorem calculatePoints_panics_iff (receipt : Receipt) :
  (len (Total receipt) < 3 ->
   calculatePoints receipt = Panic "slice bounds out of range")
  /\ (3 <= len (Total receipt) ->
      exists points, calculatePoints receipt = Ok points /\ in_range points)
  /\ ((exists msg, calculatePoints receipt = Panic msg) <-> len (Total receipt) < 3).
Proof.
  split; [exact (calculatePoints_short_total receipt)|].
  split; [exact (calculatePoints_long_total receipt)|]. split.
  - intros [msg Hmsg].
    destruct (Z_lt_ge_dec (len (Total receipt)) 3) as [|Hge]; [assumption|].
    destruct (calculatePoints_long_total receipt ltac:(lia)) as (points & Hpoints & _).
    congruence.
  - intros Hlen. eexists. now apply calculatePoints_short_total.
Qed.

(** X3.  When nothing overflows, the score lies between what Rules 4
    and 5 add and that amount plus the length of the retailer name plus
    91, the most that Rules 2, 3, 6 and 7 add together
    (50 + 25 + 6 + 10). *)
Theorem calculatePoints_bounds (receipt : Receipt) (points : Z) :
  calculatePoints receipt = Ok points ->
  let n := Z.of_nat (length (Items receipt)) in
  5 * n <= MaxInt ->
  MinInt <= 5 * (n / 2) + rule5_sum (Items receipt) ->
  len (Retailer receipt) + 91 + 5 * (n / 2) + rule5_sum (Items receipt) <= MaxInt ->
  5 * (n / 2) + rule5_sum (Items receipt)
  <= points
  <= len (Retailer receipt) + 91 + 5 * (n / 2) + rule5_sum (Items receipt).
Proof.
  intros Hpoints n Hn5 Hmin Hmax.
  assert (Hlen : 3 <= len (Total receipt)).
  { destruct (Z_lt_ge_dec (len (Total receipt)) 3) as [Hshort|]; [|lia].
    apply calculatePoints_short_total in Hshort. congruence. }
  destruct (calculatePoints_sum receipt Hlen)
    as (c1 & c2 & c3 & c6 & c7 & Hc1 & Hc2 & Hc3 & Hc6 & Hc7 & Hsum).
  rewrite Hsum in Hpoints. injection Hpoints as <-.
  assert (Hn : 0 <= n / 2 <= n).
  { subst n. split; [apply Z.div_pos; lia | apply Z.div_le_upper_bound; lia]. }
  assert (Hpos : 0 <= len (Retailer receipt)) by (unfold len; lia).
  fold n. rewrite (rule4_exact n) by (unfold MinInt, MaxInt in *; subst n; lia).
  rewrite int_wrap_id; unfold in_range, MinInt, MaxInt in *; lia.
Qed.

End Score.

(** ** The target of the compilation *)

Lemma int_of_float64_fits (t1 t2 : Target) (f : float64) :
  fits_int f = true -> @int_of_float64 t1 f = @int_of_float64 t2 f.
Proof.
  unfold fits_int, int_of_float64.
  destruct (float64_trunc f) as [z|]; [|discriminate]. now intros ->.
Qed.

(** X5.  On the targets whose [int] has 64 bits, which differ in what
    [int(f)] makes of an operand out of range, the score is the same when
    every conversion that [calculatePoints] makes has an operand whose
    integer part is an [int]: the product of the total by 100 when the
    total parses, and the ceiling of the product of the price by 0.2 for
    each item whose trimmed description has a length that is a multiple
    of 3 and whose price parses.  The target only shows on a total or a
    price beyond the range of [int] ([calculatePoints_targets_differ]). *)
Theorem calculatePoints_target_independent (t1 t2 : Target) (receipt : Receipt) :
  (is_nil (snd (strconv.ParseFloat (Total receipt) 64)) = true ->
   fits_int (float64_mul (fst (strconv.ParseFloat (Total receipt) 64))
                         (float64_const 100 1)) = true) ->
  Forall (fun item =>
            (3 | len (strings.TrimSpace (ShortDescription item))) ->
            is_nil (snd (strconv.ParseFloat (Price item) 64)) = true ->
            fits_int (math.Ceil (float64_mul (fst (strconv.ParseFloat (Price item) 64))
                                             (float64_const 1 5))) = true)
         (Items receipt) ->
  @calculatePoints t1 receipt = @calculatePoints t2 receipt.
Proof.
  intros Htotal Hitems. unfold calculatePoints.
  assert (H3 : forall p, @rule3 t1 receipt p = @rule3 t2 receipt p).
  { intros p. unfold rule3.
    destruct (strconv.ParseFloat (Total receipt) 64) as [f err]. cbn [fst snd] in Htotal.
    destruct (is_nil err); [|reflexivity].
    now rewrite (int_of_float64_fits t1 t2 _ (Htotal eq_refl)). }
  assert (H5 : forall p, @rule5 t1 receipt p = @rule5 t2 receipt p).
  { unfold rule5. induction Hitems as [|item items Hitem _ IH]; intros p; [reflexivity|].
    cbn [fold_left]. rewrite IH. f_equal.
    unfold rule5_item.
    destruct (_ =? 0) eqn:Hrem; [|reflexivity].
    apply rem3_divide in Hrem. specialize (Hitem Hrem).
    destruct (strconv.ParseFloat (Price item) 64) as [f err]. cbn [fst snd] in Hitem.
    destruct (is_nil err); [|reflexivity].
    now rewrite (int_of_float64_fits t1 t2 _ (Hitem eq_refl)). }
  destruct (rule2 receipt (rule1 receipt 0)) as [p2|msg]; [|reflexivity].
  cbn [mbind result_bind]. now rewrite H3, H5.
Qed.

Example calculatePoints_targets_differ :
  @calculatePoints amd64 (receipt_of "" "" "" "1.10" [huge_item]) = Ok MinInt
  /\ @calculatePoints arm64 (receipt_of "" "" "" "1.10" [huge_item]) = Ok MaxInt.
Proof. split; vm_compute; reflexivity. Qed.

(** ** The store and the handlers *)

Section Server.
Context {target : Target}.

(** X8.  Whether the generated identifier is new or not, a call of
    [AddReceipt] that returns has returned that identifier, and
    [GetPoints] then finds the score of the receipt under it; every other
    identifier reads as before.  The map is never checked for the
    identifier: if it was a key already, its score is replaced and the
    number of entries stays the same; if not, there is one entry more. *)
Theorem AddReceipt_overwrites (s s' : ReceiptStore) (id id' : string) (receipt : Receipt) :
  AddReceipt s id receipt = Ok (id', s') ->
  id' = id
  /\ (exists points, calculatePoints receipt = Ok points
                     /\ GetPoints s' id = ((points, true), s'))
  /\ (forall k, k <> id -> fst (GetPoints s' k) = fst (GetPoints s k))
  /\ dom (receipts s') = {[id]} ∪ dom (receipts s)
  /\ (id ∈ dom (receipts s) -> size (receipts s') = size (receipts s))
  /\ (id ∉ dom (receipts s) -> size (receipts s') = S (size (receipts s))).
Proof.
  unfold AddReceipt. destruct (calculatePoints receipt) as [points|msg] eqn:Hpoints;
    cbn [mbind result_bind]; [|discriminate].
  intros [= <- <-]. split; [reflexivity|]. cbn [receipts].
  split; [|split; [|split; [|split]]].
  - exists points. split; [reflexivity|].
    unfold GetPoints. cbn [receipts]. now rewrite lookup_insert_eq.
  - intros k Hk. unfold GetPoints. cbn [receipts].
    rewrite lookup_insert_ne by congruence.
    now destruct (receipts s !! k).
  - apply dom_insert_L.
  - intros Hin. apply elem_of_dom in Hin as [old Hold].
    rewrite <- (insert_delete_id (receipts s) id old Hold) at 2.
    rewrite <- (insert_delete_eq (receipts s)).
    rewrite !map_size_insert_None by apply lookup_delete_eq. reflexivity.
  - intros Hout. apply map_size_insert_None. now apply not_elem_of_dom.
Qed.

Lemma serve_GET (s : ReceiptStore) (id : string) :
  serve s (GET_points id)
  = (match receipts s !! id with
     | Some points => JSON StatusOK [("points"%string, JNumber points)]
     | None => JSON StatusNotFound [("error"%string, JString "Receipt not found")]
     end, s).
Proof.
  unfold serve, Recovery, points_handler, GetPoints.
  now destruct (receipts s !! id).
Qed.

Lemma serve_POST_scored (s : ReceiptStore) (id : string) (receipt : Receipt) (points : Z) :
  calculatePoints receipt = Ok points ->
  serve s (POST_process (Some receipt) id)
  = (JSON StatusOK [("id"%string, JString id)],
     {| receipts := <[id := points]> (receipts s) |}).
Proof.
  intros Hpoints. unfold serve, process_handler.
  now rewrite (AddReceipt_returns s id receipt points Hpoints).
Qed.

Lemma serve_POST_panic (s : ReceiptStore) (id : string) (receipt : Receipt) (msg : string) :
  calculatePoints receipt = Panic msg ->
  serve s (POST_process (Some receipt) id)
  = ({| code := StatusInternalServerError; obj := None |}, s).
Proof.
  intros Hpoints. unfold serve, process_handler.
  now rewrite (AddReceipt_panics s id receipt msg Hpoints).
Qed.

Lemma run_app (s : ReceiptStore) (reqs1 reqs2 : list request) :
  run s (reqs1 ++ reqs2)
  = (fst (run s reqs1) ++ fst (run (snd (run s reqs1)) reqs2),
     snd (run (snd (run s reqs1)) reqs2)).
Proof.
  revert s. induction reqs1 as [|req reqs1 IH]; intros s.
  - cbn [app run fst snd]. now destruct (run s reqs2).
  - cbn [app run]. destruct (serve s req) as [resp s1]. rewrite IH.
    destruct (run s1 reqs1) as [resps1 s2]. cbn [fst snd].
    now destruct (run s2 reqs2).
Qed.

Lemma run_keeps (s : ReceiptStore) (reqs : list request) (id : string) (points : Z) :
  Forall (fun req => generated req <> Some id) reqs ->
  receipts s !! id = Some points ->
  receipts (snd (run s reqs)) !! id = Some points.
Proof.
  intros Hreqs. revert s. induction Hreqs as [|req reqs Hreq _ IH]; intros s Hs;
    [exact Hs|].
  cbn [run]. destruct (serve s req) as [resp s1] eqn:Hserve.
  specialize (IH s1). destruct (run s1 reqs) as [resps s2]. cbn [snd] in *.
  apply IH. clear IH.
  destruct req as [[receipt|] id'|id'].
  - destruct (calculatePoints receipt) as [p|msg] eqn:Hp.
    + rewrite (serve_POST_scored s id' receipt p Hp) in Hserve.
      injection Hserve as _ <-. cbn [receipts].
      rewrite lookup_insert_ne; [exact Hs|]. cbn [generated] in Hreq. congruence.
    + rewrite (serve_POST_panic s id' receipt msg Hp) in Hserve.
      now injection Hserve as _ <-.
  - cbn in Hserve. now injection Hserve as _ <-.
  - rewrite serve_GET in Hserve. now injection Hserve as _ <-.
Qed.

(** X9.  The answers of [POST /receipts/process].  A body that does
    not bind is answered 400 with the error "Invalid JSON", and nothing is
    stored.  A bound receipt whose total has fewer than three bytes makes
    the handler panic: the answer is 500 with no body, and nothing is
    stored.  Every other bound receipt is answered 200 with the generated
    identifier, and its score is stored under it. *)
Theorem process_handler_response (s : ReceiptStore) (id : string) :
  serve s (POST_process None id)
  = (JSON 400 [("error"%string, JString "Invalid JSON")], s)
  /\ (forall receipt,
        len (Total receipt) < 3 ->
        process_handler s (Some receipt) id = Panic "slice bounds out of range"
        /\ serve s (POST_process (Some receipt) id) = ({| code := 500; obj := None |}, s))
  /\ (forall receipt,
        3 <= len (Total receipt) ->
        exists points,
          calculatePoints receipt = Ok points
          /\ in_range points
          /\ serve s (POST_process (Some receipt) id)
             = (JSON 200 [("id"%string, JString id)],
                {| receipts := <[id := points]> (receipts s) |})).
Proof.
  split; [reflexivity|]. split.
  - intros receipt Hlen.
    pose proof (calculatePoints_short_total receipt Hlen) as Hpanic.
    split; [|exact (serve_POST_panic s id receipt _ Hpanic)].
    unfold process_handler.
    now rewrite (AddReceipt_panics s id receipt _ Hpanic).
  - intros receipt Hlen.
    destruct (calculatePoints_long_total receipt Hlen) as (points & Hpoints & Hrange).
    exists points. split; [exact Hpoints|]. split; [exact Hrange|].
    exact (serve_POST_scored s id receipt points Hpoints).
Qed.

(** X10.  The answers of [GET /receipts/:id/points].  The store is
    left as it was; the answer is 200 with the stored score when the
    identifier is a key of the map, and 404 with the error "Receipt not
    found" when it is not; the status is 200 exactly on the keys. *)
Theorem points_handler_response (s : ReceiptStore) (id : string) :
  snd (serve s (GET_points id)) = s
  /\ (forall points,
        receipts s !! id = Some points ->
        fst (serve s (GET_points id)) = JSON 200 [("points"%string, JNumber points)])
  /\ (receipts s !! id = None ->
      fst (serve s (GET_points id))
      = JSON 404 [("error"%string, JString "Receipt not found")])
  /\ (code (fst (serve s (GET_points id))) = 200 <-> id ∈ dom (receipts s)).
Proof.
  rewrite serve_GET, elem_of_dom. cbn [fst snd].
  split; [reflexivity|]. split; [now intros points ->|]. split; [now intros ->|].
  destruct (receipts s !! id) as [points|]; cbn; split; intros Hx;
    try reflexivity; try discriminate; eauto.
  destruct Hx as [x Hx]. discriminate.
Qed.

(** X11.  A receipt whose total has at least three bytes is posted,
    any requests follow that do not generate its identifier again, and
    its points are asked for: the first answer is 200 with the
    identifier and the last one is 200 with the score of the receipt. *)
Theorem process_then_points (s : ReceiptStore) (receipt : Receipt) (id : string)
        (reqs : list request) :
  3 <= len (Total receipt) ->
  Forall (fun req => generated req <> Some id) reqs ->
  exists points resps s',
    calculatePoints receipt = Ok points
    /\ length resps = length reqs
    /\ run s (POST_process (Some receipt) id :: reqs ++ [GET_points id])
       = (JSON 200 [("id"%string, JString id)]
            :: resps ++ [JSON 200 [("points"%string, JNumber points)]], s').
Proof.
  intros Hlen Hreqs.
  destruct (calculatePoints_long_total receipt Hlen) as (points & Hpoints & _).
  set (s1 := {| receipts := <[id := points]> (receipts s) |}).
  exists points, (fst (run s1 reqs)), (snd (run s1 reqs)).
  split; [exact Hpoints|]. split.
  - clear. generalize s1. induction reqs as [|req reqs IH]; intros s0; [reflexivity|].
    cbn [run]. destruct (serve s0 req) as [resp s2]. specialize (IH s2).
    destruct (run s2 reqs). cbn [fst length] in *. now rewrite IH.
  - cbn [run]. rewrite (serve_POST_scored s id receipt points Hpoints). fold s1.
    rewrite run_app. cbn [run]. rewrite serve_GET.
    rewrite (run_keeps s1 reqs id points Hreqs) by apply lookup_insert_eq.
    reflexivity.
Qed.

(** X12.  After any requests served from the start of the program,
    every entry of the store is an identifier generated for a posted
    receipt together with the score of that receipt, an [int]; an
    identifier that was never generated is answered 404; and the store
    holds at most as many entries as there were POST requests. *)
Theorem main_store_invariant (reqs : list request) :
  (forall id points,
      receipts (snd (main reqs)) !! id = Some points ->
      in_range points
      /\ exists receipt,
          In (POST_process (Some receipt) id) reqs
          /\ calculatePoints receipt = Ok points)
  /\ (forall id,
        ~ In (Some id) (map generated reqs) ->
        fst (serve (snd (main reqs)) (GET_points id))
        = JSON 404 [("error"%string, JString "Receipt not found")])
  /\ (size (receipts (snd (main reqs))) <= length (List.filter is_POST reqs))%nat.
Proof.
  unfold main.
  assert (Hentries : forall id points,
             receipts (snd (run NewReceiptStore reqs)) !! id = Some points ->
             in_range points
             /\ exists receipt,
                 In (POST_process (Some receipt) id) reqs
                 /\ calculatePoints receipt = Ok points).
  { induction reqs as [|req reqs IH] using rev_ind; intros id points.
    - cbn. rewrite lookup_empty. discriminate.
    - rewrite run_app. cbn [snd run].
      set (s := snd (run NewReceiptStore reqs)) in *.
      assert (Hold : receipts s !! id = Some points ->
                     in_range points
                     /\ exists receipt,
                         In (POST_process (Some receipt) id) (reqs ++ [req])
                         /\ calculatePoints receipt = Ok points).
      { intros Hs. destruct (IH id points Hs) as (Hr & receipt & Hin & Hp).
        split; [exact Hr|]. exists receipt. split; [|exact Hp].
        apply in_or_app. now left. }
      destruct (serve s req) as [resp s1] eqn:Hserve. cbn [snd].
      destruct req as [[receipt|] id'|id'].
      + destruct (calculatePoints receipt) as [p|msg] eqn:Hp.
        * rewrite (serve_POST_scored s id' receipt p Hp) in Hserve.
          injection Hserve as _ <-. cbn [receipts].
          destruct (decide (id' = id)) as [->|Hne].
          -- rewrite lookup_insert_eq. intros [= <-].
             split; [exact (calculatePoints_in_range receipt p Hp)|].
             exists receipt. split; [|exact Hp].
             apply in_or_app. right. now left.
          -- rewrite lookup_insert_ne by exact Hne. exact Hold.
        * rewrite (serve_POST_panic s id' receipt msg Hp) in Hserve.
          injection Hserve as _ <-. exact Hold.
      + cbn in Hserve. injection Hserve as _ <-. exact Hold.
      + rewrite serve_GET in Hserve. injection Hserve as _ <-. exact Hold. }
  split; [exact Hentries|]. split.
  - intros id Hid. rewrite serve_GET. cbn [fst].
    destruct (receipts (snd (run NewReceiptStore reqs)) !! id) as [points|] eqn:Hlook;
      [|reflexivity].
    destruct (Hentries id points Hlook) as (_ & receipt & Hin & _).
    exfalso. apply Hid. apply in_map_iff.
    exists (POST_process (Some receipt) id). now split.
  - clear Hentries.
    assert (Hsize : forall s,
               (size (receipts (snd (run s reqs)))
                <= size (receipts s) + length (List.filter is_POST reqs))%nat).
    { induction reqs as [|req reqs IH]; intros s; [cbn; lia|].
      cbn [run]. destruct (serve s req) as [resp s1] eqn:Hserve.
      specialize (IH s1). destruct (run s1 reqs) as [resps s2]. cbn [snd] in *.
      assert (Hone : (size (receipts s1)
                      <= size (receipts s) + (if is_POST req then 1 else 0))%nat).
      { destruct req as [[receipt|] id'|id'].
        - destruct (calculatePoints receipt) as [p|msg] eqn:Hp.
          + rewrite (serve_POST_scored s id' receipt p Hp) in Hserve.
            injection Hserve as _ <-. cbn [receipts is_POST].
            destruct (receipts s !! id') as [old|] eqn:Hold.
            * rewrite <- (insert_delete_id (receipts s) id' old Hold) at 2.
              rewrite <- (insert_delete_eq (receipts s)).
              rewrite !map_size_insert_None by apply lookup_delete_eq. lia.
            * rewrite map_size_insert_None by exact Hold. lia.
          + rewrite (serve_POST_panic s id' receipt msg Hp) in Hserve.
            injection Hserve as _ <-. cbn. lia.
        - cbn in Hserve. injection Hserve as _ <-. cbn. lia.
        - rewrite serve_GET in Hserve. injection Hserve as _ <-. cbn. lia. }
      cbn [List.filter]. destruct (is_POST req); cbn [length]; cbv iota in Hone; lia. }
    specialize (Hsize NewReceiptStore). cbn [NewReceiptStore receipts] in Hsize.
    rewrite map_size_empty in Hsize. exact Hsize.
Qed.

(** X13.  The GET requests have no effect on anything else: without
    them the final store is the same, and every POST request gets the
    same answer. *)
Theorem run_without_GET (s : ReceiptStore) (reqs : list request) :
  snd (run s reqs) = snd (run s (List.filter is_POST reqs))
  /\ map snd (List.filter (fun x => is_POST (fst x)) (combine reqs (fst (run s reqs))))
     = fst (run s (List.filter is_POST reqs)).
Proof.
  revert s. induction reqs as [|req reqs IH]; intros s; [split; reflexivity|].
  cbn [run List.filter].
  destruct req as [bound id|id].
  - cbn [is_POST run].
    destruct (serve s (POST_process bound id)) as [resp s1].
    destruct (IH s1) as [IHs IHr].
    destruct (run s1 reqs) as [resps s2].
    destruct (run s1 (List.filter is_POST reqs)) as [resps' s2'].
    cbn [fst snd combine List.filter is_POST map] in *. split; [exact IHs|].
    now rewrite IHr.
  - cbn [is_POST]. rewrite serve_GET.
    destruct (IH s) as [IHs IHr].
    destruct (run s reqs) as [resps s2].
    cbn [fst snd combine List.filter is_POST map] in *. now split.
Qed.

End Server.

(** ** More theorems at concrete inputs *)

(** [calculatePoints_returns] on a receipt whose rules add 45 less than
    the largest [int]: it is scored, with that sum. *)
Lemma calculatePoints_returns_witness :
  3 <= len (Total large_receipt)
  /\ Forall (fun item => 0 <= @rule5_item amd64 item 0) (Items large_receipt)
  /\ @rules_sum amd64 large_receipt <= MaxInt
  /\ exists points,
      @calculatePoints amd64 large_receipt = Ok points
      /\ points = MaxInt - 45
      /\ 0 <= points.
Proof.
  assert (H1 : 3 <= len (Total large_receipt)) by (vm_compute; discriminate).
  assert (H2 : Forall (fun item => 0 <= @rule5_item amd64 item 0) (Items large_receipt))
    by (repeat constructor; vm_compute; discriminate).
  assert (H3 : @rules_sum amd64 large_receipt <= MaxInt) by (vm_compute; discriminate).
  split; [exact H1|]. split; [exact H2|]. split; [exact H3|].
  destruct (@calculatePoints_returns amd64 large_receipt H1)
    as (points & Hpoints & _ & _ & Hnonneg & _).
  destruct (Hnonneg H2 H3) as [Heq Hpos].
  exists points. split; [exact Hpoints|]. split; [|exact Hpos].
  rewrite Heq. vm_compute. reflexivity.
Defined.

(** [rule2_round_dollar] on a total of 1250.00, after Rule 1 has counted
    six points: the 50 points are in the score. *)
Lemma rule2_round_dollar_witness :
  3 <= len (Total round_dollar_receipt)
  /\ rule2 round_dollar_receipt 6 = Ok 56
  /\ @calculatePoints amd64 round_dollar_receipt
     = Ok (int_wrap (rule1_amount round_dollar_receipt + 50
                     + @rule3_amount amd64 round_dollar_receipt
                     + rule4_amount round_dollar_receipt
                     + @rule5_amount amd64 round_dollar_receipt
                     + rule6_amount round_dollar_receipt
                     + rule7_amount round_dollar_receipt)).
Proof.
  assert (Hlen : 3 <= len (Total round_dollar_receipt)) by (vm_compute; discriminate).
  split; [exact Hlen|].
  destruct (@rule2_round_dollar amd64 round_dollar_receipt 6 Hlen)
    as (pre & suffix & _ & _ & Hslice & Hrule & _ & _ & Hcalc).
  assert (Hsuffix : suffix = ".00"%string).
  { assert (Hs : slice_from (Total round_dollar_receipt)
                            (len (Total round_dollar_receipt) - 3) = Ok ".00"%string)
      by (vm_compute; reflexivity).
    rewrite Hs in Hslice. now injection Hslice as <-. }
  subst suffix. split; [exact Hrule | exact Hcalc].
Defined.

(** [rule5_item_bonus] on the item "Emils Cheese Pizza" at 12.25, the
    second item of the documented receipt: 18 bytes, and the ceiling of
    2.45 is 3. *)
Lemma rule5_item_bonus_witness :
  (3 | len (strings.TrimSpace (ShortDescription pizza_item)))
  /\ snd (strconv.ParseFloat (Price pizza_item) 64) = None
  /\ valid_binary prec64 emax64
       (float64_mul (fst (strconv.ParseFloat (Price pizza_item) 64)) (float64_const 1 5))
     = true
  /\ (exists v,
        float64_Q (float64_mul (fst (strconv.ParseFloat (Price pizza_item) 64))
                               (float64_const 1 5)) = Some v
        /\ Qceiling v = 3)
  /\ 3 <= len (Total target_receipt)
  /\ Items target_receipt
     = [ {| ShortDescription := "Mountain Dew 12PK"; Price := "6.49" |} ]
         ++ pizza_item
         :: [ {| ShortDescription := "Knorr Creamy Chicken"; Price := "1.26" |};
              {| ShortDescription := "Doritos Nacho Cheese"; Price := "3.35" |};
              {| ShortDescription := "Klarbrunn 12-PK 12 FL OZ"; Price := "12.00" |} ]
  /\ @rule5_item amd64 pizza_item 0 = 3
  /\ @calculatePoints amd64 target_receipt
     = Ok (int_wrap
             (rule1_amount target_receipt + rule2_amount target_receipt
              + @rule3_amount amd64 target_receipt + rule4_amount target_receipt
              + (@rule5_sum amd64
                   [ {| ShortDescription := "Mountain Dew 12PK"; Price := "6.49" |} ]
                 + 3
                 + @rule5_sum amd64
                     [ {| ShortDescription := "Knorr Creamy Chicken"; Price := "1.26" |};
                       {| ShortDescription := "Doritos Nacho Cheese"; Price := "3.35" |};
                       {| ShortDescription := "Klarbrunn 12-PK 12 FL OZ";
                          Price := "12.00" |} ])
              + rule6_amount target_receipt + rule7_amount target_receipt)).
Proof.
  assert (H1 : (3 | len (strings.TrimSpace (ShortDescription pizza_item))))
    by (exists 6; vm_compute; reflexivity).
  assert (H2 : snd (strconv.ParseFloat (Price pizza_item) 64) = None)
    by (vm_compute; reflexivity).
  assert (H3 : valid_binary prec64 emax64
                 (float64_mul (fst (strconv.ParseFloat (Price pizza_item) 64))
                              (float64_const 1 5)) = true)
    by (vm_compute; reflexivity).
  destruct (float64_Q (float64_mul (fst (strconv.ParseFloat (Price pizza_item) 64))
                                   (float64_const 1 5))) as [v|] eqn:H4;
    [|vm_compute in H4; discriminate].
  assert (H5 : Qceiling v = 3) by (vm_compute in H4; injection H4 as <-; reflexivity).
  assert (H6 : 3 <= len (Total target_receipt)) by (vm_compute; discriminate).
  split; [exact H1|]. split; [exact H2|]. split; [exact H3|].
  split; [exists v; split; [reflexivity | exact H5]|].
  split; [exact H6|]. split; [reflexivity|].
  destruct (@rule5_item_bonus amd64 target_receipt pizza_item 0)
    as (_ & Hceil & _ & _ & _ & _ & _ & bonus & Hbonus & _ & _ & Hitem & Hitems).
  assert (Hb : bonus = 3).
  { rewrite (Hbonus H1 H2), (Hceil v H3 H4); [exact H5|].
    rewrite H5. unfold in_range, MinInt, MaxInt. lia. }
  rewrite Hb in Hitem, Hitems. split; [exact Hitem|].
  exact (proj2 (proj2 (Hitems
           [ {| ShortDescription := "Mountain Dew 12PK"; Price := "6.49" |} ]
           [ {| ShortDescription := "Knorr Creamy Chicken"; Price := "1.26" |};
             {| ShortDescription := "Doritos Nacho Cheese"; Price := "3.35" |};
             {| ShortDescription := "Klarbrunn 12-PK 12 FL OZ"; Price := "12.00" |} ]
           eq_refl)) H6).
Defined.

(** [rule3_quarter_multiple] on a total of 35.25, after six points. *)
Lemma rule3_quarter_multiple_witness :
  Total quarter_receipt = "35.25"%string
  /\ 3 <= len (Total quarter_receipt)
  /\ @rule3 amd64 quarter_receipt 6 = 31
  /\ @calculatePoints amd64 quarter_receipt
     = Ok (int_wrap (rule1_amount quarter_receipt + rule2_amount quarter_receipt + 25
                     + rule4_amount quarter_receipt + @rule5_amount amd64 quarter_receipt
                     + rule6_amount quarter_receipt + rule7_amount quarter_receipt)).
Proof.
  assert (Hlen : 3 <= len (Total quarter_receipt)) by (vm_compute; discriminate).
  split; [reflexivity|]. split; [exact Hlen|].
  destruct (@rule3_quarter_multiple amd64 quarter_receipt 6)
    as (_ & _ & _ & Hrule & _ & _ & _ & _ & Hscore).
  split; [rewrite (Hrule eq_refl); reflexivity|].
  destruct (Hscore Hlen) as (bonus & _ & _ & _ & Hbonus & _ & Hcalc).
  rewrite (Hbonus eq_refl) in Hcalc. exact Hcalc.
Defined.

(** [rule1_counts_alnum_bytes] on "Café 24": five bytes are counted out
    of eight. *)
Lemma rule1_counts_alnum_bytes_witness :
  in_range 0
  /\ len (Retailer cafe_receipt) = 8
  /\ rule1 cafe_receipt 0 = 5.
Proof.
  assert (H : in_range 0) by (unfold in_range, MinInt, MaxInt; lia).
  split; [exact H|]. split; [reflexivity|].
  rewrite (proj1 (rule1_counts_alnum_bytes cafe_receipt 0 H)). reflexivity.
Defined.

(** [calculatePoints_panics_iff] on a total of one byte. *)
Lemma calculatePoints_panics_iff_witness :
  len (Total short_total_receipt) < 3
  /\ @calculatePoints amd64 short_total_receipt = Panic "slice bounds out of range".
Proof.
  assert (H : len (Total short_total_receipt) < 3) by (vm_compute; reflexivity).
  split; [exact H|].
  exact (proj1 (@calculatePoints_panics_iff amd64 short_total_receipt) H).
Defined.

(** [calculatePoints_bounds] on the documented receipt: its 28 points lie
    between 16 and 113. *)
Lemma calculatePoints_bounds_witness :
  @calculatePoints amd64 target_receipt = Ok 28
  /\ 5 * (Z.of_nat (length (Items target_receipt)) / 2)
     + @rule5_sum amd64 (Items target_receipt) = 16
  /\ 5 * (Z.of_nat (length (Items target_receipt)) / 2)
     + @rule5_sum amd64 (Items target_receipt)
     <= 28
     <= len (Retailer target_receipt) + 91
        + 5 * (Z.of_nat (length (Items target_receipt)) / 2)
        + @rule5_sum amd64 (Items target_receipt).
Proof.
  assert (H : @calculatePoints amd64 target_receipt = Ok 28) by (vm_compute; reflexivity).
  split; [exact H|]. split; [vm_compute; reflexivity|].
  apply (@calculatePoints_bounds amd64 target_receipt 28 H); vm_compute; discriminate.
Defined.

(** [calculatePoints_items_order] on the documented receipt and its
    items in the reverse order. *)
Lemma calculatePoints_items_order_witness :
  Permutation (Items target_receipt) (Items reversed_receipt)
  /\ @calculatePoints amd64 reversed_receipt = Ok 28.
Proof.
  assert (H : Permutation (Items target_receipt) (Items reversed_receipt))
    by apply Permutation_rev.
  split; [exact H|].
  rewrite <- (@calculatePoints_items_order amd64 target_receipt reversed_receipt
                eq_refl eq_refl eq_refl eq_refl H).
  vm_compute. reflexivity.
Defined.

(** [calculatePoints_target_independent] on a receipt with a price of
    1e30 on an item that Rule 5 passes over. *)
Lemma calculatePoints_target_independent_witness :
  fits_int (float64_mul (fst (strconv.ParseFloat (Total passed_over_receipt) 64))
                        (float64_const 100 1)) = true
  /\ ~ (3 | len (strings.TrimSpace "Gum!"))
  /\ @calculatePoints amd64 passed_over_receipt = @calculatePoints arm64 passed_over_receipt.
Proof.
  assert (H : fits_int (float64_mul (fst (strconv.ParseFloat (Total passed_over_receipt) 64))
                                    (float64_const 100 1)) = true)
    by (vm_compute; reflexivity).
  assert (Hn : ~ (3 | len (strings.TrimSpace "Gum!"))).
  { intros [k Hk]. change (len (strings.TrimSpace "Gum!")) with 4 in Hk. lia. }
  split; [exact H|]. split; [exact Hn|].
  apply (calculatePoints_target_independent amd64 arm64 passed_over_receipt).
  - intros _. exact H.
  - repeat constructor. intros Hd. exfalso. exact (Hn Hd).
Defined.

(** [rule3_quarter_total] on a total of 1250.00. *)
Lemma rule3_quarter_total_witness :
  Total round_dollar_receipt = "1250" +:+ "." +:+ "00"
  /\ len "1250" <= 13
  /\ @rule3 amd64 round_dollar_receipt 56 = 81.
Proof.
  assert (H : len "1250" <= 13) by (vm_compute; discriminate).
  split; [reflexivity|]. split; [exact H|].
  rewrite (@rule3_quarter_total amd64 round_dollar_receipt 56 "1250" "00" eq_refl
             ltac:(discriminate) eq_refl H ltac:(now left)).
  reflexivity.
Defined.

(** [rule6_date_parts] on the date of the documented receipt: the day
    "01" ends in an odd digit. *)
Lemma rule6_date_parts_witness :
  PurchaseDate target_receipt = "2022" +:+ "-" +:+ "01" +:+ "-" +:+ "0" +:+ "1"
  /\ len "0" < 18
  /\ rule6 target_receipt 0 = Ok 6.
Proof.
  assert (H : len "0" < 18) by (vm_compute; reflexivity).
  split; [reflexivity|]. split; [exact H|].
  rewrite (proj2 (proj2 (rule6_date_parts target_receipt 0))
                 "2022" "01" "0" "1"%char eq_refl eq_refl eq_refl eq_refl eq_refl H).
  reflexivity.
Defined.

(** [rule7_time_parts] on 14:33. *)
Lemma rule7_time_parts_witness :
  PurchaseTime afternoon_receipt = String "1" (String "4" (String ":" "33"))
  /\ rule7 afternoon_receipt 0 = Ok 10.
Proof.
  split; [reflexivity|].
  rewrite (proj2 (proj2 (rule7_time_parts afternoon_receipt 0))
                 "1"%char "4"%char "33" eq_refl eq_refl eq_refl eq_refl).
  reflexivity.
Defined.

(** [AddReceipt_overwrites] when the generated identifier is a key of
    the map already: the score of zero is replaced, and the map keeps its
    single entry. *)
Lemma AddReceipt_overwrites_witness :
  @AddReceipt amd64 zero_store "7fb1377b-b223-49d9-a31a-5a02701dd310" target_receipt
  = Ok ("7fb1377b-b223-49d9-a31a-5a02701dd310"%string, rescored_store)
  /\ GetPoints rescored_store "7fb1377b-b223-49d9-a31a-5a02701dd310"
     = ((28, true), rescored_store)
  /\ size (receipts rescored_store) = size (receipts zero_store).
Proof.
  assert (Hcalc : @calculatePoints amd64 target_receipt = Ok 28)
    by (vm_compute; reflexivity).
  assert (H : @AddReceipt amd64 zero_store "7fb1377b-b223-49d9-a31a-5a02701dd310"
                          target_receipt
              = Ok ("7fb1377b-b223-49d9-a31a-5a02701dd310"%string, rescored_store))
    by exact (@AddReceipt_returns amd64 zero_store _ target_receipt 28 Hcalc).
  destruct (@AddReceipt_overwrites amd64 _ _ _ _ _ H)
    as (_ & (points & Hpoints & Hget) & _ & _ & Hsize & _).
  split; [exact H|]. split.
  - rewrite Hcalc in Hpoints. injection Hpoints as <-. exact Hget.
  - apply Hsize. apply elem_of_dom. exists 0. vm_compute. reflexivity.
Defined.

(** [process_handler_response] on the store at the start: a total of one
    byte is answered 500, the documented receipt 200. *)
Lemma process_handler_response_witness :
  len (Total short_total_receipt) < 3
  /\ 3 <= len (Total target_receipt)
  /\ @serve amd64 NewReceiptStore (POST_process (Some short_total_receipt) "id-1")
     = ({| code := 500; obj := None |}, NewReceiptStore)
  /\ fst (@serve amd64 NewReceiptStore (POST_process (Some target_receipt) "id-1"))
     = JSON 200 [("id"%string, JString "id-1")].
Proof.
  assert (H1 : len (Total short_total_receipt) < 3) by (vm_compute; reflexivity).
  assert (H2 : 3 <= len (Total target_receipt)) by (vm_compute; discriminate).
  destruct (@process_handler_response amd64 NewReceiptStore "id-1")
    as (_ & Hshort & Hlong).
  split; [exact H1|]. split; [exact H2|]. split.
  - exact (proj2 (Hshort short_total_receipt H1)).
  - destruct (Hlong target_receipt H2) as (points & _ & _ & ->). reflexivity.
Defined.

(** [points_handler_response] on a store that holds a score of zero: the
    stored zero is answered 200, an identifier never issued 404. *)
Lemma points_handler_response_witness :
  receipts zero_store !! "7fb1377b-b223-49d9-a31a-5a02701dd310"%string = Some 0
  /\ receipts zero_store !! "never-issued"%string = None
  /\ fst (@serve amd64 zero_store (GET_points "7fb1377b-b223-49d9-a31a-5a02701dd310"))
     = JSON 200 [("points"%string, JNumber 0)]
  /\ fst (@serve amd64 zero_store (GET_points "never-issued"))
     = JSON 404 [("error"%string, JString "Receipt not found")].
Proof.
  assert (H1 : receipts zero_store !! "7fb1377b-b223-49d9-a31a-5a02701dd310"%string = Some 0)
    by (vm_compute; reflexivity).
  assert (H2 : receipts zero_store !! "never-issued"%string = None)
    by (vm_compute; reflexivity).
  split; [exact H1|]. split; [exact H2|]. split.
  - exact (proj1 (proj2 (@points_handler_response amd64 zero_store _)) 0 H1).
  - exact (proj1 (proj2 (proj2 (@points_handler_response amd64 zero_store _))) H2).
Defined.

(** [process_then_points] on the documented receipt, with four requests
    between its POST and its GET. *)
Lemma process_then_points_witness :
  3 <= len (Total target_receipt)
  /\ Forall (fun req => generated req <> Some "id-1"%string) later_requests
  /\ exists resps s',
      length resps = 4%nat
      /\ @run amd64 NewReceiptStore
           (POST_process (Some target_receipt) "id-1"
              :: later_requests ++ [GET_points "id-1"])
         = (JSON 200 [("id"%string, JString "id-1")]
              :: resps ++ [JSON 200 [("points"%string, JNumber 28)]], s').
Proof.
  assert (H1 : 3 <= len (Total target_receipt)) by (vm_compute; discriminate).
  assert (H2 : Forall (fun req => generated req <> Some "id-1"%string) later_requests)
    by (repeat constructor; discriminate).
  assert (Hcalc : @calculatePoints amd64 target_receipt = Ok 28)
    by (vm_compute; reflexivity).
  split; [exact H1|]. split; [exact H2|].
  destruct (@process_then_points amd64 NewReceiptStore target_receipt "id-1"
              later_requests H1 H2)
    as (points & resps & s' & Hpoints & Hlen & Hrun).
  rewrite Hcalc in Hpoints. injection Hpoints as <-.
  exists resps, s'. split; [exact Hlen | exact Hrun].
Defined.

(** [main_store_invariant] on a session: an identifier that no request
    generated is answered 404 at its end. *)
Lemma main_store_invariant_witness :
  ~ In (Some "never-issued"%string) (map generated session)
  /\ fst (@serve amd64 (snd (@main amd64 session)) (GET_points "never-issued"))
     = JSON 404 [("error"%string, JString "Receipt not found")].
Proof.
  assert (H : ~ In (Some "never-issued"%string) (map generated session))
    by (cbn; intros Hin; repeat destruct Hin as [Hin|Hin]; try discriminate; exact Hin).
  split; [exact H|].
  exact (proj1 (proj2 (@main_store_invariant amd64 session)) _ H).
Defined.
